(** * EnvTalosDeburringHer: the episodic control loop of gym_talos

    A shallow embedding of [src/gym_talos/envs/env_talos_deburring_her.py]
    and the properties of its reward engine, its termination and truncation
    tests, its normaliser and its [reset]/[step] state machine.  Around it:
    the episode loop of [src/gym_talos/display.py], the joint lists and the
    ZMP of [src/gym_talos/utils/modelLoader.py], the statistics of
    [AllCallbacks] and the evaluation loop of [EvalOnTraining] in
    [src/gym_talos/utils/custom_callbacks.py].

    Conventions of the embedding.
    - A Python [int] is a [Z].  A finite float is a real number ([R]):
      rounding is not modelled.  A float that may be infinite or not a
      number (only an array division can produce one here) is an [npfloat].
      The one place where rounding shows in an integer is [maxStep], the
      truncation of a float quotient: the numbers behind it ([maxTime],
      [timeStepSimulation]) are binary64 floats, the kernel's [float], with
      IEEE 754 arithmetic as in Python.
    - A one-dimensional numpy array is a list, a two-dimensional one a list
      of rows.  Elementwise operations follow numpy's broadcasting rule and
      raise [ValueError] on incompatible shapes.
    - A Python exception is a value [Raise e] of the result type [Res]; a
      method that assigns to attributes of [self] runs in the monad [M],
      which keeps the assignments made before an exception.
    - The simulator, the robot designer (pinocchio) and the target sampler
      are collaborators outside the file; they are the fields of a [World],
      over which every definition is parametric. *)

From Stdlib Require Import PrimFloat.
From Stdlib Require FloatOps SpecFloat.
From Stdlib Require Import Reals Lra Lia ZArith List Bool String Sorted.
From stdpp Require Import gmap strings.
Import ListNotations.

(* A decimal literal of a float denotes the nearest binary64 number, as in
   Python. *)
Set Warnings "-inexact-float".

(** ** Exceptions and results *)

Inductive exn : Type :=
| ValueError          (* numpy: operands could not be broadcast together *)
| ZeroDivisionError   (* Python float division by zero *)
| OverflowError       (* an integer or an infinity that does not convert *)
| AttributeError      (* attribute read before any assignment *)
| IndexError
| KeyError
| TypeError.

Inductive Res (A : Type) : Type :=
| Ok (a : A)
| Raise (e : exn).
Arguments Ok {A} a.
Arguments Raise {A} e.

Definition res_bind {A B} (r : Res A) (k : A -> Res B) : Res B :=
  match r with
  | Ok a => k a
  | Raise e => Raise e
  end.

Declare Scope res_scope.
Delimit Scope res_scope with res.
Notation "'let*' x := c 'in' k" := (res_bind c (fun x => k))
  (at level 10, x name, c at level 100, k at level 200) : res_scope.

Fixpoint res_sequence {A} (l : list (Res A)) : Res (list A) :=
  match l with
  | [] => Ok []
  | r :: rs =>
      match r with
      | Raise e => Raise e
      | Ok a => match res_sequence rs with
                | Ok l' => Ok (a :: l')
                | Raise e => Raise e
                end
      end
  end.

(** ** Floats *)

Definition Rltb (x y : R) : bool := if Rlt_dec x y then true else false.
Definition Rgtb (x y : R) : bool := Rltb y x.

(** *** Binary64 numbers *)

(** A Python number that is an [int] or a [float]. *)
Inductive pynum : Type :=
| PyInt (z : Z)
| PyFloat (f : float).

Coercion PyFloat : float >-> pynum.

(** The conversion of an [int] to a float in an arithmetic operation: the
    nearest float, ties to even; [OverflowError] beyond the largest. *)
Definition float_of_int (z : Z) : Res float :=
  let f :=
    FloatOps.SF2Prim
      (SpecFloat.binary_normalize FloatOps.prec FloatOps.emax z 0 false) in
  if PrimFloat.is_infinity f then Raise OverflowError else Ok f.

Definition py_float (x : pynum) : Res float :=
  match x with
  | PyInt z => float_of_int z
  | PyFloat f => Ok f
  end.

(** Python's [x * n] on a float and an [int]. *)
Definition float_mul_int (x : float) (n : Z) : Res float :=
  match float_of_int n with
  | Ok y => Ok (PrimFloat.mul x y)
  | Raise e => Raise e
  end.

(** Python's [x / y] on a number and a float. *)
Definition py_truediv (x : pynum) (y : float) : Res float :=
  match py_float x with
  | Ok a =>
      if PrimFloat.is_zero y then Raise ZeroDivisionError
      else Ok (PrimFloat.div a y)
  | Raise e => Raise e
  end.

(** Python's [int(x)] on a float: truncation towards zero. *)
Definition py_int (x : float) : Res Z :=
  match FloatOps.Prim2SF x with
  | SpecFloat.S754_zero _ => Ok 0%Z
  | SpecFloat.S754_finite s m e =>
      let a :=
        match e with
        | Z0 => Zpos m
        | Zpos k => Z.shiftl (Zpos m) (Zpos k)
        | Zneg k => Z.shiftr (Zpos m) (Zpos k)
        end in
      Ok (if s then (- a)%Z else a)
  | SpecFloat.S754_infinity _ => Raise OverflowError
  | SpecFloat.S754_nan => Raise ValueError
  end.

(** [bool] as a number, as numpy converts it. *)
Definition R_of_bool (b : bool) : R := if b then 1%R else 0%R.

(** A float64 up to rounding: a real, an infinity or a NaN.  The sign of a
    zero is not modelled (a zero divisor counts as [+0]). *)
Inductive npfloat : Type :=
| Fin (r : R)
| PInf
| NInf
| NaN.

Module Np.

Definition is_finite (x : npfloat) : bool :=
  match x with Fin _ => true | _ => false end.

Definition neg (x : npfloat) : npfloat :=
  match x with
  | Fin a => Fin (- a)
  | PInf => NInf
  | NInf => PInf
  | NaN => NaN
  end.

Definition add (x y : npfloat) : npfloat :=
  match x, y with
  | NaN, _ | _, NaN => NaN
  | Fin a, Fin b => Fin (a + b)
  | PInf, NInf | NInf, PInf => NaN
  | PInf, _ | _, PInf => PInf
  | NInf, _ | _, NInf => NInf
  end.

Definition sub (x y : npfloat) : npfloat := add x (neg y).

(** The infinity of the sign of [a], NaN for [a = 0]. *)
Definition inf_of_sign (a : R) : npfloat :=
  if Rltb 0 a then PInf else if Rltb a 0 then NInf else NaN.

Definition mul (x y : npfloat) : npfloat :=
  match x, y with
  | NaN, _ | _, NaN => NaN
  | Fin a, Fin b => Fin (a * b)
  | Fin a, PInf | PInf, Fin a => inf_of_sign a
  | Fin a, NInf | NInf, Fin a => inf_of_sign (- a)
  | PInf, PInf | NInf, NInf => PInf
  | PInf, NInf | NInf, PInf => NInf
  end.

(** numpy's true division: a zero divisor gives an infinity or a NaN (and
    a warning), not an exception. *)
Definition div (x y : npfloat) : npfloat :=
  match x, y with
  | NaN, _ | _, NaN => NaN
  | Fin a, Fin b => if Req_dec_T b 0 then inf_of_sign a else Fin (a / b)
  | Fin _, PInf | Fin _, NInf => Fin 0
  | PInf, Fin b => if Rltb b 0 then NInf else PInf
  | NInf, Fin b => if Rltb b 0 then PInf else NInf
  | _, _ => NaN
  end.

Definition sqrt (x : npfloat) : npfloat :=
  match x with
  | Fin a => if Rltb a 0 then NaN else Fin (R_sqrt.sqrt a)
  | PInf => PInf
  | _ => NaN
  end.

Definition lt (x y : npfloat) : bool :=
  match x, y with
  | NaN, _ | _, NaN => false
  | Fin a, Fin b => Rltb a b
  | NInf, Fin _ | NInf, PInf | Fin _, PInf => true
  | _, _ => false
  end.

(** [bool.astype(int)] used in float arithmetic. *)
Definition of_bool (b : bool) : npfloat := Fin (R_of_bool b).

(** [np.sum] of a one-dimensional array. *)
Definition sum (v : list npfloat) : npfloat := fold_right add (Fin 0) v.

(** [np.linalg.norm] of a one-dimensional array (the 2-norm). *)
Definition norm (v : list npfloat) : npfloat :=
  sqrt (sum (map (fun x => mul x x) v)).

End Np.

Definition ndarray : Type := list npfloat.

(** [np.linalg.norm] on an array of finite floats. *)
Definition Rnorm (v : list R) : R :=
  sqrt (fold_right Rplus 0%R (map (fun x => x * x)%R v)).

(** ** Broadcasting *)

(** An elementwise binary operation on two one-dimensional arrays: equal
    lengths, or one of them of length 1, else [ValueError]. *)
Definition broadcast {A B C} (f : A -> B -> C) (x : list A) (y : list B)
  : Res (list C) :=
  if (length x =? length y)%nat then Ok (zip_with f x y)
  else match x, y with
       | [a], _ => Ok (map (f a) y)
       | _, [b] => Ok (map (fun a => f a b) x)
       | _, _ => Raise ValueError
       end.

(** The same on two-dimensional arrays, given as lists of rows. *)
Definition broadcast2 {A B C} (f : A -> B -> C)
  (x : list (list A)) (y : list (list B)) : Res (list (list C)) :=
  (let* rows := broadcast (broadcast f) x y in res_sequence rows)%res.

(** A one-dimensional array against each row of a two-dimensional one. *)
Definition broadcast_rows {A B C} (f : A -> B -> C)
  (m : list (list A)) (v : list B) : Res (list (list C)) :=
  res_sequence (map (fun row => broadcast f row v) m).

(** [dest[i] = v] for a row [dest[i]] of length [n]. *)
Definition assign_row {A} (n : nat) (v : list A) : Res (list A) :=
  if (length v =? n)%nat then Ok v
  else match v with
       | [a] => Ok (replicate n a)
       | _ => Raise ValueError
       end.

(** [x[:n]] and [x[-n:]] for [n >= 0]; note that [x[-0:]] is all of [x]. *)
Definition slice_to {A} (n : nat) (x : list A) : list A := firstn n x.
Definition slice_last {A} (n : nat) (x : list A) : list A :=
  match n with
  | O => x
  | _ => skipn (length x - n) x
  end.

(** [np.diag] of a one-dimensional array. *)
Definition np_diag (d : list R) : list (list R) :=
  imap (fun i _ => imap (fun j x => if (i =? j)%nat then x else 0%R) d) d.

(** [(...).any()] *)
Definition any (l : list bool) : bool := existsb (fun b => b) l.

(** [a @ w] for a matrix [a] given by its rows and a one-column matrix [w],
    given by its column. *)
Definition dot (row w : ndarray) : Res npfloat :=
  if (length row =? length w)%nat then Ok (Np.sum (zip_with Np.mul row w))
  else Raise ValueError.

Definition matmul_col (a : list ndarray) (w : ndarray) : Res (list ndarray) :=
  res_sequence
    (map (fun row => (let* r := dot row w in Ok [r])%res) a).

(** [np.concatenate((a, b), axis=1)] on two-dimensional arrays. *)
Definition concatenate_axis1 {A} (a b : list (list A)) : Res (list (list A)) :=
  if (length a =? length b)%nat then Ok (zip_with (@app A) a b)
  else Raise ValueError.

(** ** Configuration and collaborators *)

(** The attributes that [_init_parameters] reads from [params_env], after
    its defaults have been applied ([randomInit] and [GUI], which only the
    constructor of the simulator receives, are left out).
    [timeStepSimulation], which [_init_parameters] converts with [float],
    is a binary64 number, and [maxTime] the [int] or the [float] that the
    file holds: [maxStep] is computed from them. *)
Record Config : Type := {
  timeStepSimulation : float;
  numSimulationSteps : Z;
  normalizeObs : bool;
  maxTime : pynum;
  weight_target : R;
  weight_command : R;
  weight_truncation : R;
  limitPosScale : R;
  limitVelScale : R;
  torqueScaleCoeff : R;
  lowerLimitPos : list R;
  upperLimitPos : list R;
  threshold_success : R;
  weight_target_reached : R;
  weight_joints_to_init : option (list (string * R));
  reward_type : string;
  weight_alive : R
}.

(** The fields of pinocchio's reduced model that the environment reads. *)
Record RModel : Type := {
  nq : nat;
  nv : nat;
  effortLimit : list R;
  lowerPositionLimit : list R;
  upperPositionLimit : list R;
  velocityLimit : list R
}.

(** What is outside the file: [TalosDeburringSimulator]
    ([simulator/bullet_Talos]), [TargetGoal] ([utils/create_target], a pair
    of its attribute [position_target] and of the rest of the object), the
    methods of [TalosDesigner] that the environment calls, which wrap
    pinocchio, and the contents of freshly allocated arrays.  Their calls
    are total functions on an abstract state and return finite floats. *)
Record World : Type := {
  Simulator : Type;
  simulator_new : Simulator;
  sim_reset : list R -> Simulator -> Simulator;
  sim_step : list R -> Simulator -> Simulator;
  getRobotState : Simulator -> list R;
  getRobotPos : Simulator -> list R;
  qC0 : Simulator -> list R;
  dict_pos : Simulator -> gmap string nat;
  Designer : Type;
  designer_new : Designer;
  designer_rmodel : Designer -> RModel;
  update_reduced_model : list R -> list R -> Designer -> Designer;
  get_end_effector_pos : Designer -> list R;
  get_CoM : Designer -> list R;
  Sampler : Type;
  target_new : list R * Sampler;
  create_target : list R * Sampler -> list R * Sampler;
  uninitialised : nat -> nat -> npfloat
}.

(** A [TargetGoal] object: its attribute [position_target] and the rest of
    it, which only [create_target] touches. *)
Definition TargetGoal (W : World) : Type := (list R * Sampler W)%type.
Definition position_target {W} (t : TargetGoal W) : list R := fst t.
Definition set_position_target {W} (p : list R) (t : TargetGoal W)
  : TargetGoal W := (p, snd t).

(** [np.empty((r, c))]: the entries are whatever the memory holds. *)
Definition np_empty (W : World) (r c : nat) : list ndarray :=
  map (fun i => map (uninitialised W i) (seq 0 c)) (seq 0 r).

(** The calls received by the simulator, in order: a ghost trace. *)
Inductive SimCall : Type :=
| CallReset (target : list R)
| CallStep (torques : list R)
| CallGetRobotState
| CallGetRobotPos.

Inductive RewardPolicy : Type := Dense | Sparse.

(** [lower*Lim], [upper*Lim], [avg*] and [diff*] of one normaliser. *)
Record Limits : Type := {
  lowerLim : list R;
  upperLim : list R;
  avg : list R;
  diff : list R
}.

(** The observation dictionary. *)
Record Obs : Type := {
  observation : ndarray;
  achieved_goal : ndarray;
  desired_goal : ndarray
}.

(** The [infos] dictionary of [_reward]; [is_success] is the key that
    [step] adds on a final step. *)
Record Info : Type := {
  param_rew : ndarray;
  tor : R;
  init : npfloat;
  dst : npfloat;
  info_on_target : bool;
  is_success : option bool
}.

Definition set_is_success (b : bool) (i : Info) : Info :=
  {| param_rew := param_rew i; tor := tor i; init := init i; dst := dst i;
     info_on_target := info_on_target i; is_success := Some b |}.

(** The [infos] dictionary of [reset]. *)
Record ResetInfo : Type := {
  reset_dst : R;
  reset_tor : R;
  reset_init : R
}.

Record StepResult : Type := {
  ob : Obs;
  reward : npfloat;
  terminated : bool;
  truncated : bool;
  infos : Info
}.

(** ** The environment object *)

Section Environment.

Context (W : World).

(** The attributes of [self].  [obs_limits] and [goal_limits] exist only
    after the normalisers were initialised, [rCoM] only after a first
    [step], [compute_reward] only for a known [rewardType]. *)
Record Env : Type := {
  params : Config;
  compute_reward : option RewardPolicy;
  pinWrapper : Designer W;
  rmodel : RModel;
  simulator : Simulator W;
  sim_log : list SimCall;
  target : TargetGoal W;
  order_positions : gmap string nat;
  mat_dt_init : list (list R);
  timer : Z;
  on_target : Z;
  maxStep : Z;
  obs_limits : option Limits;
  goal_limits : option Limits;
  torqueScale : list R;
  rCoM : option (list R)
}.

Definition set_pinWrapper (x : Designer W) (e : Env) : Env :=
  {| params := params e; compute_reward := compute_reward e;
     pinWrapper := x; rmodel := rmodel e; simulator := simulator e;
     sim_log := sim_log e; target := target e;
     order_positions := order_positions e; mat_dt_init := mat_dt_init e;
     timer := timer e; on_target := on_target e; maxStep := maxStep e;
     obs_limits := obs_limits e; goal_limits := goal_limits e;
     torqueScale := torqueScale e; rCoM := rCoM e |}.

(** A call to the simulator: its new state, and the call on the trace. *)
Definition set_simulator (x : Simulator W) (c : SimCall) (e : Env) : Env :=
  {| params := params e; compute_reward := compute_reward e;
     pinWrapper := pinWrapper e; rmodel := rmodel e; simulator := x;
     sim_log := sim_log e ++ [c]; target := target e;
     order_positions := order_positions e; mat_dt_init := mat_dt_init e;
     timer := timer e; on_target := on_target e; maxStep := maxStep e;
     obs_limits := obs_limits e; goal_limits := goal_limits e;
     torqueScale := torqueScale e; rCoM := rCoM e |}.

Definition set_target (x : TargetGoal W) (e : Env) : Env :=
  {| params := params e; compute_reward := compute_reward e;
     pinWrapper := pinWrapper e; rmodel := rmodel e;
     simulator := simulator e; sim_log := sim_log e; target := x;
     order_positions := order_positions e; mat_dt_init := mat_dt_init e;
     timer := timer e; on_target := on_target e; maxStep := maxStep e;
     obs_limits := obs_limits e; goal_limits := goal_limits e;
     torqueScale := torqueScale e; rCoM := rCoM e |}.

Definition set_timer (x : Z) (e : Env) : Env :=
  {| params := params e; compute_reward := compute_reward e;
     pinWrapper := pinWrapper e; rmodel := rmodel e;
     simulator := simulator e; sim_log := sim_log e; target := target e;
     order_positions := order_positions e; mat_dt_init := mat_dt_init e;
     timer := x; on_target := on_target e; maxStep := maxStep e;
     obs_limits := obs_limits e; goal_limits := goal_limits e;
     torqueScale := torqueScale e; rCoM := rCoM e |}.

Definition set_on_target (x : Z) (e : Env) : Env :=
  {| params := params e; compute_reward := compute_reward e;
     pinWrapper := pinWrapper e; rmodel := rmodel e;
     simulator := simulator e; sim_log := sim_log e; target := target e;
     order_positions := order_positions e; mat_dt_init := mat_dt_init e;
     timer := timer e; on_target := x; maxStep := maxStep e;
     obs_limits := obs_limits e; goal_limits := goal_limits e;
     torqueScale := torqueScale e; rCoM := rCoM e |}.

Definition set_maxStep (x : Z) (e : Env) : Env :=
  {| params := params e; compute_reward := compute_reward e;
     pinWrapper := pinWrapper e; rmodel := rmodel e;
     simulator := simulator e; sim_log := sim_log e; target := target e;
     order_positions := order_positions e; mat_dt_init := mat_dt_init e;
     timer := timer e; on_target := on_target e; maxStep := x;
     obs_limits := obs_limits e; goal_limits := goal_limits e;
     torqueScale := torqueScale e; rCoM := rCoM e |}.

Definition set_obs_limits (x : Limits) (e : Env) : Env :=
  {| params := params e; compute_reward := compute_reward e;
     pinWrapper := pinWrapper e; rmodel := rmodel e;
     simulator := simulator e; sim_log := sim_log e; target := target e;
     order_positions := order_positions e; mat_dt_init := mat_dt_init e;
     timer := timer e; on_target := on_target e; maxStep := maxStep e;
     obs_limits := Some x; goal_limits := goal_limits e;
     torqueScale := torqueScale e; rCoM := rCoM e |}.

Definition set_goal_limits (x : Limits) (e : Env) : Env :=
  {| params := params e; compute_reward := compute_reward e;
     pinWrapper := pinWrapper e; rmodel := rmodel e;
     simulator := simulator e; sim_log := sim_log e; target := target e;
     order_positions := order_positions e; mat_dt_init := mat_dt_init e;
     timer := timer e; on_target := on_target e; maxStep := maxStep e;
     obs_limits := obs_limits e; goal_limits := Some x;
     torqueScale := torqueScale e; rCoM := rCoM e |}.

Definition set_torqueScale (x : list R) (e : Env) : Env :=
  {| params := params e; compute_reward := compute_reward e;
     pinWrapper := pinWrapper e; rmodel := rmodel e;
     simulator := simulator e; sim_log := sim_log e; target := target e;
     order_positions := order_positions e; mat_dt_init := mat_dt_init e;
     timer := timer e; on_target := on_target e; maxStep := maxStep e;
     obs_limits := obs_limits e; goal_limits := goal_limits e;
     torqueScale := x; rCoM := rCoM e |}.

Definition set_rCoM (x : list R) (e : Env) : Env :=
  {| params := params e; compute_reward := compute_reward e;
     pinWrapper := pinWrapper e; rmodel := rmodel e;
     simulator := simulator e; sim_log := sim_log e; target := target e;
     order_positions := order_positions e; mat_dt_init := mat_dt_init e;
     timer := timer e; on_target := on_target e; maxStep := maxStep e;
     obs_limits := obs_limits e; goal_limits := goal_limits e;
     torqueScale := torqueScale e; rCoM := Some x |}.

(** *** Methods that assign to [self] *)

Definition M (A : Type) : Type := Env -> Env * Res A.

Definition ret {A} (a : A) : M A := fun e => (e, Ok a).

Definition bind {A B} (c : M A) (k : A -> M B) : M B :=
  fun e =>
    match c e with
    | (e', Ok a) => k a e'
    | (e', Raise x) => (e', Raise x)
    end.

(** Read [self]. *)
Definition self : M Env := fun e => (e, Ok e).

(** An assignment to an attribute of [self]. *)
Definition assign (f : Env -> Env) : M unit := fun e => (f e, Ok tt).

(** A computation that only reads. *)
Definition lift {A} (r : Res A) : M A := fun e => (e, r).

(** [for _ in range(n): body] *)
Fixpoint for_range (n : nat) (body : M unit) : M unit :=
  match n with
  | O => ret tt
  | S n' => bind body (fun _ => for_range n' body)
  end.

End Environment.

Arguments params {W} e.
Arguments compute_reward {W} e.
Arguments pinWrapper {W} e.
Arguments rmodel {W} e.
Arguments simulator {W} e.
Arguments sim_log {W} e.
Arguments target {W} e.
Arguments order_positions {W} e.
Arguments mat_dt_init {W} e.
Arguments timer {W} e.
Arguments on_target {W} e.
Arguments maxStep {W} e.
Arguments obs_limits {W} e.
Arguments goal_limits {W} e.
Arguments torqueScale {W} e.
Arguments rCoM {W} e.
Arguments set_pinWrapper {W} x e.
Arguments set_simulator {W} x c e.
Arguments set_target {W} x e.
Arguments set_timer {W} x e.
Arguments set_on_target {W} x e.
Arguments set_maxStep {W} x e.
Arguments set_obs_limits {W} x e.
Arguments set_goal_limits {W} x e.
Arguments set_torqueScale {W} x e.
Arguments set_rCoM {W} x e.
Arguments ret {W A} a.
Arguments bind {W A B} c k.
Arguments self {W}.
Arguments assign {W} f.
Arguments lift {W A} r.
Arguments for_range {W} n body.

Declare Scope env_scope.
Delimit Scope env_scope with env.
Notation "'let*' x := c 'in' k" := (bind c (fun x => k))
  (at level 10, x name, c at level 100, k at level 200) : env_scope.
Notation "c ;; k" := (bind c (fun _ => k))
  (at level 100, k at level 200, right associativity) : env_scope.

Section Methods.

Context {W : World}.

Local Open Scope res_scope.

(** An attribute that may not exist yet. *)
Definition getattr {A} (x : option A) : Res A :=
  match x with
  | Some a => Ok a
  | None => Raise AttributeError
  end.

(** *** Normalisers *)

Definition make_limits (lower upper : list R) : Res Limits :=
  let* s := broadcast Rplus upper lower in
  let* d := broadcast Rminus upper lower in
  Ok {| lowerLim := lower; upperLim := upper;
        avg := map (fun x => x / 2)%R s; diff := d |}.

Definition _init_obsNormalizer : M W unit :=
  fun e =>
    let lowerObsLim :=
      lowerPositionLimit (rmodel e) ++ map Ropp (velocityLimit (rmodel e)) in
    let upperObsLim :=
      upperPositionLimit (rmodel e) ++ velocityLimit (rmodel e) in
    match make_limits lowerObsLim upperObsLim with
    | Ok l => (set_obs_limits l e, Ok tt)
    | Raise x => (e, Raise x)
    end.

Definition _init_goalNormalizer : M W unit :=
  fun e =>
    let lowerGoalLim := map (Rmult (-3)) (replicate 3 1%R) in
    let upperGoalLim := map (Rmult 3) (replicate 3 1%R) in
    match make_limits lowerGoalLim upperGoalLim with
    | Ok l => (set_goal_limits l e, Ok tt)
    | Raise x => (e, Raise x)
    end.

Definition _init_targetNormalizer : M W unit := _init_goalNormalizer.

(** [(x - avg) / diff] *)
Definition normalize (l : Limits) (x : list R) : Res ndarray :=
  let* c := broadcast Rminus x (avg l) in
  broadcast (fun a b => Np.div (Fin a) (Fin b)) c (diff l).

Definition _goalNormalizer (e : Env W) (goal : list R) : Res ndarray :=
  let* l := getattr (goal_limits e) in normalize l goal.

Definition _obsNormalizer (e : Env W) (x_measured : list R) : Res ndarray :=
  let* l := getattr (obs_limits e) in normalize l x_measured.

Definition _targetNormalizer (e : Env W) (tgt : list R) : Res ndarray :=
  let* l := getattr (goal_limits e) in normalize l tgt.

Definition _getObservation (e : Env W) (x_measured : list R) : Res Obs :=
  if normalizeObs (params e) then
    let* o := _obsNormalizer e x_measured in
    let* a := _goalNormalizer e (get_end_effector_pos W (pinWrapper e)) in
    let* d := _targetNormalizer e (position_target (target e)) in
    Ok {| observation := o; achieved_goal := a; desired_goal := d |}
  else
    Ok {| observation := map Fin x_measured;
          achieved_goal := map Fin (get_end_effector_pos W (pinWrapper e));
          desired_goal := map Fin (position_target (target e)) |}.

(** *** Reward engine *)

(** [info_matrix[i] = inf["param_rew"]] for the entries of [info], from
    row [i] on. *)
Fixpoint fill_info_matrix (i : nat) (info : list Info) (m : list ndarray)
  : Res (list ndarray) :=
  match info with
  | [] => Ok m
  | inf :: rest =>
      if (i <? length m)%nat then
        let* row := assign_row 3 (param_rew inf) in
        fill_info_matrix (S i) rest (<[ i := row ]> m)
      else Raise IndexError
  end.

(** [np.array([np.linalg.norm(a - d, axis=-1)]).T], as its column. *)
Definition goal_distances (achieved desired : list ndarray) : Res ndarray :=
  let* delta := broadcast2 Np.sub achieved desired in
  Ok (map Np.norm delta).

Definition compute_reward_sparse (e : Env W)
  (achieved desired : list ndarray) (info : list Info) : Res (list ndarray) :=
  let* dst := goal_distances achieved desired in
  let coeff_matrix :=
    [Fin (- weight_command (params e)); Fin 0; Fin 0;
     Fin (weight_target_reached (params e))] in
  let* info_matrix :=
    fill_info_matrix 0 info (np_empty W (length achieved) 3) in
  let* info_matrix :=
    concatenate_axis1 info_matrix
      (map (fun d =>
              [Np.sub (Np.of_bool (Np.lt d (Fin (threshold_success (params e)))))
                      (Np.mul (Fin 0.002) (Fin 1))]) dst) in
  matmul_col info_matrix coeff_matrix.

Definition compute_reward_dense (e : Env W)
  (achieved desired : list ndarray) (info : list Info) : Res (list ndarray) :=
  let* dst := goal_distances achieved desired in
  let coeff_matrix :=
    [Fin (- weight_command (params e)); Fin (-1);
     Fin (weight_truncation (params e)); Fin (- weight_target (params e))] in
  let* info_matrix :=
    fill_info_matrix 0 info (np_empty W (length achieved) 3) in
  let* info_matrix :=
    concatenate_axis1 info_matrix (map (fun d => [d]) dst) in
  matmul_col info_matrix coeff_matrix.

(** [self.compute_reward], bound in [__init__]. *)
Definition call_compute_reward (e : Env W)
  (achieved desired : list ndarray) (info : list Info) : Res (list ndarray) :=
  let* policy := getattr (compute_reward e) in
  match policy with
  | Dense => compute_reward_dense e achieved desired info
  | Sparse => compute_reward_sparse e achieved desired info
  end.

(** [np.sum(v.T * mat * v)] for a one-dimensional [v]: both products are
    elementwise, [v] against each row of [mat]. *)
Definition quadratic_form (v : ndarray) (mat : list (list R)) : Res npfloat :=
  let* vm := res_sequence
               (map (fun row => broadcast Np.mul v (map Fin row)) mat) in
  let* vmv := broadcast_rows Np.mul vm v in
  Ok (Np.sum (concat vmv)).

(** [float(a)] of an array holding one element. *)
Definition float_of_array (a : list ndarray) : Res npfloat :=
  match a with
  | [[r]] => Ok r
  | _ => Raise TypeError
  end.

Definition _reward (e : Env W) (torques : list R) (ob : Obs) (truncated : bool)
  : Res (npfloat * Info) :=
  let* to_init :=
    broadcast Np.sub (map Fin (qC0 W (simulator e)))
      (slice_to (nq (rmodel e)) (observation ob)) in
  let* len_to_init := quadratic_form to_init (mat_dt_init e) in
  let* delta := broadcast Np.sub (achieved_goal ob) (desired_goal ob) in
  let dst := Np.norm delta in
  let bool_check := Np.lt dst (Fin (threshold_success (params e))) in
  let infos :=
    {| param_rew := [Fin (Rnorm torques); len_to_init;
                     Np.of_bool (negb truncated)];
       tor := Rnorm torques;
       init := len_to_init;
       dst := dst;
       info_on_target := bool_check;
       is_success := None |} in
  let* ach_goal := assign_row 3 (achieved_goal ob) in
  let* des_goal := assign_row 3 (desired_goal ob) in
  let* r := call_compute_reward e [ach_goal] [des_goal] [infos] in
  let* reward := float_of_array r in
  Ok (reward, infos).

(** *** Termination, truncation, success *)

Definition _checkTermination (e : Env W) : bool :=
  (timer e >? maxStep e - 1)%Z || (on_target e >? 30)%Z.

Definition _checkSuccess (e : Env W) : bool := (on_target e >? 30)%Z.

(** [a.any() or b.any()], where [b] is only evaluated when [a.any()] is
    false. *)
Definition any_or (a : Res (list bool)) (b : Res (list bool)) : Res bool :=
  let* x := a in
  if any x then Ok true else let* y := b in Ok (any y).

Definition _checkTruncation (e : Env W) (x_measured : list R) : Res bool :=
  let* com := getattr (rCoM e) in
  let* truncation_balance :=
    any_or (broadcast Rltb com (lowerLimitPos (params e)))
           (broadcast Rgtb com (upperLimitPos (params e))) in
  let* truncation_limits_position :=
    any_or
      (broadcast Rgtb (slice_to (nq (rmodel e)) x_measured)
         (map (Rmult (limitPosScale (params e)))
              (upperPositionLimit (rmodel e))))
      (broadcast Rltb (slice_to (nq (rmodel e)) x_measured)
         (map (Rmult (limitPosScale (params e)))
              (lowerPositionLimit (rmodel e)))) in
  let* speed :=
    broadcast Rgtb (map Rabs (slice_last (nv (rmodel e)) x_measured))
      (map (Rmult (limitVelScale (params e))) (velocityLimit (rmodel e))) in
  let truncation_limits_speed := any speed in
  let truncation_limits :=
    truncation_limits_position || truncation_limits_speed in
  Ok (truncation_limits || truncation_balance).

Definition _scaleAction (e : Env W) (action : list R) : Res (list R) :=
  broadcast Rmult (torqueScale e) action.

Local Open Scope env_scope.

(** *** Calls to the collaborators *)

Definition simulator_reset (tgt : list R) : M W unit :=
  assign (fun e =>
    set_simulator (sim_reset W tgt (simulator e)) (CallReset tgt) e).

Definition simulator_step (torques : list R) : M W unit :=
  assign (fun e =>
    set_simulator (sim_step W torques (simulator e)) (CallStep torques) e).

Definition simulator_getRobotState : M W (list R) :=
  fun e => (set_simulator (simulator e) CallGetRobotState e,
            Ok (getRobotState W (simulator e))).

Definition simulator_getRobotPos : M W (list R) :=
  fun e => (set_simulator (simulator e) CallGetRobotPos e,
            Ok (getRobotPos W (simulator e))).

Definition pinWrapper_update_reduced_model (x_measured base_pos : list R)
  : M W unit :=
  assign (fun e =>
    set_pinWrapper
      (update_reduced_model W x_measured base_pos (pinWrapper e)) e).

Definition target_create_target : M W unit :=
  assign (fun e => set_target (create_target W (target e)) e).

(** *** Construction *)

(** The space definitions that end [_init_env_variables] are left out:
    they are not read again by the methods of the class. *)
Definition _init_env_variables (action_dimension observation_dimension : nat)
  : M W unit :=
  assign (set_timer 0) ;;
  assign (set_on_target 0) ;;
  target_create_target ;;
  let* e := self in
  let* period :=
    lift (float_mul_int (timeStepSimulation (params e))
            (numSimulationSteps (params e))) in
  let* steps := lift (py_truediv (maxTime (params e)) period) in
  let* n := lift (py_int steps) in
  assign (set_maxStep n) ;;
  (if normalizeObs (params e) then
     _init_obsNormalizer ;; _init_goalNormalizer ;; _init_targetNormalizer
   else ret tt) ;;
  assign (set_torqueScale
            (map (Rmult (torqueScaleCoeff (params e)))
                 (effortLimit (rmodel e)))).

(** [mat[order_positions[key]] = value] for the items of the dictionary
    [w_joints_to_init], in their order. *)
Fixpoint set_joint_weights (items : list (string * R))
  (positions : gmap string nat) (mat : list R) : Res (list R) :=
  match items with
  | [] => Ok mat
  | (key, value) :: rest =>
      match positions !! key with
      | None => Raise KeyError
      | Some i =>
          if (i <? length mat)%nat
          then set_joint_weights rest positions (<[ i := value ]> mat)
          else Raise IndexError
      end
  end.

Definition bind_compute_reward (p : Config) : option RewardPolicy :=
  if String.eqb (reward_type p) "dense" then Some Dense
  else if String.eqb (reward_type p) "sparse" then Some Sparse
  else None.

(** [EnvTalosDeburringHer(params_designer, params_env)], from the
    attributes that [_init_parameters] has read.  The attributes that
    [_init_env_variables] assigns hold a placeholder until then; none is
    read before. *)
Definition __init__ (p : Config) : Res (Env W) :=
  let rm := designer_rmodel W (designer_new W) in
  let positions := dict_pos W (simulator_new W) in
  match
    match weight_joints_to_init p with
    | None => Ok (replicate (nq rm) 0%R)
    | Some items => set_joint_weights items positions (replicate (nq rm) 0%R)
    end
  with
  | Raise x => Raise x
  | Ok weights =>
      let e0 :=
        {| params := p;
           compute_reward := bind_compute_reward p;
           pinWrapper := designer_new W;
           rmodel := rm;
           simulator := simulator_new W;
           sim_log := [];
           target := target_new W;
           order_positions := positions;
           mat_dt_init := np_diag weights;
           timer := 0; on_target := 0; maxStep := 0;
           obs_limits := None; goal_limits := None;
           torqueScale := []; rCoM := None |} in
      match
        (let* x := simulator_getRobotState in
         _init_env_variables (nq rm) (length x)) e0
      with
      | (e, Ok _) => Ok e
      | (_, Raise x) => Raise x
      end
  end.

(** *** The episode *)

Definition resolve_target (options : option (gmap string (list R)))
  : M W unit :=
  match options with
  | None => target_create_target
  | Some opts =>
      match opts !! "target" with
      | Some t =>
          assign (fun e => set_target (set_position_target t (target e)) e)
      | None => ret tt
      end
  end.

Definition reset (options : option (gmap string (list R)))
  : M W (Obs * ResetInfo) :=
  assign (set_timer 0) ;;
  assign (set_on_target 0) ;;
  resolve_target options ;;
  let* e := self in
  simulator_reset (position_target (target e)) ;;
  let* x_measured := simulator_getRobotState in
  let* base_pos := simulator_getRobotPos in
  pinWrapper_update_reduced_model x_measured base_pos ;;
  let* e := self in
  let* delta :=
    lift (broadcast Rminus (get_end_effector_pos W (pinWrapper e))
            (position_target (target e))) in
  let infos :=
    {| reset_dst := Rnorm delta; reset_tor := 0; reset_init := 0 |} in
  let* ob := lift (_getObservation e x_measured) in
  ret (ob, infos).

Definition step (action : list R) : M W StepResult :=
  assign (fun e => set_timer (timer e + 1) e) ;;
  let* e := self in
  let* torques := lift (_scaleAction e action) in
  for_range (Z.to_nat (numSimulationSteps (params e)))
    (simulator_step torques) ;;
  let* x_measured := simulator_getRobotState in
  let* base_pos := simulator_getRobotPos in
  pinWrapper_update_reduced_model x_measured base_pos ;;
  assign (fun e => set_rCoM (get_CoM W (pinWrapper e)) e) ;;
  let* e := self in
  let* ob := lift (_getObservation e x_measured) in
  let* truncated := lift (_checkTruncation e x_measured) in
  let* ri := lift (_reward e torques ob truncated) in
  let '(reward, infos) := ri in
  assign (fun e =>
    set_on_target
      (on_target e + (if info_on_target infos then 1 else 0)) e) ;;
  let* e := self in
  let terminated := _checkTermination e in
  let infos :=
    if terminated || truncated
    then set_is_success (_checkSuccess e) infos
    else infos in
  ret {| ob := ob; reward := reward; terminated := terminated;
         truncated := truncated; infos := infos |}.

End Methods.

(** * The display script *)

(** [params_env] with another [maxTime]. *)
Definition with_maxTime (t : pynum) (p : Config) : Config :=
  {| timeStepSimulation := timeStepSimulation p;
     numSimulationSteps := numSimulationSteps p;
     normalizeObs := normalizeObs p;
     maxTime := t;
     weight_target := weight_target p;
     weight_command := weight_command p;
     weight_truncation := weight_truncation p;
     limitPosScale := limitPosScale p;
     limitVelScale := limitVelScale p;
     torqueScaleCoeff := torqueScaleCoeff p;
     lowerLimitPos := lowerLimitPos p;
     upperLimitPos := upperLimitPos p;
     threshold_success := threshold_success p;
     weight_target_reached := weight_target_reached p;
     weight_joints_to_init := weight_joints_to_init p;
     reward_type := reward_type p;
     weight_alive := weight_alive p |}.

Section Display.

Context {W : World}.

(** [envDisplay.maxTime = t] *)
Definition set_maxTime (t : pynum) (e : Env W) : Env W :=
  {| params := with_maxTime t (params e);
     compute_reward := compute_reward e;
     pinWrapper := pinWrapper e; rmodel := rmodel e;
     simulator := simulator e; sim_log := sim_log e; target := target e;
     order_positions := order_positions e; mat_dt_init := mat_dt_init e;
     timer := timer e; on_target := on_target e; maxStep := maxStep e;
     obs_limits := obs_limits e; goal_limits := goal_limits e;
     torqueScale := torqueScale e; rCoM := rCoM e |}.

(** The construction of [envDisplay] and the assignment that follows the
    loading of the policy. *)
Definition display_setup (p : Config) : Res (Env W) :=
  (let* e := __init__ p in Ok (set_maxTime (PyInt 500) e))%res.

(** [model.predict(obs, deterministic=True)] *)
Variable predict : Obs -> list R.

Local Open Scope env_scope.

(** The inner loop, [while not done], entered with the counter [i]: the
    number of calls of [step] when it is left, [None] when [fuel]
    iterations do not leave it. *)
Fixpoint display_episode (fuel : nat) (i : Z) (obs : Obs)
  : M W (option Z) :=
  match fuel with
  | O => ret None
  | S fuel' =>
      let i := (i + 1)%Z in
      let action := predict obs in
      let* res := step action in
      if terminated res || truncated res || (i >? 500)%Z then ret (Some i)
      else display_episode fuel' i (ob res)
  end.

(** One pass of [while True]. *)
Definition display_round (fuel : nat) : M W (option Z) :=
  let* oi := reset None in
  display_episode fuel 0 (fst oi).

End Display.

(** * TalosDesigner: the reduced model and the ZMP *)

Module TalosDesigner.

(** ** The joints of the reduced model *)

(** [x in l] on a list of strings. *)
Definition py_in (x : string) (l : list string) : bool :=
  existsb (String.eqb x) l.

(** [enumerate(l)] *)
Definition enumerate {A} (l : list A) : list (nat * A) :=
  imap (fun i x => (i, x)) l.

(** pinocchio's [model.getJointId(name)]: the index of the first joint of
    that name, the number of joints when there is none. *)
Fixpoint getJointId (names : list string) (name : string) : nat :=
  match names with
  | [] => O
  | n :: rest => if String.eqb n name then O else S (getJointId rest name)
  end.

(** What [_buildReducedModel] computes from the names of the complete model
    before it calls [pin.buildReducedModel]: the lines it prints and the two
    lists of joint indices. *)
Record ReducedJoints : Type := {
  printed : list string;
  controlledJointsID : list nat;
  lockedJointsID : list nat
}.

Definition _buildReducedModel (names controlledJointsName : list string)
  : ReducedJoints :=
  {| printed :=
       map (fun _ => "ERROR"%string)
         (List.filter (fun joint => negb (py_in joint names))
            controlledJointsName);
     controlledJointsID :=
       map fst
         (List.filter (fun '(i, n) => py_in n controlledJointsName)
            (enumerate names));
     lockedJointsID :=
       map (getJointId names)
         (List.filter (fun joint => negb (py_in joint controlledJointsName))
            (tail names)) |}.

(** ** The buffer of the centre of mass and the ZMP *)

(** [d.append(x)] on a [deque(maxlen=n)], the oldest entry first. *)
Definition deque_append {A} (maxlen : nat) (x : A) (d : list A) : list A :=
  drop (length (d ++ [x]) - maxlen) (d ++ [x]).

(** The attributes of a [TalosDesigner] that the end of
    [update_reduced_model] reads and assigns. *)
Record ZmpState : Type := {
  dt : R;
  z_c : R;
  g : R;
  _buffer_CoM : list ndarray;
  _ZMP : option ndarray
}.

Definition set_buffer_CoM (b : list ndarray) (d : ZmpState) : ZmpState :=
  {| dt := dt d; z_c := z_c d; g := g d; _buffer_CoM := b; _ZMP := _ZMP d |}.

Definition set_ZMP (z : ndarray) (d : ZmpState) : ZmpState :=
  {| dt := dt d; z_c := z_c d; g := g d; _buffer_CoM := _buffer_CoM d;
     _ZMP := Some z |}.

(** The state that [_buildReducedModel] leaves: an empty buffer, and no
    attribute [_ZMP] yet. *)
Definition zmp_new (dt z_c g : R) : ZmpState :=
  {| dt := dt; z_c := z_c; g := g; _buffer_CoM := []; _ZMP := None |}.

(** [0.01 * (b2 + b0 - 2 * b1) / (dt**2)] *)
Definition acceleration (dt : R) (b0 b1 b2 : ndarray) : Res ndarray :=
  (let* s := broadcast Np.add b2 b0 in
   let* t := broadcast Np.sub s (map (Np.mul (Fin 2)) b1) in
   Ok (map (fun x => Np.div (Np.mul (Fin 0.01) x) (Fin (dt * dt))) t))%res.

(** The end of [update_reduced_model], from the append to the buffer on,
    for the centre of mass [com] that [_calculate_CoM] has assigned. *)
Definition update_ZMP (com : ndarray) (d : ZmpState) : ZmpState * Res unit :=
  let d1 := set_buffer_CoM (deque_append 3 (take 2 com) (_buffer_CoM d)) d in
  match _buffer_CoM d1 with
  | [b0; b1; b2] =>
      match acceleration (dt d1) b0 b1 b2 with
      | Ok acc =>
          (set_ZMP (map (Np.mul (Np.div (Fin (z_c d1)) (Fin (g d1)))) acc) d1,
           Ok tt)
      | Raise x => (d1, Raise x)
      end
  | b0 :: _ => (set_ZMP b0 d1, Ok tt)
  | [] => (d1, Raise IndexError)
  end.

(** [get_ZMP] *)
Definition get_ZMP (d : ZmpState) : Res ndarray := getattr (_ZMP d).

(** The designer after the updates for the centres of mass [coms], in
    order, whether they return or raise. *)
Definition updated (coms : list ndarray) (d : ZmpState) : ZmpState :=
  fold_left (fun d com => fst (update_ZMP com d)) coms d.

End TalosDesigner.

(** * AllCallbacks: the statistics of the training *)

Module Callbacks.

Import TalosDesigner.

(** ** Python values *)

(** A [collections.deque]: its bound, [None] for none, and its entries,
    the oldest first. *)
Record Deque (A : Type) : Type := {
  maxlen : option nat;
  items : list A
}.

Arguments maxlen {A} d.
Arguments items {A} d.

(** [deque(maxlen=n)] *)
Definition deque_new {A} (n : option Z) : Res (Deque A) :=
  match n with
  | None => Ok {| maxlen := None; items := [] |}
  | Some k =>
      if (k <? 0)%Z then Raise ValueError
      else Ok {| maxlen := Some (Z.to_nat k); items := [] |}
  end.

(** [d.extend([x])] *)
Definition deque_extend {A} (x : A) (d : Deque A) : Deque A :=
  {| maxlen := maxlen d;
     items := match maxlen d with
              | None => items d ++ [x]
              | Some n => deque_append n x (items d)
              end |}.

(** [a % b] on integers. *)
Definition py_mod (a b : Z) : Res Z :=
  if (b =? 0)%Z then Raise ZeroDivisionError else Ok (a mod b)%Z.

(** [min(a, b)] on floats: [b] when [b < a], else [a]. *)
Definition py_min (a b : npfloat) : npfloat := if Np.lt b a then b else a.

(** stable-baselines3's [safe_mean]: NaN for an empty list. *)
Definition safe_mean (l : list npfloat) : npfloat :=
  match l with
  | [] => NaN
  | _ => Np.div (Np.sum l) (Fin (INR (length l)))
  end.

(** ** The callback object *)

(** What the callback reads of [self.locals] and of the counter [n_calls]
    that the base class increments before [_on_step]: the info of the first
    environment, the reward of the episode that the monitor adds to it when
    an episode ends ([infos[0]["episode"]["r"]]), and [dones[0]]. *)
Record Locals : Type := {
  infos0 : Info;
  episode_r : option R;
  dones0 : bool;
  log_interval : option Z;
  n_calls : Z
}.

(** An entry of [_custom_info_buffer]. *)
Record EpInfo : Type := {
  torque : R;
  to_reach : npfloat;
  from_init : npfloat
}.

(** The attributes of an [AllCallbacks], and two ghost traces: the means
    with which [model.save] was called and the values given to
    [logger.record]. *)
Record AllCallbacks : Type := {
  check_freq : Z;
  _stats_window_size : Z;
  best_mean_reward : npfloat;
  _custom_info_buffer : option (Deque EpInfo);
  _episode_num : Z;
  _ep_info_buffer : option (Deque R);
  _ep_end_buffer : option (Deque npfloat);
  _ep_dst_min_buffer : option (Deque npfloat);
  _dst_min : option npfloat;
  saved : list npfloat;
  recorded : list (string * npfloat)
}.

(** [AllCallbacks(stats_window_size=w, check_freq=f)] *)
Definition AllCallbacks_new (w f : Z) : AllCallbacks :=
  {| check_freq := f; _stats_window_size := w; best_mean_reward := NInf;
     _custom_info_buffer := None; _episode_num := 0;
     _ep_info_buffer := None; _ep_end_buffer := None;
     _ep_dst_min_buffer := None; _dst_min := None;
     saved := []; recorded := [] |}.

Definition set_best_mean_reward (x : npfloat) (s : AllCallbacks)
  : AllCallbacks :=
  {| check_freq := check_freq s; _stats_window_size := _stats_window_size s;
     best_mean_reward := x;
     _custom_info_buffer := _custom_info_buffer s;
     _episode_num := _episode_num s;
     _ep_info_buffer := _ep_info_buffer s;
     _ep_end_buffer := _ep_end_buffer s;
     _ep_dst_min_buffer := _ep_dst_min_buffer s;
     _dst_min := _dst_min s;
     saved := saved s; recorded := recorded s |}.

Definition set_custom_info_buffer (x : Deque EpInfo) (s : AllCallbacks)
  : AllCallbacks :=
  {| check_freq := check_freq s; _stats_window_size := _stats_window_size s;
     best_mean_reward := best_mean_reward s;
     _custom_info_buffer := Some x;
     _episode_num := _episode_num s;
     _ep_info_buffer := _ep_info_buffer s;
     _ep_end_buffer := _ep_end_buffer s;
     _ep_dst_min_buffer := _ep_dst_min_buffer s;
     _dst_min := _dst_min s;
     saved := saved s; recorded := recorded s |}.

Definition set_episode_num (x : Z) (s : AllCallbacks) : AllCallbacks :=
  {| check_freq := check_freq s; _stats_window_size := _stats_window_size s;
     best_mean_reward := best_mean_reward s;
     _custom_info_buffer := _custom_info_buffer s;
     _episode_num := x;
     _ep_info_buffer := _ep_info_buffer s;
     _ep_end_buffer := _ep_end_buffer s;
     _ep_dst_min_buffer := _ep_dst_min_buffer s;
     _dst_min := _dst_min s;
     saved := saved s; recorded := recorded s |}.

Definition set_ep_info_buffer (x : Deque R) (s : AllCallbacks)
  : AllCallbacks :=
  {| check_freq := check_freq s; _stats_window_size := _stats_window_size s;
     best_mean_reward := best_mean_reward s;
     _custom_info_buffer := _custom_info_buffer s;
     _episode_num := _episode_num s;
     _ep_info_buffer := Some x;
     _ep_end_buffer := _ep_end_buffer s;
     _ep_dst_min_buffer := _ep_dst_min_buffer s;
     _dst_min := _dst_min s;
     saved := saved s; recorded := recorded s |}.

Definition set_ep_end_buffer (x : Deque npfloat) (s : AllCallbacks)
  : AllCallbacks :=
  {| check_freq := check_freq s; _stats_window_size := _stats_window_size s;
     best_mean_reward := best_mean_reward s;
     _custom_info_buffer := _custom_info_buffer s;
     _episode_num := _episode_num s;
     _ep_info_buffer := _ep_info_buffer s;
     _ep_end_buffer := Some x;
     _ep_dst_min_buffer := _ep_dst_min_buffer s;
     _dst_min := _dst_min s;
     saved := saved s; recorded := recorded s |}.

Definition set_ep_dst_min_buffer (x : Deque npfloat) (s : AllCallbacks)
  : AllCallbacks :=
  {| check_freq := check_freq s; _stats_window_size := _stats_window_size s;
     best_mean_reward := best_mean_reward s;
     _custom_info_buffer := _custom_info_buffer s;
     _episode_num := _episode_num s;
     _ep_info_buffer := _ep_info_buffer s;
     _ep_end_buffer := _ep_end_buffer s;
     _ep_dst_min_buffer := Some x;
     _dst_min := _dst_min s;
     saved := saved s; recorded := recorded s |}.

Definition set_dst_min (x : option npfloat) (s : AllCallbacks)
  : AllCallbacks :=
  {| check_freq := check_freq s; _stats_window_size := _stats_window_size s;
     best_mean_reward := best_mean_reward s;
     _custom_info_buffer := _custom_info_buffer s;
     _episode_num := _episode_num s;
     _ep_info_buffer := _ep_info_buffer s;
     _ep_end_buffer := _ep_end_buffer s;
     _ep_dst_min_buffer := _ep_dst_min_buffer s;
     _dst_min := x;
     saved := saved s; recorded := recorded s |}.

(** [self.model.save(...)], called for the mean [x]; [save_path] is set,
    [_on_training_start] having run. *)
Definition model_save (x : npfloat) (s : AllCallbacks) : AllCallbacks :=
  {| check_freq := check_freq s; _stats_window_size := _stats_window_size s;
     best_mean_reward := best_mean_reward s;
     _custom_info_buffer := _custom_info_buffer s;
     _episode_num := _episode_num s;
     _ep_info_buffer := _ep_info_buffer s;
     _ep_end_buffer := _ep_end_buffer s;
     _ep_dst_min_buffer := _ep_dst_min_buffer s;
     _dst_min := _dst_min s;
     saved := saved s ++ [x]; recorded := recorded s |}.

(** [self.logger.record(key, x)] *)
Definition logger_record (key : string) (x : npfloat) (s : AllCallbacks)
  : AllCallbacks :=
  {| check_freq := check_freq s; _stats_window_size := _stats_window_size s;
     best_mean_reward := best_mean_reward s;
     _custom_info_buffer := _custom_info_buffer s;
     _episode_num := _episode_num s;
     _ep_info_buffer := _ep_info_buffer s;
     _ep_end_buffer := _ep_end_buffer s;
     _ep_dst_min_buffer := _ep_dst_min_buffer s;
     _dst_min := _dst_min s;
     saved := saved s; recorded := recorded s ++ [(key, x)] |}.

(** ** The methods *)

(** [_update_info_buffer_save(infos)] for [infos["r"] = r]. *)
Definition _update_info_buffer_save (r : R) (s : AllCallbacks)
  : AllCallbacks * Res unit :=
  match
    match _ep_info_buffer s with
    | Some d => Ok d
    | None => deque_new (Some (_stats_window_size s))
    end
  with
  | Raise x => (s, Raise x)
  | Ok d => (set_ep_info_buffer (deque_extend r d) s, Ok tt)
  end.

(** The bare [except] swallows the [KeyError] of a missing ["episode"] and
    whatever [_update_info_buffer_save] raises. *)
Definition _on_step_save (l : Locals) (s : AllCallbacks)
  : AllCallbacks * Res unit :=
  let s1 :=
    match episode_r l with
    | Some r => fst (_update_info_buffer_save r s)
    | None => s
    end in
  match py_mod (n_calls l) (check_freq s1) with
  | Raise x => (s1, Raise x)
  | Ok m =>
      if (m =? 0)%Z then
        match _ep_info_buffer s1 with
        | Some d =>
            if (0 <? length (items d))%nat then
              let mean_reward := safe_mean (map Fin (items d)) in
              if Np.lt (best_mean_reward s1) mean_reward
                 && Np.lt (Fin 0) mean_reward
              then
                (model_save mean_reward
                   (set_best_mean_reward mean_reward s1), Ok tt)
              else (s1, Ok tt)
            else (s1, Ok tt)
        | None => (s1, Ok tt)
        end
      else (s1, Ok tt)
  end.

(** [_update_info_buffer_tensor(self.locals["infos"][0])] *)
Definition _update_info_buffer_tensor (l : Locals) (s : AllCallbacks)
  : AllCallbacks * Res unit :=
  match
    match _custom_info_buffer s with
    | Some d => Ok d
    | None => deque_new (Some (_stats_window_size s))
    end
  with
  | Raise x => (s, Raise x)
  | Ok c =>
      let s1 := set_custom_info_buffer c s in
      match
        match _ep_end_buffer s1 with
        | Some d => Ok d
        | None => deque_new (log_interval l)
        end
      with
      | Raise x => (s1, Raise x)
      | Ok e =>
          let s2 := set_ep_end_buffer e s1 in
          match
            match _ep_dst_min_buffer s2 with
            | Some d => Ok d
            | None => deque_new (log_interval l)
            end
          with
          | Raise x => (s2, Raise x)
          | Ok m =>
              let s3 := set_ep_dst_min_buffer m s2 in
              let temp_dict :=
                {| torque := tor (infos0 l); to_reach := dst (infos0 l);
                   from_init := init (infos0 l) |} in
              (set_custom_info_buffer (deque_extend temp_dict c) s3, Ok tt)
          end
      end
  end.

(** [len(x)] and [list(x)] of an attribute that may still be [None]. *)
Definition deque_items {A} (x : option (Deque A)) : Res (list A) :=
  match x with
  | Some d => Ok (items d)
  | None => Raise TypeError
  end.

(** The five means of [_dump_logs_tensor]. *)
Definition _dump_logs_tensor (s : AllCallbacks) : AllCallbacks * Res unit :=
  match deque_items (_custom_info_buffer s) with
  | Raise x => (s, Raise x)
  | Ok c =>
      if (0 <? length c)%nat then
        let s1 :=
          logger_record "z_custom/torque_mean"
            (safe_mean (map (fun i => Fin (torque i)) c)) s in
        let s2 :=
          logger_record "z_custom/to_reach_mean"
            (safe_mean (map to_reach c)) s1 in
        let s3 :=
          logger_record "z_custom/from_init_mean"
            (safe_mean (map from_init c)) s2 in
        match deque_items (_ep_end_buffer s3) with
        | Raise x => (s3, Raise x)
        | Ok e =>
            let s4 := logger_record "z_custom/final_dt" (safe_mean e) s3 in
            match deque_items (_ep_dst_min_buffer s4) with
            | Raise x => (s4, Raise x)
            | Ok m =>
                (logger_record "z_custom/min_dt" (safe_mean m) s4, Ok tt)
            end
        end
      else (s, Ok tt)
  end.

(** The end of [_on_step_tensor], when an episode is over: the logs, and
    the evaluation every [check_freq] episodes.  [eval_on_train] is what the
    construction of the [EvalOnTraining], when there is none yet, and its
    [eval_on_train] give at this point. *)
Definition log_and_evaluate (eval_on_train : Res npfloat) (l : Locals)
  (s : AllCallbacks) : AllCallbacks * Res unit :=
  match
    match log_interval l with
    | None => (s, Ok tt)
    | Some k =>
        match py_mod (_episode_num s) k with
        | Raise x => (s, Raise x)
        | Ok r => if (r =? 0)%Z then _dump_logs_tensor s else (s, Ok tt)
        end
    end
  with
  | (s1, Raise x) => (s1, Raise x)
  | (s1, Ok _) =>
      match py_mod (_episode_num s1) (check_freq s1) with
      | Raise x => (s1, Raise x)
      | Ok r =>
          if (r =? 0)%Z then
            match eval_on_train with
            | Raise x => (s1, Raise x)
            | Ok eval_reward =>
                (logger_record "z_custom/eval_reward" eval_reward s1, Ok tt)
            end
          else (s1, Ok tt)
      end
  end.

(** [_on_step_tensor] *)
Definition _on_step_tensor (eval_on_train : Res npfloat) (l : Locals)
  (s : AllCallbacks) : AllCallbacks * Res unit :=
  match _update_info_buffer_tensor l s with
  | (s1, Raise x) => (s1, Raise x)
  | (s1, Ok _) =>
      let d := dst (infos0 l) in
      let dmin :=
        match _dst_min s1 with
        | None => d
        | Some m => py_min m d
        end in
      let s2 := set_dst_min (Some dmin) s1 in
      if dones0 l then
        let s3 := set_episode_num (_episode_num s2 + 1) s2 in
        match _ep_end_buffer s3 with
        | None => (s3, Raise AttributeError)
        | Some e =>
            let s4 := set_ep_end_buffer (deque_extend d e) s3 in
            match _ep_dst_min_buffer s4 with
            | None => (s4, Raise AttributeError)
            | Some m =>
                let s5 := set_ep_dst_min_buffer (deque_extend dmin m) s4 in
                log_and_evaluate eval_on_train l (set_dst_min None s5)
            end
        end
      else (s2, Ok tt)
  end.

(** [_on_step] *)
Definition _on_step (eval_on_train : Res npfloat) (l : Locals)
  (s : AllCallbacks) : AllCallbacks * Res bool :=
  match _on_step_tensor eval_on_train l s with
  | (s1, Raise x) => (s1, Raise x)
  | (s1, Ok _) =>
      match _on_step_save l s1 with
      | (s2, Raise x) => (s2, Raise x)
      | (s2, Ok _) => (s2, Ok true)
      end
  end.

(** The states of a callback during a training: construction, then
    calls of [_on_step], whether they return or raise. *)
Inductive trained (w f : Z) : AllCallbacks -> Prop :=
| trained_new : trained w f (AllCallbacks_new w f)
| trained_step (eval_on_train : Res npfloat) (l : Locals) (s : AllCallbacks) :
    trained w f s -> trained w f (fst (_on_step eval_on_train l s)).

(** ** Vocabulary *)

(** The two buffers of final and of minimal distances go together. *)
Definition paired_buffers (s : AllCallbacks) : Prop :=
  match _ep_end_buffer s, _ep_dst_min_buffer s with
  | Some e, Some m =>
      maxlen e = maxlen m /\
      Forall2 (fun dmin dend => Np.lt dend dmin = false) (items m) (items e) /\
      (forall n, maxlen e = Some n -> (length (items e) <= n)%nat)
  | None, None => True
  | _, _ => False
  end.

(** What the logging leaves as it is. *)
Definition logged (s s' : AllCallbacks) : Prop :=
  check_freq s' = check_freq s /\
  _stats_window_size s' = _stats_window_size s /\
  best_mean_reward s' = best_mean_reward s /\
  _ep_info_buffer s' = _ep_info_buffer s /\
  _ep_end_buffer s' = _ep_end_buffer s /\
  _ep_dst_min_buffer s' = _ep_dst_min_buffer s /\
  _episode_num s' = _episode_num s /\
  saved s' = saved s.

(** The saves so far: positive means, each above the one before, the last
    one kept in [best_mean_reward]. *)
Definition saves_ascend (s : AllCallbacks) : Prop :=
  best_mean_reward s = List.last (saved s) NInf /\
  (forall i a, saved s !! i = Some a -> exists r, a = Fin r /\ (0 < r)%R) /\
  (forall i a b,
     saved s !! i = Some a -> saved s !! S i = Some b -> Np.lt a b = true).

(** The locals of a step that reports the distance 1. *)
Definition bench_locals (done : bool) (r : option R) (calls : Z) : Locals :=
  {| infos0 := {| param_rew := [Fin 0; Fin 0; Fin 1]; tor := 0;
                  init := Fin 0; dst := Fin 1; info_on_target := false;
                  is_success := None |};
     episode_r := r; dones0 := done; log_interval := Some 4%Z;
     n_calls := calls |}.

(** The callback after the calls of [_on_step_save] for the locals [ls], in
    order, whether they return or raise. *)
Definition saved_run (ls : list Locals) (s : AllCallbacks) : AllCallbacks :=
  fold_left (fun s l => fst (_on_step_save l s)) ls s.

(** The rewards of the episodes that ended during the steps [ls]. *)
Definition episode_rewards (ls : list Locals) : list R := omap episode_r ls.

End Callbacks.

(** * EvalOnTraining: the evaluation during the training *)

Module Evaluation.

(** [np.mean] of a list of floats: NaN for the empty list. *)
Definition np_mean (l : list npfloat) : npfloat :=
  Np.div (Np.sum l) (Fin (INR (length l))).

Section Loops.

Context {W : World}.

(** The attributes that [eval_on_train] reads. *)
Record EvalOnTraining : Type := {
  n_eval_episodes : nat;
  targets : list (list R)
}.

(** [_define_targets], for the target builder [builder]: the builder
    afterwards and the list [targets]. *)
Fixpoint _define_targets (n : nat) (builder : TargetGoal W)
  : TargetGoal W * list (list R) :=
  match n with
  | O => (builder, [])
  | S n' =>
      let b := create_target W builder in
      let (b', ts) := _define_targets n' b in
      (b', position_target b :: ts)
  end.

(** [EvalOnTraining(model, eval_env, n_eval_episodes)] *)
Definition EvalOnTraining_new (n : nat) : EvalOnTraining :=
  {| n_eval_episodes := n;
     targets := snd (_define_targets n (target_new W)) |}.

(** [model.predict(obs, deterministic=True)] *)
Variable predict : Obs -> list R.

Local Open Scope env_scope.

(** [while not done], entered with the reward summed so far: the reward of
    the episode when the loop is left, [None] when [fuel] iterations do not
    leave it. *)
Fixpoint eval_episode (fuel : nat) (obs : Obs) (episode_reward : npfloat)
  : M W (option npfloat) :=
  match fuel with
  | O => ret None
  | S fuel' =>
      let action := predict obs in
      let* res := step action in
      let episode_reward := Np.add episode_reward (reward res) in
      if terminated res || truncated res then ret (Some episode_reward)
      else eval_episode fuel' (ob res) episode_reward
  end.

(** [self.targets[0]] *)
Definition first_target (ts : list (list R)) : Res (list R) :=
  match ts with
  | t :: _ => Ok t
  | [] => Raise IndexError
  end.

(** The body of [for _ in range(self.n_eval_episodes)]. *)
Definition eval_one (fuel : nat) (ev : EvalOnTraining)
  : M W (option npfloat) :=
  let* t := lift (first_target (targets ev)) in
  let* oi := reset (Some {[ "target"%string := t ]}) in
  eval_episode fuel (fst oi) (Fin 0).

(** [for _ in range(n)], entered with the rewards of the episodes
    before. *)
Fixpoint eval_loop (fuel : nat) (ev : EvalOnTraining) (n : nat)
  (eval_rewards : list npfloat) : M W (option (list npfloat)) :=
  match n with
  | O => ret (Some eval_rewards)
  | S n' =>
      let* r := eval_one fuel ev in
      match r with
      | None => ret None
      | Some episode_reward =>
          eval_loop fuel ev n' (eval_rewards ++ [episode_reward])
      end
  end.

(** [eval_on_train], each of its inner loops being given [fuel]
    iterations. *)
Definition eval_on_train (fuel : nat) (ev : EvalOnTraining)
  : M W (option npfloat) :=
  let* rs := eval_loop fuel ev (n_eval_episodes ev) [] in
  ret (option_map np_mean rs).

End Loops.

(** ** Vocabulary *)

(** The calls that the simulator receives during [step] are no resets. *)
Definition no_reset (c : SimCall) : Prop :=
  match c with CallReset _ => False | _ => True end.

(** The resets among the calls [suffix] are resets to the target [t]. *)
Definition resets_to (t : list R) (suffix : list SimCall) : Prop :=
  Forall (fun c => match c with CallReset t' => t' = t | _ => True end) suffix.

End Evaluation.

(** * Vocabulary of the properties *)

Section Specification.

Context {W : World}.

(** ** The reward of one transition *)

(** The weight rows of the two policies. *)
Definition sparse_coeff (e : Env W) : ndarray :=
  [Fin (- weight_command (params e)); Fin 0; Fin 0;
   Fin (weight_target_reached (params e))].

Definition dense_coeff (e : Env W) : ndarray :=
  [Fin (- weight_command (params e)); Fin (-1);
   Fin (weight_truncation (params e)); Fin (- weight_target (params e))].

(** The last feature of the sparse policy. *)
Definition reached_feature (e : Env W) (d : npfloat) : npfloat :=
  Np.sub (Np.of_bool (Np.lt d (Fin (threshold_success (params e)))))
         (Np.mul (Fin 0.002) (Fin 1)).

(** The value of the configured policy on one feature row. *)
Definition reward_row (e : Env W) (pol : RewardPolicy)
  (torque_norm : R) (rest_pose_cost : npfloat) (alive : bool)
  (goal_distance : npfloat) : npfloat :=
  match pol with
  | Dense =>
      Np.sum (zip_with Np.mul
                [Fin torque_norm; rest_pose_cost; Np.of_bool alive;
                 goal_distance] (dense_coeff e))
  | Sparse =>
      Np.sum (zip_with Np.mul
                [Fin torque_norm; rest_pose_cost; Np.of_bool alive;
                 reached_feature e goal_distance] (sparse_coeff e))
  end.

(** ** The stages of [step], [reset] and [__init__] *)

(** [n] calls [simulator.step(torques)]. *)
Fixpoint sim_steps (n : nat) (torques : list R) (e : Env W) : Env W :=
  match n with
  | O => e
  | S n' =>
      sim_steps n' torques
        (set_simulator (sim_step W torques (simulator e))
           (CallStep torques) e)
  end.

(** The environment when [step] has driven the simulator, updated the
    reduced model and read the centre of mass. *)
Definition after_physics (torques : list R) (e : Env W) : Env W :=
  let e1 := set_timer (timer e + 1) e in
  let e2 :=
    sim_steps (Z.to_nat (numSimulationSteps (params e))) torques e1 in
  let e3 := set_simulator (simulator e2) CallGetRobotState e2 in
  let e4 := set_simulator (simulator e3) CallGetRobotPos e3 in
  let e5 :=
    set_pinWrapper
      (update_reduced_model W (getRobotState W (simulator e2))
         (getRobotPos W (simulator e2)) (pinWrapper e4)) e4 in
  set_rCoM (get_CoM W (pinWrapper e5)) e5.

(** What [step] computes from the measured state. *)
Definition evaluate (e : Env W) (torques : list R)
  : Res (Obs * bool * (npfloat * Info)) :=
  (let x_measured := getRobotState W (simulator e) in
   let* o := _getObservation e x_measured in
   let* tr := _checkTruncation e x_measured in
   let* ri := _reward e torques o tr in
   Ok (o, tr, ri))%res.

(** The end of [step]: the counter, the two flags and the result. *)
Definition finish (e : Env W) (o : Obs) (tr : bool) (r : npfloat) (i : Info)
  : Env W * StepResult :=
  let e' :=
    set_on_target (on_target e + (if info_on_target i then 1 else 0)) e in
  (e', {| ob := o; reward := r; terminated := _checkTermination e';
          truncated := tr;
          infos := if _checkTermination e' || tr
                   then set_is_success (_checkSuccess e') i else i |}).

(** The attributes that neither [step] nor [reset] assigns. *)
Definition same_setup (e e' : Env W) : Prop :=
  params e' = params e /\
  compute_reward e' = compute_reward e /\
  rmodel e' = rmodel e /\
  mat_dt_init e' = mat_dt_init e /\
  maxStep e' = maxStep e /\
  obs_limits e' = obs_limits e /\
  goal_limits e' = goal_limits e /\
  torqueScale e' = torqueScale e.

(** The target that [reset] resolves from its [options]. *)
Definition resolved (options : option (gmap string (list R)))
  (t : TargetGoal W) : TargetGoal W :=
  match options with
  | None => create_target W t
  | Some opts =>
      match opts !! "target" with
      | Some p => set_position_target p t
      | None => t
      end
  end.

(** The environment when [reset] has reset the simulator and updated the
    reduced model. *)
Definition after_reset (options : option (gmap string (list R)))
  (e : Env W) : Env W :=
  let e1 := set_on_target 0 (set_timer 0 e) in
  let e2 := set_target (resolved options (target e1)) e1 in
  let e3 :=
    set_simulator (sim_reset W (position_target (target e2)) (simulator e2))
      (CallReset (position_target (target e2))) e2 in
  let e4 := set_simulator (simulator e3) CallGetRobotState e3 in
  let e5 := set_simulator (simulator e4) CallGetRobotPos e4 in
  set_pinWrapper
    (update_reduced_model W (getRobotState W (simulator e3))
       (getRobotPos W (simulator e3)) (pinWrapper e5)) e5.

(** What [reset] returns, or raises, from there. *)
Definition reset_output (e : Env W) : Res (Obs * ResetInfo) :=
  (let* delta :=
     broadcast Rminus (get_end_effector_pos W (pinWrapper e))
       (position_target (target e)) in
   let* o := _getObservation e (getRobotState W (simulator e)) in
   Ok (o, {| reset_dst := Rnorm delta; reset_tor := 0; reset_init := 0 |}))%res.

(** [int(maxTime / (timeStepSimulation * numSimulationSteps))], the value
    that [_init_env_variables] computes for [maxStep], or what the
    expression raises. *)
Definition step_budget (p : Config) : Res Z :=
  (let* period :=
     float_mul_int (timeStepSimulation p) (numSimulationSteps p) in
   let* steps := py_truediv (maxTime p) period in
   py_int steps)%res.

(** The diagonal of [mat_dt_init] that [__init__] fills. *)
Definition initial_weights (p : Config) : Res (list R) :=
  let n := nq (designer_rmodel W (designer_new W)) in
  match weight_joints_to_init p with
  | None => Ok (replicate n 0%R)
  | Some items =>
      set_joint_weights items (dict_pos W (simulator_new W))
        (replicate n 0%R)
  end.

(** The object when [_init_env_variables] is entered and has zeroed the
    counters and drawn the first target. *)
Definition blank (p : Config) (weights : list R) : Env W :=
  {| params := p;
     compute_reward := bind_compute_reward p;
     pinWrapper := designer_new W;
     rmodel := designer_rmodel W (designer_new W);
     simulator := simulator_new W;
     sim_log := [CallGetRobotState];
     target := create_target W (target_new W);
     order_positions := dict_pos W (simulator_new W);
     mat_dt_init := np_diag weights;
     timer := 0; on_target := 0; maxStep := 0;
     obs_limits := None; goal_limits := None;
     torqueScale := []; rCoM := None |}.

(** [(lowerObsLim, upperObsLim)] and [(lowerGoalLim, upperGoalLim)]. *)
Definition obs_bounds (rm : RModel) : list R * list R :=
  (lowerPositionLimit rm ++ map Ropp (velocityLimit rm),
   upperPositionLimit rm ++ velocityLimit rm).

Definition goal_bounds : list R * list R :=
  (map (Rmult (-3)) (replicate 3 1%R), map (Rmult 3) (replicate 3 1%R)).

(** The limits that [make_limits] derives from bounds of equal length. *)
Definition limits_of (bounds : list R * list R) : Limits :=
  {| lowerLim := fst bounds; upperLim := snd bounds;
     avg := map (fun x => x / 2)%R (zip_with Rplus (snd bounds) (fst bounds));
     diff := zip_with Rminus (snd bounds) (fst bounds) |}.

(** The three [_init_*Normalizer] calls, when normalisation is on. *)
Definition with_normalizers (e : Env W) : Res (Env W) :=
  if normalizeObs (params e) then
    (let* l := make_limits (fst (obs_bounds (rmodel e)))
                 (snd (obs_bounds (rmodel e))) in
     let* g := make_limits (fst goal_bounds) (snd goal_bounds) in
     Ok (set_goal_limits g (set_goal_limits g (set_obs_limits l e))))%res
  else Ok e.

(** The assignment of [torqueScale]. *)
Definition with_torqueScale (e : Env W) : Env W :=
  set_torqueScale
    (map (Rmult (torqueScaleCoeff (params e))) (effortLimit (rmodel e))) e.

(** ** Shapes *)

(** The collaborators return arrays of the expected lengths. *)
Record shaped_world (n m : nat) : Prop := {
  sw_state : forall s, length (getRobotState W s) = (n + m)%nat;
  sw_qC0 : forall s, length (qC0 W s) = n;
  sw_ee : forall d, length (get_end_effector_pos W d) = 3%nat;
  sw_com : forall d, length (get_CoM W d) = 3%nat
}.

(** The attributes set at construction have the expected lengths. *)
Record shaped_setup (e : Env W) : Prop := {
  ss_world : shaped_world (nq (rmodel e)) (nv (rmodel e));
  ss_nv : (0 < nv (rmodel e))%nat;
  ss_lowerLimitPos : length (lowerLimitPos (params e)) = 3%nat;
  ss_upperLimitPos : length (upperLimitPos (params e)) = 3%nat;
  ss_lowerPosition : length (lowerPositionLimit (rmodel e)) = nq (rmodel e);
  ss_upperPosition : length (upperPositionLimit (rmodel e)) = nq (rmodel e);
  ss_velocity : length (velocityLimit (rmodel e)) = nv (rmodel e);
  ss_torqueScale : length (torqueScale e) = nq (rmodel e);
  ss_mat : Forall (fun row => length row = nq (rmodel e)) (mat_dt_init e);
  ss_policy : compute_reward e <> None;
  ss_normalizers :
    normalizeObs (params e) = true ->
    exists l g,
      obs_limits e = Some l /\ goal_limits e = Some g /\
      length (avg l) = (nq (rmodel e) + nv (rmodel e))%nat /\
      length (diff l) = (nq (rmodel e) + nv (rmodel e))%nat /\
      length (avg g) = 3%nat /\ length (diff g) = 3%nat
}.

(** The three tests of [_checkTruncation] on arrays of equal lengths. *)
Definition balance_lost (e : Env W) (com : list R) : bool :=
  any (zip_with Rltb com (lowerLimitPos (params e)))
  || any (zip_with Rgtb com (upperLimitPos (params e))).

Definition position_exceeded (e : Env W) (x : list R) : bool :=
  any (zip_with Rgtb (slice_to (nq (rmodel e)) x)
         (map (Rmult (limitPosScale (params e)))
              (upperPositionLimit (rmodel e))))
  || any (zip_with Rltb (slice_to (nq (rmodel e)) x)
            (map (Rmult (limitPosScale (params e)))
                 (lowerPositionLimit (rmodel e)))).

Definition speed_exceeded (e : Env W) (x : list R) : bool :=
  any (zip_with Rgtb (map Rabs (slice_last (nv (rmodel e)) x))
         (map (Rmult (limitVelScale (params e)))
              (velocityLimit (rmodel e)))).

(** ** States and runs *)

(** The states that a caller can bring the object to: construction, then
    any calls of [reset] and [step], whether they return or raise. *)
Inductive reachable (p : Config) : Env W -> Prop :=
| reach_init (e : Env W) :
    __init__ p = Ok e -> reachable p e
| reach_reset (options : option (gmap string (list R))) (e : Env W) :
    reachable p e -> reachable p (fst (reset options e))
| reach_step (action : list R) (e : Env W) :
    reachable p e -> reachable p (fst (step action e)).

(** The states after a reset and some calls of [step], none of
    [reset]. *)
Inductive stepped (e0 : Env W) : nat -> Env W -> Prop :=
| stepped_O : stepped e0 0 e0
| stepped_S (n : nat) (action : list R) (e : Env W) :
    stepped e0 n e -> stepped e0 (S n) (fst (step action e)).

(** [n] calls of [step] with the same action, whatever they return. *)
Fixpoint run (n : nat) (action : list R) (e : Env W) : Env W :=
  match n with
  | O => e
  | S n' => fst (step action (run n' action e))
  end.

(** ** The three causes of a truncation *)

(** The centre of mass is outside the balance box on some axis. *)
Definition com_outside_box (p : Config) (com : list R) : Prop :=
  exists i c, com !! i = Some c /\
    ((exists lo, lowerLimitPos p !! i = Some lo /\ (c < lo)%R) \/
     (exists up, upperLimitPos p !! i = Some up /\ (c > up)%R)).

(** Some controlled joint is beyond the scaled position limits. *)
Definition joint_position_exceeded (p : Config) (rm : RModel) (x : list R)
  : Prop :=
  exists i q, slice_to (nq rm) x !! i = Some q /\
    ((exists up, upperPositionLimit rm !! i = Some up /\
                 (q > limitPosScale p * up)%R) \/
     (exists lo, lowerPositionLimit rm !! i = Some lo /\
                 (q < limitPosScale p * lo)%R)).

(** Some joint velocity is beyond the scaled velocity limit. *)
Definition joint_velocity_exceeded (p : Config) (rm : RModel) (x : list R)
  : Prop :=
  exists i w lim, slice_last (nv rm) x !! i = Some w /\
    velocityLimit rm !! i = Some lim /\
    (Rabs w > limitVelScale p * lim)%R.

End Specification.

(** ** A one-joint test bench

    A world in which the robot does not move: one controlled joint at rest,
    the tool at the origin, the centre of mass one metre above it.  The
    target sampler puts its n-th target n metres away along x. *)

Module Bench.

Definition model (velocity_limit : R) : RModel :=
  {| nq := 1; nv := 1;
     effortLimit := [1%R];
     lowerPositionLimit := [(-1)%R];
     upperPositionLimit := [1%R];
     velocityLimit := [velocity_limit] |}.

Definition world (velocity_limit : R) : World :=
  {| Simulator := unit;
     simulator_new := tt;
     sim_reset := fun _ s => s;
     sim_step := fun _ s => s;
     getRobotState := fun _ => [0%R; 0%R];
     getRobotPos := fun _ => [0%R; 0%R; 0%R; 0%R; 0%R; 0%R; 1%R];
     qC0 := fun _ => [0%R];
     dict_pos := fun _ => ∅;
     Designer := unit;
     designer_new := tt;
     designer_rmodel := fun _ => model velocity_limit;
     update_reduced_model := fun _ _ d => d;
     get_end_effector_pos := fun _ => [0%R; 0%R; 0%R];
     get_CoM := fun _ => [0%R; 0%R; 1%R];
     Sampler := nat;
     target_new := ([0%R; 0%R; 0%R], O);
     create_target := fun t => ([INR (snd t); 0%R; 0%R], S (snd t));
     uninitialised := fun _ _ => NaN |}.

(** The defaults of [_init_parameters], a control period of 10 ms and the
    weights [w_control_reg = 1], [w_penalization_truncation = 0],
    [w_target_pos = 2]. *)
Definition config (policy : string) (normalize : bool) (max_time : pynum)
  : Config :=
  {| timeStepSimulation := 0.001;
     numSimulationSteps := 10;
     normalizeObs := normalize;
     maxTime := max_time;
     weight_target := 2;
     weight_command := 1;
     weight_truncation := 0;
     limitPosScale := 10;
     limitVelScale := 30;
     torqueScaleCoeff := 1;
     lowerLimitPos := [(-0.5)%R; (-0.5)%R; 0.9%R];
     upperLimitPos := [0.5%R; 0.5%R; 1.5%R];
     threshold_success := 0.05;
     weight_target_reached := 5;
     weight_joints_to_init := None;
     reward_type := policy;
     weight_alive := 1 |}.

Arguments config policy normalize max_time%_float.

(** [options = {"target": p}] *)
Definition override (p : list R) : option (gmap string (list R)) :=
  Some {[ "target"%string := p ]}.

End Bench.

(** An environment of the bench whose target is [t] metres along x. *)
Definition bench_state (v : R) (policy : string) (pol : RewardPolicy)
  (max_time : pynum) (t : R) (e : Env (Bench.world v)) : Prop :=
  params e = Bench.config policy false max_time /\
  rmodel e = Bench.model v /\
  mat_dt_init e = np_diag [0%R] /\
  torqueScale e = [(1 * 1)%R] /\
  compute_reward e = Some pol /\
  position_target (target e) = [t; 0%R; 0%R].

(** ** Batches of transitions *)

Section BatchVocabulary.

Context {W : World}.

(** The value of a policy on a batch: one feature row per transition. *)
Definition batch_rows (feature : npfloat -> npfloat) (coeff : ndarray)
  (achieved desired : list ndarray) (info_matrix : list ndarray)
  : list ndarray :=
  map (fun row => [Np.sum (zip_with Np.mul row coeff)])
    (zip_with (fun row d => row ++ [feature d]) info_matrix
       (zip_with (fun a d => Np.norm (zip_with Np.sub a d)) achieved desired)).

(** [info_matrix] after the loop over [info]. *)
Definition filled_info_matrix (n : nat) (info : list Info) : list ndarray :=
  map param_rew info ++ drop (length info) (np_empty W n 3).

Definition policy_feature (e : Env W) (pol : RewardPolicy)
  : npfloat -> npfloat :=
  match pol with Dense => fun d => d | Sparse => reached_feature e end.

Definition policy_coeff (e : Env W) (pol : RewardPolicy) : ndarray :=
  match pol with Dense => dense_coeff e | Sparse => sparse_coeff e end.

End BatchVocabulary.

Arguments filled_info_matrix W n info : clear implicits.

(** ** The rest posture *)

(** The squared deviations [u], weighted joint by joint. *)
Definition weighted_squares (weights u : list R) : R :=
  fold_right Rplus 0%R (zip_with (fun w x => w * x * x)%R weights u).

(** [(q - (upper + lower) / 2) / (upper - lower)], joint by joint. *)
Definition normalised_positions (q lower upper : list R) : list R :=
  zip_with Rdiv
    (zip_with Rminus q (map (fun s => s / 2)%R (zip_with Rplus upper lower)))
    (zip_with Rminus upper lower).

(** ** A bench with named joints *)

(** The bench with one named joint. *)
Definition named_world (positions : gmap string nat) : World :=
  {| Simulator := unit;
     simulator_new := tt;
     sim_reset := fun _ s => s;
     sim_step := fun _ s => s;
     getRobotState := fun _ => [0%R; 0%R];
     getRobotPos := fun _ => [0%R; 0%R; 0%R; 0%R; 0%R; 0%R; 1%R];
     qC0 := fun _ => [0%R];
     dict_pos := fun _ => positions;
     Designer := unit;
     designer_new := tt;
     designer_rmodel := fun _ => Bench.model 1;
     update_reduced_model := fun _ _ d => d;
     get_end_effector_pos := fun _ => [0%R; 0%R; 0%R];
     get_CoM := fun _ => [0%R; 0%R; 1%R];
     Sampler := nat;
     target_new := ([0%R; 0%R; 0%R], O);
     create_target := fun t => ([INR (snd t); 0%R; 0%R], S (snd t));
     uninitialised := fun _ _ => NaN |}.

(** [params_env] with another [w_joints_to_init]. *)
Definition with_joint_weights (items : list (string * R)) (p : Config)
  : Config :=
  {| timeStepSimulation := timeStepSimulation p;
     numSimulationSteps := numSimulationSteps p;
     normalizeObs := normalizeObs p;
     maxTime := maxTime p;
     weight_target := weight_target p;
     weight_command := weight_command p;
     weight_truncation := weight_truncation p;
     limitPosScale := limitPosScale p;
     limitVelScale := limitVelScale p;
     torqueScaleCoeff := torqueScaleCoeff p;
     lowerLimitPos := lowerLimitPos p;
     upperLimitPos := upperLimitPos p;
     threshold_success := threshold_success p;
     weight_target_reached := weight_target_reached p;
     weight_joints_to_init := Some items;
     reward_type := reward_type p;
     weight_alive := weight_alive p |}.

(** * Properties *)

(** ** Results and broadcasting *)

Lemma res_bind_Ok {A B} (r : Res A) (k : A -> Res B) (b : B) :
  res_bind r k = Ok b -> exists a, r = Ok a /\ k a = Ok b.
Proof. destruct r as [a|x]; simpl; [eauto | discriminate]. Qed.

Lemma broadcast_same {A B C} (f : A -> B -> C) (x : list A) (y : list B) :
  length x = length y -> broadcast f x y = Ok (zip_with f x y).
Proof. intros E. unfold broadcast. now rewrite E, Nat.eqb_refl. Qed.

Lemma assign_row_same {A} (n : nat) (v : list A) :
  length v = n -> assign_row n v = Ok v.
Proof. intros <-. unfold assign_row. now rewrite Nat.eqb_refl. Qed.

(** ** Real comparisons *)

Lemma Rltb_true (x y : R) : Rltb x y = true <-> (x < y)%R.
Proof. unfold Rltb. destruct (Rlt_dec x y); split; intros; try discriminate; tauto. Qed.

Lemma Rltb_false (x y : R) : Rltb x y = false <-> (y <= x)%R.
Proof.
  unfold Rltb. destruct (Rlt_dec x y); split; intros; try discriminate;
    try reflexivity; lra.
Qed.

Lemma Rgtb_true (x y : R) : Rgtb x y = true <-> (x > y)%R.
Proof. unfold Rgtb. rewrite Rltb_true. lra. Qed.

(** ** Finite arrays *)

Lemma sum_sqr_nonneg (v : list R) :
  (0 <= fold_right Rplus 0%R (map (fun x => x * x)%R v))%R.
Proof. induction v as [|x v IH]; simpl; [lra | nra]. Qed.

Lemma Np_sum_Fin (v : list R) :
  Np.sum (map Fin v) = Fin (fold_right Rplus 0%R v).
Proof. induction v as [|x v IH]; simpl; [|rewrite IH]; reflexivity. Qed.

Lemma Np_norm_Fin (v : list R) : Np.norm (map Fin v) = Fin (Rnorm v).
Proof.
  unfold Np.norm. rewrite map_map.
  change (map (fun x => Np.mul (Fin x) (Fin x)) v)
    with (map (fun x => Fin (x * x)) v).
  rewrite <- (map_map (fun x => (x * x)%R) Fin), Np_sum_Fin. simpl.
  assert (E : Rltb (fold_right Rplus 0%R (map (fun x => x * x)%R v)) 0 = false)
    by (apply Rltb_false, sum_sqr_nonneg).
  now rewrite E.
Qed.

Lemma zip_with_sub_Fin (a d : list R) :
  zip_with Np.sub (map Fin a) (map Fin d) = map Fin (zip_with Rminus a d).
Proof.
  revert d. induction a as [|x a IH]; intros [|y d]; simpl; try reflexivity.
  now rewrite IH.
Qed.

(** ** The reward engine on one transition *)

Section RewardRow.

Context {W : World}.

Lemma goal_distances_row (ach des : ndarray) :
  length ach = length des ->
  goal_distances [ach] [des] = Ok [Np.norm (zip_with Np.sub ach des)].
Proof.
  intros E. unfold goal_distances, broadcast2. simpl.
  now rewrite (broadcast_same _ _ _ E).
Qed.

Lemma fill_info_matrix_row (i : Info) (p0 p1 p2 : npfloat) :
  param_rew i = [p0; p1; p2] ->
  fill_info_matrix 0 [i] (np_empty W 1 3) = Ok [[p0; p1; p2]].
Proof. intros E. simpl. rewrite E. reflexivity. Qed.

Lemma compute_reward_sparse_row (e : Env W) (ach des : ndarray) (i : Info)
  (p0 p1 p2 : npfloat) :
  length ach = length des ->
  param_rew i = [p0; p1; p2] ->
  compute_reward_sparse e [ach] [des] [i] =
  Ok [[Np.sum (zip_with Np.mul
                 [p0; p1; p2;
                  reached_feature e (Np.norm (zip_with Np.sub ach des))]
                 (sparse_coeff e))]].
Proof.
  intros E P. unfold compute_reward_sparse.
  rewrite (goal_distances_row _ _ E). cbn [res_bind length].
  rewrite (fill_info_matrix_row _ _ _ _ P). reflexivity.
Qed.

Lemma compute_reward_dense_row (e : Env W) (ach des : ndarray) (i : Info)
  (p0 p1 p2 : npfloat) :
  length ach = length des ->
  param_rew i = [p0; p1; p2] ->
  compute_reward_dense e [ach] [des] [i] =
  Ok [[Np.sum (zip_with Np.mul
                 [p0; p1; p2; Np.norm (zip_with Np.sub ach des)]
                 (dense_coeff e))]].
Proof.
  intros E P. unfold compute_reward_dense.
  rewrite (goal_distances_row _ _ E). cbn [res_bind length].
  rewrite (fill_info_matrix_row _ _ _ _ P). reflexivity.
Qed.

(** What [_reward] returns, when it returns. *)
Lemma _reward_Ok (e : Env W) (torques : list R) (o : Obs) (tr : bool)
  (r : npfloat) (i : Info) :
  length (achieved_goal o) = 3%nat ->
  length (desired_goal o) = 3%nat ->
  _reward e torques o tr = Ok (r, i) ->
  tor i = Rnorm torques /\
  dst i = Np.norm (zip_with Np.sub (achieved_goal o) (desired_goal o)) /\
  info_on_target i = Np.lt (dst i) (Fin (threshold_success (params e))) /\
  is_success i = None /\
  exists pol, compute_reward e = Some pol /\
              r = reward_row e pol (tor i) (init i) (negb tr) (dst i).
Proof.
  intros La Ld H. unfold _reward in H.
  apply res_bind_Ok in H as (v & _ & H).
  apply res_bind_Ok in H as (c & _ & H).
  apply res_bind_Ok in H as (delta & Hdelta & H).
  apply res_bind_Ok in H as (ach & Hach & H).
  apply res_bind_Ok in H as (des & Hdes & H).
  apply res_bind_Ok in H as (m & Hm & H).
  apply res_bind_Ok in H as (x & Hx & H).
  rewrite broadcast_same in Hdelta by congruence. injection Hdelta as <-.
  rewrite (assign_row_same _ _ La) in Hach. injection Hach as <-.
  rewrite (assign_row_same _ _ Ld) in Hdes. injection Hdes as <-.
  injection H as <- <-. simpl.
  repeat split.
  unfold call_compute_reward in Hm.
  destruct (compute_reward e) as [pol|]; [|discriminate].
  exists pol. split; [reflexivity|]. simpl in Hm.
  destruct pol.
  - erewrite compute_reward_dense_row in Hm by (congruence || reflexivity).
    injection Hm as <-. simpl in Hx. now injection Hx as <-.
  - erewrite compute_reward_sparse_row in Hm by (congruence || reflexivity).
    injection Hm as <-. simpl in Hx. now injection Hx as <-.
Qed.

(** The two policies on finite features. *)
Lemma reward_row_dense_finite (e : Env W) (t c d : R) (alive : bool) :
  reward_row e Dense t (Fin c) alive (Fin d) =
  Fin (- weight_command (params e) * t - 1 * c
       + weight_truncation (params e) * R_of_bool alive
       - weight_target (params e) * d).
Proof. simpl. f_equal. lra. Qed.

Lemma reward_row_sparse_finite (e : Env W) (t c d : R) (alive : bool) :
  reward_row e Sparse t (Fin c) alive (Fin d) =
  Fin (- weight_command (params e) * t
       + weight_target_reached (params e)
         * (R_of_bool (Rltb d (threshold_success (params e))) - 0.002)).
Proof. simpl. f_equal. lra. Qed.

End RewardRow.

(** ** One call of [step] and of [reset], unfolded *)

Section Unfolded.

Context {W : World}.

Lemma for_range_simulator_step (n : nat) (torques : list R) (e : Env W) :
  for_range n (simulator_step torques) e = (sim_steps n torques e, Ok tt).
Proof.
  revert e. induction n as [|n IH]; intros e; [reflexivity|].
  simpl. unfold bind, simulator_step at 1, assign. apply IH.
Qed.

Lemma step_unfold (action : list R) (e : Env W) :
  step action e =
  match _scaleAction e action with
  | Raise x => (set_timer (timer e + 1) e, Raise x)
  | Ok torques =>
      let e1 := after_physics torques e in
      match evaluate e1 torques with
      | Raise x => (e1, Raise x)
      | Ok (o, tr, (r, i)) =>
          let (e', res) := finish e1 o tr r i in (e', Ok res)
      end
  end.
Proof.
  unfold step, bind at 1, assign at 1, bind at 1, self at 1, bind at 1, lift at 1.
  change (_scaleAction (set_timer (timer e + 1) e) action)
    with (_scaleAction e action).
  destruct (_scaleAction e action) as [torques|x]; [|reflexivity].
  unfold bind at 1. rewrite for_range_simulator_step.
  change (params (set_timer (timer e + 1) e)) with (params e).
  unfold bind at 1, simulator_getRobotState at 1.
  unfold bind at 1, simulator_getRobotPos at 1.
  unfold bind at 1, pinWrapper_update_reduced_model at 1, assign at 1.
  unfold bind at 1, assign at 1.
  unfold bind at 1, self at 1.
  unfold evaluate.
  match goal with
  | |- context [_getObservation ?e1 ?x] =>
      change e1 with (after_physics torques e);
      change x with (getRobotState W (simulator (after_physics torques e)))
  end.
  set (e1 := after_physics torques e).
  set (x := getRobotState W (simulator e1)).
  cbv zeta.
  unfold bind at 1, lift at 1.
  destruct (_getObservation e1 x) as [o|err]; [|reflexivity].
  cbn [res_bind]. unfold bind at 1, lift at 1.
  destruct (_checkTruncation e1 x) as [tr|err]; [|reflexivity].
  cbn [res_bind]. unfold bind at 1, lift at 1.
  destruct (_reward e1 torques o tr) as [[r i]|err]; [|reflexivity].
  reflexivity.
Qed.

End Unfolded.

Section Frames.

Context {W : World}.

Lemma same_setup_refl (e : Env W) : same_setup e e.
Proof. repeat split. Qed.

Lemma same_setup_trans (e1 e2 e3 : Env W) :
  same_setup e1 e2 -> same_setup e2 e3 -> same_setup e1 e3.
Proof.
  unfold same_setup. intros H1 H2.
  repeat match goal with H : _ /\ _ |- _ => destruct H end.
  repeat split; congruence.
Qed.

Lemma sim_steps_frame (n : nat) (torques : list R) (e : Env W) :
  same_setup e (sim_steps n torques e) /\
  timer (sim_steps n torques e) = timer e /\
  on_target (sim_steps n torques e) = on_target e /\
  target (sim_steps n torques e) = target e /\
  pinWrapper (sim_steps n torques e) = pinWrapper e /\
  sim_log (sim_steps n torques e)
  = sim_log e ++ replicate n (CallStep torques).
Proof.
  revert e. induction n as [|n IH]; intros e.
  - simpl. rewrite app_nil_r. repeat split.
  - simpl sim_steps.
    destruct (IH (set_simulator (sim_step W torques (simulator e))
                    (CallStep torques) e))
      as (S & T & O & G & P & L).
    repeat split; try apply S; try assumption.
    rewrite L. simpl. now rewrite <- app_assoc.
Qed.

Lemma after_physics_frame (torques : list R) (e : Env W) :
  let e1 := after_physics torques e in
  same_setup e e1 /\
  timer e1 = (timer e + 1)%Z /\
  on_target e1 = on_target e /\
  target e1 = target e /\
  rCoM e1 = Some (get_CoM W (pinWrapper e1)) /\
  sim_log e1
  = sim_log e
    ++ replicate (Z.to_nat (numSimulationSteps (params e)))
         (CallStep torques)
    ++ [CallGetRobotState; CallGetRobotPos].
Proof.
  unfold after_physics.
  destruct (sim_steps_frame (Z.to_nat (numSimulationSteps (params e)))
              torques (set_timer (timer e + 1) e))
    as (S & T & O & G & P & L).
  cbv zeta. simpl. repeat split; try apply S; try assumption.
  rewrite L. simpl. now rewrite <- !app_assoc.
Qed.

(** [step], when it returns. *)
Lemma step_Ok (action : list R) (e e' : Env W) (res : StepResult) :
  step action e = (e', Ok res) ->
  exists torques o tr r i,
    _scaleAction e action = Ok torques /\
    evaluate (after_physics torques e) torques = Ok (o, tr, (r, i)) /\
    finish (after_physics torques e) o tr r i = (e', res).
Proof.
  rewrite step_unfold.
  destruct (_scaleAction e action) as [torques|x]; [|discriminate].
  cbv zeta.
  destruct (evaluate (after_physics torques e) torques)
    as [[[o tr] [r i]]|x] eqn:E; [|discriminate].
  destruct (finish (after_physics torques e) o tr r i) as [e1 res1] eqn:F.
  intros [= <- <-]. exists torques, o, tr, r, i. auto.
Qed.

(** [step], whether it returns or raises. *)
Lemma step_frame (action : list R) (e : Env W) :
  let e' := fst (step action e) in
  same_setup e e' /\
  timer e' = (timer e + 1)%Z /\
  target e' = target e /\
  (on_target e <= on_target e' <= on_target e + 1)%Z.
Proof.
  rewrite step_unfold.
  destruct (_scaleAction e action) as [torques|x].
  2:{ simpl. split; [repeat split|]. repeat split; lia. }
  cbv zeta.
  destruct (after_physics_frame torques e) as (S & T & O & G & _).
  destruct (evaluate (after_physics torques e) torques)
    as [[[o tr] [r i]]|x].
  2:{ cbn [fst]. split; [exact S|]. repeat split; try assumption; lia. }
  unfold finish. cbn [fst]. split; [exact S|].
  change (on_target (set_on_target ?x ?y)) with x. cbn [timer target set_on_target].
  repeat split; try assumption; destruct (info_on_target i); lia.
Qed.

End Frames.

Section UnfoldedReset.

Context {W : World}.

Lemma reset_unfold (options : option (gmap string (list R))) (e : Env W) :
  reset options e = (after_reset options e, reset_output (after_reset options e)).
Proof.
  unfold reset, bind at 1, assign at 1, bind at 1, assign at 1, bind at 1.
  assert (R0 : forall e0 : Env W,
             resolve_target options e0
             = (set_target (resolved options (target e0)) e0, Ok tt)).
  { intros e0. unfold resolve_target, resolved.
    destruct options as [opts|]; [|reflexivity].
    destruct (opts !! "target"); [reflexivity|].
    unfold ret. now destruct e0. }
  rewrite R0.
  unfold bind at 1, self at 1, bind at 1, simulator_reset at 1, assign at 1.
  unfold bind at 1, simulator_getRobotState at 1.
  unfold bind at 1, simulator_getRobotPos at 1.
  unfold bind at 1, pinWrapper_update_reduced_model at 1, assign at 1.
  unfold bind at 1, self at 1.
  unfold reset_output.
  match goal with
  | |- context [_getObservation ?e1 ?x] =>
      change e1 with (after_reset options e);
      change x with (getRobotState W (simulator (after_reset options e)))
  end.
  set (e1 := after_reset options e).
  unfold bind at 1, lift at 1.
  destruct (broadcast Rminus (get_end_effector_pos W (pinWrapper e1))
              (position_target (target e1))) as [delta|x]; [|reflexivity].
  cbn [res_bind]. unfold bind at 1, lift at 1.
  destruct (_getObservation e1 (getRobotState W (simulator e1)));
    reflexivity.
Qed.

Lemma after_reset_frame (options : option (gmap string (list R)))
  (e : Env W) :
  let e1 := after_reset options e in
  same_setup e e1 /\
  timer e1 = 0%Z /\
  on_target e1 = 0%Z /\
  target e1 = resolved options (target e) /\
  rCoM e1 = rCoM e /\
  sim_log e1
  = sim_log e
    ++ [CallReset (position_target (resolved options (target e)));
        CallGetRobotState; CallGetRobotPos].
Proof.
  unfold after_reset. cbv zeta. simpl.
  split; [repeat split|]. repeat split.
  now rewrite <- !app_assoc.
Qed.

End UnfoldedReset.

(** ** Construction, unfolded *)

Section UnfoldedInit.

Context {W : World}.

Lemma init_unfold (p : Config) :
  @__init__ W p =
  (let* weights := @initial_weights W p in
   let* n := step_budget p in
   let* e := with_normalizers (set_maxStep n (blank p weights)) in
   Ok (with_torqueScale e))%res.
Proof.
  unfold __init__, initial_weights.
  destruct (match weight_joints_to_init p with
            | Some items => _ | None => _ end) as [weights|x];
    [|reflexivity].
  cbn [res_bind].
  unfold bind at 1, simulator_getRobotState at 1.
  unfold _init_env_variables.
  unfold bind at 1, assign at 1, bind at 1, assign at 1, bind at 1,
    target_create_target at 1, assign at 1, bind at 1, self at 1,
    bind at 1, lift at 1.
  cbn [params set_target set_on_target set_timer set_simulator].
  unfold step_budget.
  destruct (float_mul_int (timeStepSimulation p) (numSimulationSteps p))
    as [period|x]; [|reflexivity].
  cbn [res_bind]. unfold bind at 1, lift at 1.
  destruct (py_truediv (maxTime p) period) as [steps|x]; [|reflexivity].
  cbn [res_bind]. unfold bind at 1, lift at 1.
  destruct (py_int steps) as [n|x]; [|reflexivity].
  cbn [res_bind]. unfold bind at 1, assign at 1, bind at 1.
  unfold with_normalizers.
  cbn [params set_maxStep blank normalizeObs].
  destruct (normalizeObs p).
  - unfold bind at 1, _init_obsNormalizer at 1, obs_bounds.
    cbn [rmodel set_maxStep blank fst snd].
    destruct (make_limits _ _) as [l|x]; [|reflexivity].
    cbn [res_bind].
    unfold bind at 1, _init_goalNormalizer at 1, goal_bounds.
    cbn [fst snd].
    destruct (make_limits _ _) as [g|x] eqn:G; [|reflexivity].
    unfold _init_targetNormalizer, _init_goalNormalizer. rewrite G.
    reflexivity.
  - reflexivity.
Qed.

Lemma make_limits_same (lower upper : list R) :
  length lower = length upper ->
  make_limits lower upper
  = Ok {| lowerLim := lower; upperLim := upper;
          avg := map (fun x => x / 2)%R (zip_with Rplus upper lower);
          diff := zip_with Rminus upper lower |}.
Proof.
  intros E. unfold make_limits. now rewrite !broadcast_same by auto.
Qed.

End UnfoldedInit.

(** ** Shapes: when the methods do not raise *)

Lemma res_sequence_map_Ok {A B} (f : A -> Res B) (g : A -> B) (l : list A) :
  Forall (fun x => f x = Ok (g x)) l ->
  res_sequence (map f l) = Ok (map g l).
Proof.
  induction 1 as [|x l Hx _ IH]; [reflexivity|].
  simpl. change (list_fmap A B g l) with (map g l).
  now rewrite Hx, IH.
Qed.

Lemma any_or_Ok (x y : list bool) : any_or (Ok x) (Ok y) = Ok (any x || any y).
Proof. unfold any_or. simpl. now destruct (any x). Qed.

Lemma any_zip_with {A B} (f : A -> B -> bool) (a : list A) (b : list B) :
  any (zip_with f a b) = true <->
  exists i x y, a !! i = Some x /\ b !! i = Some y /\ f x y = true.
Proof.
  unfold any. rewrite existsb_exists. split.
  - intros (v & Hin & Hv). apply list_elem_of_In, list_elem_of_lookup in Hin.
    destruct Hin as (i & Hi). apply lookup_zip_with_Some in Hi.
    destruct Hi as (x & y & -> & Hx & Hy). eauto 6.
  - intros (i & x & y & Hx & Hy & Hf). exists true. split; [|reflexivity].
    apply list_elem_of_In, list_elem_of_lookup. exists i.
    apply lookup_zip_with_Some. exists x, y. auto.
Qed.

Section Shapes.

Context {W : World}.

Lemma shaped_setup_same (e e' : Env W) :
  same_setup e e' -> shaped_setup e -> shaped_setup e'.
Proof.
  intros (P & C & M & D & _ & O & G & T) [].
  split; rewrite ?P, ?C, ?M, ?D, ?O, ?G, ?T; assumption.
Qed.

Lemma normalize_same (l : Limits) (x : list R) :
  length x = length (avg l) -> length (avg l) = length (diff l) ->
  normalize l x
  = Ok (zip_with (fun a b => Np.div (Fin a) (Fin b))
          (zip_with Rminus x (avg l)) (diff l)).
Proof.
  intros E1 E2. unfold normalize.
  rewrite (broadcast_same _ _ _ E1). cbn [res_bind].
  apply broadcast_same. rewrite length_zip_with_l_eq; congruence.
Qed.

Lemma _getObservation_ok (e : Env W) (x : list R) :
  shaped_setup e ->
  length x = (nq (rmodel e) + nv (rmodel e))%nat ->
  length (position_target (target e)) = 3%nat ->
  exists o, _getObservation e x = Ok o /\
            length (observation o) = (nq (rmodel e) + nv (rmodel e))%nat /\
            length (achieved_goal o) = 3%nat /\
            length (desired_goal o) = 3%nat.
Proof.
  intros S Lx Lt. unfold _getObservation.
  pose proof (sw_ee _ _ (ss_world _ S) (pinWrapper e)) as Le.
  destruct (normalizeObs (params e)) eqn:N.
  - destruct (ss_normalizers _ S N) as (l & g & Ol & Og & A1 & D1 & A2 & D2).
    unfold _obsNormalizer, _goalNormalizer, _targetNormalizer.
    rewrite Ol, Og. cbn [getattr res_bind].
    rewrite !normalize_same by congruence. cbn [res_bind].
    eexists. split; [reflexivity|]. cbn [observation achieved_goal desired_goal].
    rewrite !length_zip_with_l_eq;
      rewrite ?length_zip_with_l_eq; try congruence. auto.
  - eexists. split; [reflexivity|]. simpl. rewrite !length_map. auto.
Qed.

Lemma length_slice_last {A} (n : nat) (x : list A) :
  (0 < n <= length x)%nat -> length (slice_last n x) = n.
Proof.
  intros H. unfold slice_last. destruct n as [|n]; [lia|].
  rewrite length_skipn. lia.
Qed.

Lemma _checkTruncation_same (e : Env W) (x com : list R) :
  shaped_setup e ->
  length x = (nq (rmodel e) + nv (rmodel e))%nat ->
  rCoM e = Some com -> length com = 3%nat ->
  _checkTruncation e x
  = Ok ((position_exceeded e x || speed_exceeded e x) || balance_lost e com).
Proof.
  intros S Lx C Lc. unfold _checkTruncation. rewrite C. cbn [getattr res_bind].
  pose proof (ss_nv _ S) as Hnv.
  assert (L1 : length (slice_to (nq (rmodel e)) x) = nq (rmodel e))
    by (unfold slice_to; rewrite length_firstn; lia).
  assert (L2 : length (slice_last (nv (rmodel e)) x) = nv (rmodel e))
    by (apply length_slice_last; lia).
  rewrite (broadcast_same Rltb com) by (rewrite (ss_lowerLimitPos _ S); exact Lc).
  rewrite (broadcast_same Rgtb com) by (rewrite (ss_upperLimitPos _ S); exact Lc).
  rewrite any_or_Ok. cbn [res_bind].
  rewrite (broadcast_same Rgtb (slice_to _ _))
    by (rewrite length_map, (ss_upperPosition _ S); exact L1).
  rewrite (broadcast_same Rltb (slice_to _ _))
    by (rewrite length_map, (ss_lowerPosition _ S); exact L1).
  rewrite any_or_Ok. cbn [res_bind].
  rewrite (broadcast_same Rgtb (map Rabs _))
    by (rewrite !length_map, (ss_velocity _ S); exact L2).
  reflexivity.
Qed.

End Shapes.

Section Progress.

Context {W : World}.

Lemma quadratic_form_ok (v : ndarray) (mat : list (list R)) :
  Forall (fun row => length row = length v) mat ->
  exists c, quadratic_form v mat = Ok c.
Proof.
  intros H. unfold quadratic_form.
  rewrite (res_sequence_map_Ok _
             (fun row => zip_with Np.mul v (map Fin row))).
  2:{ eapply Forall_impl; [exact H|]. intros row Hr. cbv beta.
      apply broadcast_same. now rewrite length_map. }
  cbn [res_bind]. unfold broadcast_rows. rewrite map_map.
  rewrite (res_sequence_map_Ok _
             (fun row => zip_with Np.mul
                           (zip_with Np.mul v (map Fin row)) v)).
  2:{ eapply Forall_impl; [exact H|]. intros row Hr. cbv beta.
      apply broadcast_same.
      rewrite length_zip_with_l_eq; [reflexivity|].
      now rewrite length_map. }
  cbn [res_bind]. eauto.
Qed.

Lemma _reward_ok (e : Env W) (torques : list R) (o : Obs) (tr : bool) :
  shaped_setup e ->
  length (observation o) = (nq (rmodel e) + nv (rmodel e))%nat ->
  length (achieved_goal o) = 3%nat ->
  length (desired_goal o) = 3%nat ->
  exists r i, _reward e torques o tr = Ok (r, i).
Proof.
  intros S Lo La Ld. unfold _reward.
  rewrite broadcast_same.
  2:{ rewrite length_map, (sw_qC0 _ _ (ss_world _ S)).
      unfold slice_to. rewrite length_firstn. lia. }
  cbn [res_bind].
  destruct (quadratic_form_ok
              (zip_with Np.sub (map Fin (qC0 W (simulator e)))
                 (slice_to (nq (rmodel e)) (observation o)))
              (mat_dt_init e)) as (c & Hc).
  { eapply Forall_impl; [exact (ss_mat _ S)|]. intros row Hr. cbv beta.
    rewrite length_zip_with_l_eq;
      rewrite length_map, (sw_qC0 _ _ (ss_world _ S)); [exact Hr|].
    unfold slice_to. rewrite length_firstn. lia. }
  rewrite Hc. cbn [res_bind].
  rewrite broadcast_same by congruence. cbn [res_bind].
  rewrite (assign_row_same _ _ La), (assign_row_same _ _ Ld).
  cbn [res_bind]. unfold call_compute_reward.
  destruct (compute_reward e) as [[|]|] eqn:P.
  - cbn [getattr res_bind].
    erewrite compute_reward_dense_row by (congruence || reflexivity).
    cbn [res_bind float_of_array]. eauto.
  - cbn [getattr res_bind].
    erewrite compute_reward_sparse_row by (congruence || reflexivity).
    cbn [res_bind float_of_array]. eauto.
  - now destruct (ss_policy _ S).
Qed.

(** A well-shaped environment takes a step for every action of the
    dimension of the action space. *)
Lemma step_ok (action : list R) (e : Env W) :
  shaped_setup e ->
  length (position_target (target e)) = 3%nat ->
  length action = nq (rmodel e) ->
  exists e' res, step action e = (e', Ok res).
Proof.
  intros S Lt La. rewrite step_unfold. unfold _scaleAction.
  rewrite broadcast_same by (rewrite (ss_torqueScale _ S); auto).
  cbv zeta.
  set (torques := zip_with Rmult (torqueScale e) action).
  destruct (after_physics_frame torques e) as (F & _ & _ & G & C & _).
  pose proof (shaped_setup_same _ _ F S) as S1.
  set (e1 := after_physics torques e) in *.
  unfold evaluate.
  destruct (_getObservation_ok e1 (getRobotState W (simulator e1)) S1)
    as (o & Ho & Lo & Lach & Ldes).
  { apply (sw_state _ _ (ss_world _ S1)). }
  { now rewrite G. }
  rewrite Ho. cbn [res_bind].
  rewrite (_checkTruncation_same e1 _ _ S1
             (sw_state _ _ (ss_world _ S1) _) C
             (sw_com _ _ (ss_world _ S1) _)).
  cbn [res_bind].
  match goal with |- context [_reward e1 torques o ?t] =>
    destruct (_reward_ok e1 torques o t S1 Lo Lach Ldes) as (r & i & Hr)
  end.
  rewrite Hr. cbn [res_bind].
  destruct (finish e1 o _ r i) as [e' res]. eauto.
Qed.

End Progress.

(** ** The states of an environment object *)

Section Reachable.

Context {W : World}.

Lemma with_normalizers_frame (e e' : Env W) :
  with_normalizers e = Ok e' ->
  params e' = params e /\ compute_reward e' = compute_reward e /\
  rmodel e' = rmodel e /\ mat_dt_init e' = mat_dt_init e /\
  maxStep e' = maxStep e /\ torqueScale e' = torqueScale e /\
  timer e' = timer e /\ on_target e' = on_target e /\
  target e' = target e /\ sim_log e' = sim_log e /\ rCoM e' = rCoM e /\
  simulator e' = simulator e /\ pinWrapper e' = pinWrapper e.
Proof.
  unfold with_normalizers. destruct (normalizeObs (params e)).
  - intros H.
    apply res_bind_Ok in H as (l & _ & H).
    apply res_bind_Ok in H as (g & _ & H).
    injection H as <-. repeat split.
  - intros [= <-]. repeat split.
Qed.

(** What construction leaves in the object. *)
Lemma init_Ok (p : Config) (e : Env W) :
  __init__ p = Ok e ->
  params e = p /\
  compute_reward e = bind_compute_reward p /\
  rmodel e = designer_rmodel W (designer_new W) /\
  timer e = 0%Z /\ on_target e = 0%Z /\
  target e = create_target W (target_new W) /\
  sim_log e = [CallGetRobotState] /\
  rCoM e = None /\
  torqueScale e
  = map (Rmult (torqueScaleCoeff p)) (effortLimit (rmodel e)) /\
  (exists weights, @initial_weights W p = Ok weights /\
                   mat_dt_init e = np_diag weights) /\
  step_budget p = Ok (maxStep e).
Proof.
  rewrite init_unfold. intros H.
  apply res_bind_Ok in H as (weights & Hw & H).
  apply res_bind_Ok in H as (steps & Hs & H).
  apply res_bind_Ok in H as (e0 & H0 & H).
  injection H as <-.
  apply with_normalizers_frame in H0.
  destruct H0 as (P & C & M & D & X & T & Ti & O & G & L & Co & _).
  unfold with_torqueScale.
  cbn [params compute_reward rmodel timer on_target target sim_log rCoM
       torqueScale mat_dt_init maxStep set_torqueScale].
  rewrite P, C, M, D, X, Ti, O, G, L, Co.
  cbn [params compute_reward rmodel timer on_target target sim_log rCoM
       torqueScale mat_dt_init maxStep set_maxStep blank].
  repeat split; eauto.
Qed.

Lemma reset_frame (options : option (gmap string (list R))) (e : Env W) :
  same_setup e (fst (reset options e)).
Proof. rewrite reset_unfold. apply after_reset_frame. Qed.

Lemma reachable_setup (p : Config) (e : Env W) :
  reachable p e -> exists e0, __init__ p = Ok e0 /\ same_setup e0 e.
Proof.
  induction 1 as [e H|options e _ (e0 & H0 & S)|action e _ (e0 & H0 & S)].
  - exists e. split; [assumption | apply same_setup_refl].
  - exists e0. split; [assumption|].
    eapply same_setup_trans; [exact S | apply reset_frame].
  - exists e0. split; [assumption|].
    eapply same_setup_trans; [exact S | apply step_frame].
Qed.

Lemma stepped_frame (e0 e : Env W) (n : nat) :
  stepped e0 n e ->
  same_setup e0 e /\ target e = target e0 /\
  timer e = (timer e0 + Z.of_nat n)%Z /\
  (on_target e0 <= on_target e <= on_target e0 + Z.of_nat n)%Z.
Proof.
  induction 1 as [|n action e _ (S & G & T & O)].
  - split; [apply same_setup_refl|]. repeat split; lia.
  - destruct (step_frame action e) as (S' & T' & G' & O').
    split; [eapply same_setup_trans; eassumption|].
    repeat split; try congruence; lia.
Qed.

End Reachable.

(** ** Construction succeeds, and what it sets up *)

Section Construction.

Context {W : World}.

Lemma with_normalizers_limits (e e' : Env W) :
  with_normalizers e = Ok e' ->
  normalizeObs (params e) = true ->
  length (lowerPositionLimit (rmodel e))
  = length (upperPositionLimit (rmodel e)) ->
  obs_limits e' = Some (limits_of (obs_bounds (rmodel e))) /\
  goal_limits e' = Some (limits_of goal_bounds).
Proof.
  unfold with_normalizers. intros H N L. rewrite N in H.
  rewrite make_limits_same in H.
  2:{ unfold obs_bounds. cbn [fst snd]. rewrite !length_app, length_map.
      now rewrite L. }
  rewrite make_limits_same in H by reflexivity.
  cbn [res_bind] in H. injection H as <-. split; reflexivity.
Qed.

Lemma with_normalizers_ok (e : Env W) :
  (normalizeObs (params e) = true ->
   length (lowerPositionLimit (rmodel e))
   = length (upperPositionLimit (rmodel e))) ->
  exists e', with_normalizers e = Ok e'.
Proof.
  intros L. unfold with_normalizers.
  destruct (normalizeObs (params e)); [|eauto].
  rewrite make_limits_same.
  2:{ unfold obs_bounds. cbn [fst snd]. rewrite !length_app, length_map.
      now rewrite L. }
  rewrite make_limits_same by reflexivity. cbn [res_bind]. eauto.
Qed.

Lemma set_joint_weights_length (items : list (string * R))
  (positions : gmap string nat) (mat mat' : list R) :
  set_joint_weights items positions mat = Ok mat' ->
  length mat' = length mat.
Proof.
  revert mat. induction items as [|[key value] items IH]; intros mat; simpl.
  - now intros [= <-].
  - destruct (positions !! key) as [i|]; [|discriminate].
    destruct (i <? length mat)%nat; [|discriminate].
    intros H. apply IH in H. now rewrite length_insert in H.
Qed.

Lemma initial_weights_length (p : Config) (weights : list R) :
  @initial_weights W p = Ok weights ->
  length weights = nq (designer_rmodel W (designer_new W)).
Proof.
  unfold initial_weights. destruct (weight_joints_to_init p) as [items|].
  - intros H. apply set_joint_weights_length in H.
    now rewrite length_replicate in H.
  - intros [= <-]. apply length_replicate.
Qed.

Lemma np_diag_rows (d : list R) :
  Forall (fun row => length row = length d) (np_diag d).
Proof.
  apply Forall_forall. intros row Hin. unfold np_diag in Hin.
  apply list_elem_of_lookup in Hin. destruct Hin as (i & Hi).
  apply list_lookup_imap_Some in Hi as (y & _ & ->).
  apply length_imap.
Qed.

(** Construction needs valid joint weights, a step budget that the
    division yields (a control period that is not zero, a finite quotient)
    and, for the normaliser, position limits of equal lengths; nothing
    else. *)
Lemma init_ok (p : Config) (weights : list R) (n : Z) :
  @initial_weights W p = Ok weights ->
  step_budget p = Ok n ->
  (normalizeObs p = true ->
   length (lowerPositionLimit (designer_rmodel W (designer_new W)))
   = length (upperPositionLimit (designer_rmodel W (designer_new W)))) ->
  exists e : Env W, __init__ p = Ok e.
Proof.
  intros Hw Hp Hl. rewrite init_unfold, Hw, Hp. cbn [res_bind].
  destruct (with_normalizers_ok (set_maxStep n (blank p weights)) Hl)
    as (e' & He').
  rewrite He'. cbn [res_bind]. eauto.
Qed.

(** The limits of the observation normaliser after construction. *)
Lemma init_obs_limits (p : Config) (e : Env W) :
  __init__ p = Ok e ->
  normalizeObs p = true ->
  length (lowerPositionLimit (rmodel e))
  = length (upperPositionLimit (rmodel e)) ->
  obs_limits e = Some (limits_of (obs_bounds (rmodel e))) /\
  goal_limits e = Some (limits_of goal_bounds).
Proof.
  intros H N L. pose proof (init_Ok _ _ H) as (_ & _ & M & _).
  rewrite init_unfold in H.
  apply res_bind_Ok in H as (weights & Hw & H).
  apply res_bind_Ok in H as (steps & Hs & H).
  apply res_bind_Ok in H as (e0 & H0 & H).
  injection H as <-. cbn [with_torqueScale set_torqueScale rmodel] in M.
  pose proof (with_normalizers_frame _ _ H0) as (_ & _ & M0 & _).
  rewrite M0 in M.
  apply with_normalizers_limits in H0; [|exact N|].
  - cbn [obs_limits goal_limits with_torqueScale set_torqueScale].
    cbn [rmodel with_torqueScale set_torqueScale] in L |- *.
    rewrite M0. exact H0.
  - cbn [rmodel with_torqueScale set_torqueScale] in L.
    now rewrite M0 in L.
Qed.

(** Construction in a well-shaped world gives a well-shaped object. *)
Lemma init_shaped (p : Config) (e : Env W) :
  __init__ p = Ok e ->
  let rm := designer_rmodel W (designer_new W) in
  @shaped_world W (nq rm) (nv rm) ->
  (0 < nv rm)%nat ->
  length (lowerLimitPos p) = 3%nat ->
  length (upperLimitPos p) = 3%nat ->
  length (lowerPositionLimit rm) = nq rm ->
  length (upperPositionLimit rm) = nq rm ->
  length (velocityLimit rm) = nv rm ->
  length (effortLimit rm) = nq rm ->
  bind_compute_reward p <> None ->
  shaped_setup e.
Proof.
  intros H rm SW Hnv L1 L2 L3 L4 L5 L6 Hp.
  pose proof (init_Ok _ _ H)
    as (P & C & M & _ & _ & _ & _ & _ & T & (w & Hw & D) & _).
  split; rewrite ?P, ?C, ?M, ?T, ?D; fold rm; try assumption.
  - rewrite length_map, M. exact L6.
  - pose proof (np_diag_rows w) as F.
    rewrite (initial_weights_length _ _ Hw) in F. exact F.
  - intros N.
    destruct (init_obs_limits p e H N) as (Ho & Hg).
    { rewrite M. fold rm. congruence. }
    eexists _, _. split; [exact Ho|]. split; [exact Hg|].
    rewrite M. fold rm. unfold limits_of, obs_bounds.
    cbn [avg diff fst snd].
    rewrite !length_map, !length_zip_with_l_eq;
      rewrite ?length_app, ?length_map; try lia; try reflexivity.
    repeat split; try lia; reflexivity.
Qed.

End Construction.

(** ** The test bench, evaluated *)

Section BenchFacts.

Variable v : R.
Hypothesis v_pos : (0 < v)%R.

Lemma bench_shaped : @shaped_world (Bench.world v) 1 1.
Proof. split; reflexivity. Qed.

(** Decide the comparisons between numerals in the goal. *)
Ltac compare_reals :=
  repeat match goal with
  | |- context [Rltb ?a ?b] =>
      first [ rewrite (proj2 (Rltb_true a b)) by lra
            | rewrite (proj2 (Rltb_false a b)) by lra ]
  end.

Lemma bench_evaluate (e : Env (Bench.world v)) (torques : list R)
  (policy : string) (max_time : pynum) (t : R) (pol : RewardPolicy) :
  params e = Bench.config policy false max_time ->
  rmodel e = Bench.model v ->
  mat_dt_init e = np_diag [0%R] ->
  position_target (target e) = [t; 0%R; 0%R] ->
  rCoM e = Some [0%R; 0%R; 1%R] ->
  compute_reward e = Some pol ->
  exists c,
    evaluate e torques
    = Ok ({| observation := [Fin 0; Fin 0];
             achieved_goal := [Fin 0; Fin 0; Fin 0];
             desired_goal := [Fin t; Fin 0; Fin 0] |},
          false,
          (reward_row e pol (Rnorm torques) (Fin c) true (Fin (Rabs t)),
           {| param_rew := [Fin (Rnorm torques); Fin c; Fin 1];
              tor := Rnorm torques;
              init := Fin c;
              dst := Fin (Rabs t);
              info_on_target := Rltb (Rabs t) 0.05;
              is_success := None |})) /\ c = 0%R.
Proof.
  intros P M D T C Pol. unfold evaluate, _getObservation.
  rewrite P. cbn [normalizeObs Bench.config]. rewrite T.
  cbn [res_bind map get_end_effector_pos getRobotState Bench.world].
  unfold _checkTruncation. rewrite C, P, M.
  cbn. unfold Rgtb. rewrite Rabs_R0. compare_reals. cbn.
  unfold _reward, call_compute_reward. rewrite M, D, P, Pol. cbn.
  exists ((0 + - 0) * 0 * (0 + - 0) + 0)%R. split; [|lra].
  assert (S : ((0 + - t) * (0 + - t)
               + ((0 + - 0) * (0 + - 0) + ((0 + - 0) * (0 + - 0) + 0)))%R
              = Rsqr t) by (unfold Rsqr; ring).
  rewrite S, (proj2 (Rltb_false (Rsqr t) 0)) by apply Rle_0_sqr.
  rewrite sqrt_Rsqr_abs.
  destruct pol; cbn; rewrite ?P; reflexivity.
Qed.

Lemma bench_state_shaped policy pol max_time t (e : Env (Bench.world v)) :
  bench_state v policy pol max_time t e -> shaped_setup e.
Proof.
  intros (P & M & D & T & C & G).
  split; rewrite ?P, ?M, ?D, ?T, ?C; try reflexivity.
  - exact bench_shaped.
  - cbn. lia.
  - exact (np_diag_rows [0%R]).
  - discriminate.
  - cbn. discriminate.
Qed.

Lemma bench_init (policy : string) (pol : RewardPolicy) (max_time : pynum)
  (n : Z) :
  bind_compute_reward (Bench.config policy false max_time) = Some pol ->
  step_budget (Bench.config policy false max_time) = Ok n ->
  exists e : Env (Bench.world v),
    __init__ (Bench.config policy false max_time) = Ok e /\
    bench_state v policy pol max_time 0 e /\
    timer e = 0%Z /\ on_target e = 0%Z /\
    maxStep e = n.
Proof.
  intros B Hn.
  destruct (init_ok (W := Bench.world v) (Bench.config policy false max_time)
              [0%R] n)
    as (e & He).
  { reflexivity. }
  { exact Hn. }
  { discriminate. }
  exists e. split; [exact He|].
  pose proof (init_Ok _ _ He)
    as (P & C & M & Ti & O & G & _ & _ & T & (w & Hw & D) & X).
  injection Hw as <-.
  assert (X' : maxStep e = n) by congruence.
  repeat split; try assumption.
  - rewrite T, M. reflexivity.
  - congruence.
  - rewrite G. reflexivity.
Qed.

Lemma bench_reset policy pol max_time t t' (e : Env (Bench.world v)) :
  bench_state v policy pol max_time t e ->
  let e' := fst (reset (Bench.override [t'; 0%R; 0%R]) e) in
  bench_state v policy pol max_time t' e' /\
  timer e' = 0%Z /\ on_target e' = 0%Z /\ maxStep e' = maxStep e.
Proof.
  intros (P & M & D & T & C & G). rewrite reset_unfold. cbn [fst].
  destruct (after_reset_frame (Bench.override [t'; 0%R; 0%R]) e)
    as ((P' & C' & M' & D' & X' & _ & _ & T') & Ti & O & G' & _).
  repeat split; try congruence.
Qed.

(** A call of [step] on the bench. *)
Lemma bench_step policy pol max_time t (a : R) (e : Env (Bench.world v)) :
  bench_state v policy pol max_time t e ->
  exists e' res c,
    step [a] e = (e', Ok res) /\
    bench_state v policy pol max_time t e' /\
    timer e' = (timer e + 1)%Z /\
    on_target e'
    = (on_target e + (if Rltb (Rabs t) 0.05 then 1 else 0))%Z /\
    maxStep e' = maxStep e /\
    terminated res = _checkTermination e' /\
    truncated res = false /\
    length (achieved_goal (ob res)) = 3%nat /\
    length (desired_goal (ob res)) = 3%nat /\
    tor (infos res) = Rnorm [(1 * 1 * a)%R] /\
    init (infos res) = Fin c /\ c = 0%R /\
    dst (infos res) = Fin (Rabs t) /\
    info_on_target (infos res) = Rltb (Rabs t) 0.05 /\
    reward res
    = reward_row e pol (Rnorm [(1 * 1 * a)%R]) (Fin c) true (Fin (Rabs t)).
Proof.
  intros (P & M & D & T & C & G). rewrite step_unfold.
  unfold _scaleAction. rewrite T. cbn [broadcast length Nat.eqb zip_with].
  cbv zeta.
  set (torques := [(1 * 1 * a)%R]).
  destruct (after_physics_frame torques e)
    as ((P' & C' & M' & D' & X' & _ & _ & T') & Ti & O & G' & Co & _).
  destruct (bench_evaluate (after_physics torques e) torques
              policy max_time t pol) as (c & E & Hc);
    try congruence; try exact Co.
  rewrite E. unfold finish.
  eexists _, _, c. split; [reflexivity|].
  cbn [ob reward terminated truncated infos
       achieved_goal desired_goal length info_on_target].
  split.
  { unfold bench_state.
    cbn [params rmodel mat_dt_init torqueScale compute_reward target
         set_on_target].
    rewrite P', M', D', T', C', G'. auto 10. }
  cbn [timer on_target maxStep set_on_target].
  rewrite Ti, O, X'.
  repeat split; try assumption; try reflexivity.
  - destruct (_ || false); reflexivity.
  - destruct (_ || false); reflexivity.
  - destruct (_ || false); reflexivity.
  - destruct (_ || false); reflexivity.
  - unfold reward_row, dense_coeff, sparse_coeff, reached_feature.
    rewrite P'. reflexivity.
Qed.

End BenchFacts.

Arguments bench_init v%_R policy%_string pol max_time%_float n%_Z.

(** The step budgets of the bench: [int(1.0 / (0.001 * 10))] is 100 and
    [int(0.01 / (0.001 * 10))] is 1, as in Python. *)
Lemma bench_budget (policy : string) (normalize : bool) :
  step_budget (Bench.config policy normalize 1) = Ok 100%Z.
Proof. vm_compute. reflexivity. Qed.

Lemma bench_budget_short (policy : string) (normalize : bool) :
  step_budget (Bench.config policy normalize 0.01) = Ok 1%Z.
Proof. vm_compute. reflexivity. Qed.

(** The quotient is truncated as a float, not as a real number:
    [2.3 / (0.001 * 10)] is [229.99999999999997] and [0.29 / (0.001 * 10)]
    is [28.999999999999996]. *)
Lemma budget_truncates_the_float_quotient (policy : string)
  (normalize : bool) :
  step_budget (Bench.config policy normalize 2.3) = Ok 229%Z /\
  step_budget (Bench.config policy normalize 0.29) = Ok 28%Z.
Proof. split; vm_compute; reflexivity. Qed.

(** ** The features and the reward of a step *)

Lemma Rnorm_singleton (x : R) : Rnorm [x] = Rabs x.
Proof.
  unfold Rnorm. simpl.
  replace (x * x + 0)%R with (Rsqr x) by (unfold Rsqr; ring).
  apply sqrt_Rsqr_abs.
Qed.

Section StepFeatures.

Context {W : World}.

Lemma reward_row_params (e1 e2 : Env W) pol t c alive d :
  params e1 = params e2 ->
  reward_row e1 pol t c alive d = reward_row e2 pol t c alive d.
Proof.
  intros P.
  unfold reward_row, dense_coeff, sparse_coeff, reached_feature.
  now rewrite P.
Qed.

Lemma finish_infos (e1 : Env W) o tr r i e' res :
  finish e1 o tr r i = (e', res) ->
  e' = set_on_target (on_target e1 + (if info_on_target i then 1 else 0)) e1 /\
  ob res = o /\ reward res = r /\ truncated res = tr /\
  terminated res = _checkTermination e' /\
  tor (infos res) = tor i /\ init (infos res) = init i /\
  dst (infos res) = dst i /\ info_on_target (infos res) = info_on_target i /\
  param_rew (infos res) = param_rew i.
Proof.
  unfold finish. intros [= <- <-]. cbn [ob reward truncated terminated infos].
  repeat split; destruct (_ || tr); reflexivity.
Qed.

(** What [evaluate] computed, when it returns. *)
Lemma evaluate_Ok (e : Env W) (torques : list R) (o : Obs) (tr : bool)
  (r : npfloat) (i : Info) :
  evaluate e torques = Ok (o, tr, (r, i)) ->
  _getObservation e (getRobotState W (simulator e)) = Ok o /\
  _checkTruncation e (getRobotState W (simulator e)) = Ok tr /\
  _reward e torques o tr = Ok (r, i).
Proof.
  unfold evaluate. intros H.
  destruct (_getObservation e _) as [o'|]; [|discriminate].
  cbn [res_bind] in H.
  destruct (_checkTruncation e _) as [tr'|]; [|discriminate].
  cbn [res_bind] in H.
  destruct (_reward e torques o' tr') as [ri|] eqn:Hr; [|discriminate].
  cbn [res_bind] in H. injection H as -> -> ->. auto.
Qed.

(** What a returning [step] hands back, in terms of the features that it
    reports in [infos]. *)
Lemma step_features (action : list R) (e e' : Env W) (res : StepResult) :
  step action e = (e', Ok res) ->
  length (achieved_goal (ob res)) = 3%nat ->
  length (desired_goal (ob res)) = 3%nat ->
  (exists torques, _scaleAction e action = Ok torques /\
                   tor (infos res) = Rnorm torques) /\
  info_on_target (infos res)
  = Np.lt (dst (infos res)) (Fin (threshold_success (params e))) /\
  exists pol,
    compute_reward e = Some pol /\
    reward res
    = reward_row e pol (tor (infos res)) (init (infos res))
        (negb (truncated res)) (dst (infos res)).
Proof.
  intros H La Ld.
  apply step_Ok in H as (torques & o & tr & r & i & Hs & He & Hf).
  apply finish_infos in Hf
    as (_ & Ho & Hr & Ht & _ & Htor & Hinit & Hdst & Hon & _).
  destruct (after_physics_frame torques e) as ((P & C & _) & _).
  apply evaluate_Ok in He as (_ & _ & Hri). subst o.
  apply _reward_Ok in Hri as (T & D & B & _ & pol & Hp & R); try assumption.
  rewrite Htor, Hinit, Hdst, Hon, Hr, Ht.
  split; [eauto|]. split; [congruence|].
  exists pol. split; [congruence|].
  rewrite R. now apply reward_row_params.
Qed.

End StepFeatures.

(** ** When the features of a step are finite *)

Lemma zip_with_mul_Fin (a b : list R) :
  zip_with Np.mul (map Fin a) (map Fin b) = map Fin (zip_with Rmult a b).
Proof.
  revert b. induction a as [|x a IH]; intros [|y b]; simpl; try reflexivity.
  now rewrite IH.
Qed.

Lemma quadratic_form_Fin (u : list R) (mat : list (list R)) :
  Forall (fun row => length row = length u) mat ->
  quadratic_form (map Fin u) mat
  = Ok (Fin (fold_right Rplus 0%R
               (concat (map (fun row =>
                               zip_with Rmult (zip_with Rmult u row) u)
                          mat)))).
Proof.
  intros H. unfold quadratic_form.
  rewrite (res_sequence_map_Ok _
             (fun row => map Fin (zip_with Rmult u row))).
  2:{ eapply Forall_impl; [exact H|]. intros row Hr. cbv beta.
      rewrite broadcast_same by (now rewrite !length_map).
      now rewrite zip_with_mul_Fin. }
  cbn [res_bind]. unfold broadcast_rows. rewrite map_map.
  rewrite (res_sequence_map_Ok _
             (fun row => map Fin (zip_with Rmult (zip_with Rmult u row) u))).
  2:{ eapply Forall_impl; [exact H|]. intros row Hr. cbv beta.
      rewrite broadcast_same.
      - now rewrite zip_with_mul_Fin.
      - rewrite !length_map, length_zip_with_l_eq; congruence. }
  cbn [res_bind]. f_equal.
  rewrite <- (map_map (fun row => zip_with Rmult (zip_with Rmult u row) u)
                (map Fin)).
  rewrite <- concat_map. apply Np_sum_Fin.
Qed.

Section FiniteFeatures.

Context {W : World}.

Lemma _reward_init (e : Env W) (torques : list R) (o : Obs) (tr : bool)
  (r : npfloat) (i : Info) :
  _reward e torques o tr = Ok (r, i) ->
  exists v,
    broadcast Np.sub (map Fin (qC0 W (simulator e)))
      (slice_to (nq (rmodel e)) (observation o)) = Ok v /\
    quadratic_form v (mat_dt_init e) = Ok (init i).
Proof.
  intros H. unfold _reward in H.
  apply res_bind_Ok in H as (v & Hv & H).
  apply res_bind_Ok in H as (c & Hc & H).
  apply res_bind_Ok in H as (delta & _ & H).
  apply res_bind_Ok in H as (ach & _ & H).
  apply res_bind_Ok in H as (des & _ & H).
  apply res_bind_Ok in H as (m & _ & H).
  apply res_bind_Ok in H as (x & _ & H).
  injection H as _ <-. eauto.
Qed.

(** Without normalisation, in a well-shaped environment, the features of a
    returning step are finite: the rest-pose cost is the sum, over the
    entries of [mat_dt_init], of the entry times the squared deviation of
    the joint of its column from [qC0], and the goal distance is the
    distance from the tool to the target. *)
Lemma step_features_finite (action : list R) (e e' : Env W)
  (res : StepResult) :
  shaped_setup e ->
  normalizeObs (params e) = false ->
  length (position_target (target e)) = 3%nat ->
  step action e = (e', Ok res) ->
  let u :=
    zip_with Rminus (qC0 W (simulator e'))
      (firstn (nq (rmodel e)) (getRobotState W (simulator e'))) in
  length (achieved_goal (ob res)) = 3%nat /\
  length (desired_goal (ob res)) = 3%nat /\
  init (infos res)
  = Fin (fold_right Rplus 0%R
           (concat (map (fun row => zip_with Rmult (zip_with Rmult u row) u)
                      (mat_dt_init e)))) /\
  dst (infos res)
  = Fin (Rnorm (zip_with Rminus (get_end_effector_pos W (pinWrapper e'))
                  (position_target (target e)))).
Proof.
  intros S N Lt H.
  apply step_Ok in H as (torques & o & tr & r & i & _ & He & Hf).
  apply finish_infos in Hf
    as (-> & -> & _ & _ & _ & _ & Hinit & Hdst & _).
  destruct (after_physics_frame torques e) as (F & _ & _ & G & _).
  pose proof (shaped_setup_same _ _ F S) as S1.
  destruct F as (P & _ & M & D & _).
  cbn [simulator set_on_target].
  set (e1 := after_physics torques e) in *. clearbody e1.
  apply evaluate_Ok in He as (Ho & _ & Hri).
  unfold _getObservation in Ho. rewrite P, N in Ho. injection Ho as <-.
  cbn [achieved_goal desired_goal observation] in *.
  pose proof (sw_ee _ _ (ss_world _ S1) (pinWrapper e1)) as Le.
  assert (La : length (map Fin (get_end_effector_pos W (pinWrapper e1)))
               = 3%nat) by now rewrite length_map.
  assert (Ld : length (map Fin (position_target (target e1))) = 3%nat)
    by (rewrite length_map, G; exact Lt).
  split; [exact La|]. split; [exact Ld|].
  pose proof (_reward_init _ _ _ _ _ _ Hri) as (v & Hv & Hq).
  apply _reward_Ok in Hri as (_ & Dst & _); try assumption.
  cbn [observation achieved_goal desired_goal set_on_target pinWrapper]
    in Hv, Dst |- *.
  split.
  - unfold slice_to in Hv. rewrite firstn_map in Hv.
    rewrite broadcast_same in Hv.
    2:{ rewrite !length_map, (sw_qC0 _ _ (ss_world _ S1)), length_firstn,
          (sw_state _ _ (ss_world _ S1)). lia. }
    injection Hv as <-. rewrite zip_with_sub_Fin in Hq.
    rewrite quadratic_form_Fin in Hq.
    + injection Hq as Hq. rewrite Hinit, <- Hq, M, D. reflexivity.
    + eapply Forall_impl; [exact (ss_mat _ S1)|]. intros row Hr. cbv beta.
      rewrite length_zip_with_l_eq; rewrite (sw_qC0 _ _ (ss_world _ S1));
        [exact Hr|].
      rewrite length_firstn, (sw_state _ _ (ss_world _ S1)). lia.
  - rewrite Hdst, Dst, zip_with_sub_Fin, Np_norm_Fin, G. reflexivity.
Qed.

(** What the features of a returning [step] are features of: the torques
    are the scaled action, which the simulator received
    [numSimulationSteps] times; the observation is the one of the state
    measured after these calls; [infos] reports the norm of these torques,
    the rest-pose cost of this observation and the distance between its two
    goals. *)
Lemma step_measured (action : list R) (e e' : Env W) (res : StepResult) :
  step action e = (e', Ok res) ->
  length (achieved_goal (ob res)) = 3%nat ->
  length (desired_goal (ob res)) = 3%nat ->
  exists torques v,
    _scaleAction e action = Ok torques /\
    (length action = length (torqueScale e) ->
     torques = zip_with Rmult (torqueScale e) action) /\
    sim_log e'
    = sim_log e
      ++ replicate (Z.to_nat (numSimulationSteps (params e)))
           (CallStep torques)
      ++ [CallGetRobotState; CallGetRobotPos] /\
    _getObservation e' (getRobotState W (simulator e')) = Ok (ob res) /\
    tor (infos res) = Rnorm torques /\
    broadcast Np.sub (map Fin (qC0 W (simulator e')))
      (slice_to (nq (rmodel e)) (observation (ob res))) = Ok v /\
    quadratic_form v (mat_dt_init e) = Ok (init (infos res)) /\
    dst (infos res)
    = Np.norm (zip_with Np.sub (achieved_goal (ob res))
                 (desired_goal (ob res))).
Proof.
  intros H La Ld.
  apply step_Ok in H as (torques & o & tr & r & i & Hs & He & Hf).
  apply finish_infos in Hf
    as (-> & Ho & _ & _ & _ & Htor & Hinit & Hdst & _).
  destruct (after_physics_frame torques e)
    as ((_ & _ & M & D & _) & _ & _ & _ & _ & L).
  cbn [simulator sim_log set_on_target].
  set (e1 := after_physics torques e) in *. clearbody e1.
  apply evaluate_Ok in He as (Hob & _ & Hri). subst o.
  pose proof (_reward_init _ _ _ _ _ _ Hri) as (v & Hv & Hq).
  apply _reward_Ok in Hri as (T & Dst & _); try assumption.
  exists torques, v.
  split; [exact Hs|].
  split.
  { intros E. unfold _scaleAction in Hs.
    rewrite broadcast_same in Hs by (symmetry; exact E).
    now injection Hs. }
  split; [exact L|].
  split; [exact Hob|].
  split; [congruence|].
  split; [rewrite <- M; exact Hv|].
  split; [rewrite <- D, Hinit; exact Hq|].
  congruence.
Qed.

End FiniteFeatures.

(** C1 (as amended).  With the sparse policy, on a step whose features are
    finite, the reward is
    [-w_control * torque_norm
     + w_target_reached * ((1 if goal_distance < threshold else 0) - 0.002)]:
    the constant 0.002 is taken off the success indicator before the
    product with [w_target_reached], so that the cost paid on every step,
    whatever the outcome, is [0.002 * w_target_reached].  Here
    [torque_norm] is the norm of the torques that the step applied, the
    action scaled by [torqueScale], which the simulator received
    [numSimulationSteps] times, and [goal_distance] is the distance between
    the achieved and the desired goal of the observation that the step
    returns, the one of the state measured after these calls: without
    normalisation, the distance from the tool to the target.  With
    [w_target_reached = 5] and no torque the reward is 4.99 below the
    threshold and -0.01 otherwise. *)
Theorem sparse_reward_per_step {W : World} (e e' : Env W) (action : list R)
  (res : StepResult) (c d : R) :
  compute_reward e = Some Sparse ->
  step action e = (e', Ok res) ->
  length (achieved_goal (ob res)) = 3%nat ->
  length (desired_goal (ob res)) = 3%nat ->
  init (infos res) = Fin c ->
  dst (infos res) = Fin d ->
  let reached := Rltb d (threshold_success (params e)) in
  exists torques : list R,
    _scaleAction e action = Ok torques /\
    (length action = length (torqueScale e) ->
     torques = zip_with Rmult (torqueScale e) action) /\
    sim_log e'
    = sim_log e
      ++ replicate (Z.to_nat (numSimulationSteps (params e)))
           (CallStep torques)
      ++ [CallGetRobotState; CallGetRobotPos] /\
    _getObservation e' (getRobotState W (simulator e')) = Ok (ob res) /\
    tor (infos res) = Rnorm torques /\
    Np.norm (zip_with Np.sub (achieved_goal (ob res))
               (desired_goal (ob res))) = Fin d /\
    (shaped_setup e -> normalizeObs (params e) = false ->
     length (position_target (target e)) = 3%nat ->
     d = Rnorm (zip_with Rminus (get_end_effector_pos W (pinWrapper e'))
                  (position_target (target e)))) /\
    info_on_target (infos res) = reached /\
    reward res
    = Fin (- weight_command (params e) * Rnorm torques
           + weight_target_reached (params e)
             * (R_of_bool reached - 0.002)) /\
    (weight_target_reached (params e) = 5%R -> Rnorm torques = 0%R ->
     reward res = Fin (if reached then 4.99 else -0.01)).
Proof.
  intros Hp H La Ld Hc Hd reached.
  destruct (step_features _ _ _ _ H La Ld) as (_ & Hon & pol & Hpol & Hr).
  destruct (step_measured _ _ _ _ H La Ld)
    as (torques & v & Hs & Hz & Hl & Ho & Ht & _ & _ & Hn).
  rewrite Hp in Hpol. injection Hpol as <-.
  rewrite Hc, Hd, Ht in Hr. rewrite reward_row_sparse_finite in Hr.
  rewrite Hd in Hon. cbn [Np.lt] in Hon.
  exists torques.
  split; [exact Hs|]. split; [exact Hz|]. split; [exact Hl|].
  split; [exact Ho|]. split; [exact Ht|].
  split; [congruence|].
  split.
  { intros S N Lt.
    destruct (step_features_finite _ _ _ _ S N Lt H) as (_ & _ & _ & Hm).
    rewrite Hd in Hm. now injection Hm. }
  split; [exact Hon|]. split; [exact Hr|].
  intros Hw Hz0. rewrite Hr, Hw, Hz0. fold reached.
  destruct reached; cbn [R_of_bool]; f_equal; lra.
Qed.

(** C2.  With the dense policy, on a step whose features are finite, the
    reward is [-w_control * torque_norm - 1 * rest_pose_cost
    + w_truncation * alive - w_target * goal_distance], where [alive] is 1
    exactly when the step was not truncated.  Here [torque_norm] is the norm
    of the torques that the step applied, the action scaled by
    [torqueScale], which the simulator received [numSimulationSteps] times;
    [rest_pose_cost] is [np.sum(u.T * mat_dt_init * u)] for the deviation
    [u] of the first [nq] components of the observation from [qC0];
    [goal_distance] is the distance between the achieved and the desired
    goal of the observation; the observation is the one of the state
    measured after the calls of the simulator.  Without normalisation
    [goal_distance] is the distance from the tool to the target and [u] the
    deviation of the measured joint positions.  A step without torque, at
    the rest pose, not truncated, at distance 0.1, under the weights 1, 0
    and 2 earns -0.2. *)
Theorem dense_reward_per_step {W : World} (e e' : Env W) (action : list R)
  (res : StepResult) (c d : R) :
  compute_reward e = Some Dense ->
  step action e = (e', Ok res) ->
  length (achieved_goal (ob res)) = 3%nat ->
  length (desired_goal (ob res)) = 3%nat ->
  init (infos res) = Fin c ->
  dst (infos res) = Fin d ->
  let alive := R_of_bool (negb (truncated res)) in
  let x_measured := getRobotState W (simulator e') in
  exists (torques : list R) (v : ndarray),
    _scaleAction e action = Ok torques /\
    (length action = length (torqueScale e) ->
     torques = zip_with Rmult (torqueScale e) action) /\
    sim_log e'
    = sim_log e
      ++ replicate (Z.to_nat (numSimulationSteps (params e)))
           (CallStep torques)
      ++ [CallGetRobotState; CallGetRobotPos] /\
    _getObservation e' x_measured = Ok (ob res) /\
    tor (infos res) = Rnorm torques /\
    broadcast Np.sub (map Fin (qC0 W (simulator e')))
      (slice_to (nq (rmodel e)) (observation (ob res))) = Ok v /\
    quadratic_form v (mat_dt_init e) = Ok (Fin c) /\
    Np.norm (zip_with Np.sub (achieved_goal (ob res))
               (desired_goal (ob res))) = Fin d /\
    (shaped_setup e -> normalizeObs (params e) = false ->
     length (position_target (target e)) = 3%nat ->
     let u :=
       zip_with Rminus (qC0 W (simulator e'))
         (firstn (nq (rmodel e)) x_measured) in
     c = fold_right Rplus 0%R
           (concat (map (fun row => zip_with Rmult (zip_with Rmult u row) u)
                      (mat_dt_init e))) /\
     d = Rnorm (zip_with Rminus (get_end_effector_pos W (pinWrapper e'))
                  (position_target (target e)))) /\
    reward res
    = Fin (- weight_command (params e) * Rnorm torques - 1 * c
           + weight_truncation (params e) * alive
           - weight_target (params e) * d) /\
    (weight_command (params e) = 1%R -> weight_truncation (params e) = 0%R ->
     weight_target (params e) = 2%R -> Rnorm torques = 0%R -> c = 0%R ->
     truncated res = false -> d = 0.1%R -> reward res = Fin (-0.2)).
Proof.
  intros Hp H La Ld Hc Hd alive x_measured.
  destruct (step_features _ _ _ _ H La Ld) as (_ & _ & pol & Hpol & Hr).
  destruct (step_measured _ _ _ _ H La Ld)
    as (torques & v & Hs & Hz & Hl & Ho & Ht & Hv & Hq & Hn).
  rewrite Hp in Hpol. injection Hpol as <-.
  rewrite Hc, Hd, Ht in Hr. rewrite reward_row_dense_finite in Hr.
  exists torques, v.
  split; [exact Hs|]. split; [exact Hz|]. split; [exact Hl|].
  split; [exact Ho|]. split; [exact Ht|]. split; [exact Hv|].
  split; [congruence|]. split; [congruence|].
  split.
  { intros S N Lt.
    destruct (step_features_finite _ _ _ _ S N Lt H) as (_ & _ & Hi & Hm).
    rewrite Hc in Hi. rewrite Hd in Hm.
    split; [now injection Hi | now injection Hm]. }
  split; [exact Hr|].
  intros Hw1 Hw2 Hw3 Hz0 -> Htr ->. rewrite Hr, Hw1, Hw2, Hw3, Hz0.
  f_equal. lra.
Qed.

(** C1, the claim as stated fails: on the bench, under the sparse policy
    with [w_target_reached = 5], a step without torque that is on the target
    does not earn [-w_control * 0 + 5 * 1 - 0.002 = 4.998]. *)
Lemma sparse_reward_claimed_value_fails :
  exists (e e' : Env (Bench.world 1)) (res : StepResult),
    __init__ (Bench.config "sparse" false 1) = Ok e /\
    step [0%R] e = (e', Ok res) /\
    weight_target_reached (params e) = 5%R /\
    tor (infos res) = 0%R /\
    info_on_target (infos res) = true /\
    reward res = Fin 4.99 /\
    reward res
    <> Fin (- weight_command (params e) * tor (infos res)
            + weight_target_reached (params e) * 1 - 0.002).
Proof.
  destruct (bench_init 1 "sparse" Sparse 1 100 eq_refl (bench_budget _ _))
    as (e & He & B & _).
  destruct (bench_step 1 Rlt_0_1 _ _ _ _ 0%R e B)
    as (e' & res & c & Hs & _ & _ & _ & _ & _ & _ & _ & _ & Ht & _ & Hc & _
        & Hon & Hr).
  destruct B as (P & _).
  assert (T0 : Rnorm [(1 * 1 * 0)%R] = 0%R)
    by (rewrite Rnorm_singleton; replace (1 * 1 * 0)%R with 0%R by ring;
        apply Rabs_R0).
  assert (On : Rltb (Rabs 0) 0.05 = true)
    by (rewrite Rabs_R0; apply Rltb_true; lra).
  rewrite T0 in Ht, Hr. rewrite On in Hon.
  rewrite reward_row_sparse_finite, P in Hr.
  cbn [Bench.config weight_command weight_target_reached threshold_success]
    in Hr.
  rewrite On in Hr. cbn [R_of_bool] in Hr.
  assert (Hv : reward res = Fin 4.99) by (rewrite Hr; f_equal; lra).
  exists e, e', res. rewrite P, Ht.
  cbn [Bench.config weight_command weight_target_reached].
  repeat split; try assumption.
  rewrite Hv. intros [= E]. lra.
Qed.

Lemma sparse_reward_per_step_witness :
  exists (e e' : Env (Bench.world 1)) (res : StepResult),
    step [0%R] e = (e', Ok res) /\
    tor (infos res) = 0%R /\ dst (infos res) = Fin 0 /\
    reward res = Fin 4.99.
Proof.
  destruct (bench_init 1 "sparse" Sparse 1 100 eq_refl (bench_budget _ _))
    as (e & He & B & _).
  destruct (bench_step 1 Rlt_0_1 _ _ _ _ 0%R e B)
    as (e' & res & c & Hs & _ & _ & _ & _ & _ & _ & La & Ld & Ht & Hi & Hc
        & Hd & _).
  destruct B as (P & _ & _ & _ & C & _).
  assert (T0 : tor (infos res) = 0%R).
  { rewrite Ht, Rnorm_singleton.
    replace (1 * 1 * 0)%R with 0%R by ring. apply Rabs_R0. }
  exists e, e', res. split; [exact Hs|]. split; [exact T0|].
  split; [rewrite Hd, Rabs_R0; reflexivity|].
  destruct (sparse_reward_per_step e e' [0%R] res c (Rabs 0) C Hs La Ld Hi Hd)
    as (torques & _ & _ & _ & _ & Hn & _ & _ & _ & _ & Hex).
  rewrite Hex.
  - rewrite P. cbn [Bench.config threshold_success].
    rewrite Rabs_R0, (proj2 (Rltb_true 0 0.05)) by lra. reflexivity.
  - rewrite P. reflexivity.
  - rewrite <- Hn. exact T0.
Defined.

Lemma dense_reward_per_step_witness :
  exists (e e' : Env (Bench.world 1)) (res : StepResult),
    step [0%R] e = (e', Ok res) /\
    tor (infos res) = 0%R /\ init (infos res) = Fin 0 /\
    dst (infos res) = Fin 0.1 /\ truncated res = false /\
    reward res = Fin (-0.2).
Proof.
  destruct (bench_init 1 "dense" Dense 1 100 eq_refl (bench_budget _ _))
    as (e0 & _ & B0 & _).
  destruct (bench_reset 1 _ _ _ _ 0.1%R e0 B0) as (B & _).
  set (e := fst (reset (Bench.override [0.1%R; 0%R; 0%R]) e0)) in *.
  destruct (bench_step 1 Rlt_0_1 _ _ _ _ 0%R e B)
    as (e' & res & c & Hs & _ & _ & _ & _ & _ & Htr & La & Ld & Ht & Hi & Hc
        & Hd & _).
  destruct B as (P & _ & _ & _ & C & _).
  assert (T0 : tor (infos res) = 0%R).
  { rewrite Ht, Rnorm_singleton.
    replace (1 * 1 * 0)%R with 0%R by ring. apply Rabs_R0. }
  assert (D0 : Rabs 0.1 = 0.1%R) by (apply Rabs_pos_eq; lra).
  exists e, e', res. split; [exact Hs|]. split; [exact T0|].
  split; [rewrite Hi, Hc; reflexivity|].
  split; [rewrite Hd, D0; reflexivity|].
  split; [exact Htr|].
  destruct (dense_reward_per_step e e' [0%R] res c (Rabs 0.1) C Hs La Ld Hi Hd)
    as (torques & v & _ & _ & _ & _ & Hn & _ & _ & _ & _ & _ & Hex).
  apply Hex; try (rewrite P; reflexivity); try assumption.
  rewrite <- Hn. exact T0.
Defined.

(** ** Termination *)

Section Termination.

Context {W : World}.

Lemma step_terminated (action : list R) (e e' : Env W) (res : StepResult) :
  step action e = (e', Ok res) ->
  terminated res = _checkTermination e' /\
  e' = fst (step action e).
Proof.
  intros H. split; [|now rewrite H].
  apply step_Ok in H as (torques & o & tr & r & i & _ & _ & Hf).
  now apply finish_infos in Hf.
Qed.

Lemma _checkTermination_true (e : Env W) :
  _checkTermination e = true <->
  (timer e > maxStep e - 1)%Z \/ (on_target e > 30)%Z.
Proof.
  unfold _checkTermination. rewrite orb_true_iff, !Z.gtb_gt. tauto.
Qed.

(** [maxStep] is the one computed at construction. *)
Lemma reachable_maxStep (p : Config) (e : Env W) :
  reachable p e ->
  exists e0 : Env W,
    __init__ p = Ok e0 /\ maxStep e = maxStep e0 /\
    step_budget p = Ok (maxStep e).
Proof.
  intros H. apply reachable_setup in H as (e0 & H0 & S).
  destruct S as (_ & _ & _ & _ & X & _).
  exists e0. split; [exact H0|]. split; [exact X|].
  apply init_Ok in H0 as (_ & _ & _ & _ & _ & _ & _ & _ & _ & _ & Hb).
  now rewrite X.
Qed.

End Termination.

(** C3.  A step returns [terminated = true] exactly when, after it,
    [timer > maxStep - 1] or [on_target > 30].  [maxStep] is the value that
    construction stored, which no step changes: the float quotient
    [maxTime / (timeStepSimulation * numSimulationSteps)], truncated towards
    zero by [int].  With 1.0 s, 0.001 s and 10 sub-ticks [maxStep] is 100
    and the hundredth call of [step] after a [reset] returns
    [terminated = true]. *)
Theorem termination_rule {W : World} (p : Config) (e e' : Env W)
  (action : list R) (res : StepResult) :
  reachable p e ->
  step action e = (e', Ok res) ->
  (terminated res = true <->
   (timer e' > maxStep e' - 1)%Z \/ (on_target e' > 30)%Z) /\
  timer e' = (timer e + 1)%Z /\
  maxStep e' = maxStep e /\
  (exists e0 : Env W, __init__ p = Ok e0 /\ maxStep e' = maxStep e0) /\
  (exists period steps : float,
      float_mul_int (timeStepSimulation p) (numSimulationSteps p)
      = Ok period /\
      py_truediv (maxTime p) period = Ok steps /\
      py_int steps = Ok (maxStep e')) /\
  (maxTime p = PyFloat 1 -> timeStepSimulation p = 0.001%float ->
   numSimulationSteps p = 10%Z ->
   maxStep e' = 100%Z /\
   forall options e0,
     stepped (fst (reset options e0)) 99 e -> terminated res = true).
Proof.
  intros Hreach H.
  destruct (step_terminated _ _ _ _ H) as (Ht & He').
  destruct (step_frame action e) as ((_ & _ & _ & _ & Hms & _) & Hti & _).
  cbv zeta in Hti. rewrite <- He' in Hti, Hms.
  assert (Hreach' : reachable p e') by (rewrite He'; now constructor).
  destruct (reachable_maxStep _ _ Hreach') as (e0 & H0 & Hm & Hb).
  split; [rewrite Ht; apply _checkTermination_true|].
  split; [exact Hti|].
  split; [exact Hms|].
  split; [exists e0; split; assumption|].
  split.
  { unfold step_budget in Hb.
    apply res_bind_Ok in Hb as (period & Hp & Hb).
    apply res_bind_Ok in Hb as (steps & Hs & Hb).
    exists period, steps. repeat split; assumption. }
  intros E1 E2 E3.
  assert (Hb' : step_budget p = Ok 100%Z).
  { unfold step_budget. rewrite E1, E2, E3. vm_compute. reflexivity. }
  assert (M : maxStep e' = 100%Z) by congruence.
  split; [exact M|].
  intros options e1 Hst.
  apply stepped_frame in Hst as (_ & _ & Hn & _).
  rewrite reset_unfold in Hn. cbn [fst] in Hn.
  destruct (after_reset_frame options e1) as (_ & T0 & _).
  cbv zeta in T0. rewrite T0 in Hn.
  rewrite Ht. apply _checkTermination_true. left. lia.
Qed.

Section Runs.

Context {W : World}.

Lemma stepped_run (n : nat) (action : list R) (e : Env W) :
  stepped e n (run n action e).
Proof. induction n; simpl; now constructor. Qed.

Lemma reachable_run (p : Config) (n : nat) (action : list R) (e : Env W) :
  reachable p e -> reachable p (run n action e).
Proof. intros H. induction n; simpl; [assumption | now constructor]. Qed.

End Runs.

Lemma bench_run (v : R) (v_pos : (0 < v)%R) policy pol max_time t (a : R)
  (n : nat) (e : Env (Bench.world v)) :
  bench_state v policy pol max_time t e ->
  bench_state v policy pol max_time t (run n [a] e).
Proof.
  intros B. induction n as [|n IH]; [exact B|]. simpl.
  destruct (bench_step v v_pos _ _ _ _ a _ IH) as (e' & res & c & Hs & B' & _).
  now rewrite Hs.
Qed.

Lemma termination_rule_witness :
  exists (e e' : Env (Bench.world 1)) (res : StepResult),
    step [0%R] e = (e', Ok res) /\
    maxStep e' = 100%Z /\ terminated res = true.
Proof.
  destruct (bench_init 1 "dense" Dense 1 100 eq_refl (bench_budget _ _))
    as (e0 & He0 & B0 & _).
  destruct (bench_reset 1 _ _ _ _ 1%R e0 B0) as (B1 & _).
  set (e1 := fst (reset (Bench.override [1%R; 0%R; 0%R]) e0)) in *.
  pose proof (bench_run 1 Rlt_0_1 _ _ _ _ 0%R 99 e1 B1) as B.
  destruct (bench_step 1 Rlt_0_1 _ _ _ _ 0%R _ B) as (e' & res & c & Hs & _).
  exists (run 99 [0%R] e1), e', res. split; [exact Hs|].
  assert (Hreach : reachable (Bench.config "dense" false 1) (run 99 [0%R] e1)).
  { apply reachable_run. unfold e1. apply reach_reset. now apply reach_init. }
  destruct (termination_rule _ _ _ _ _ Hreach Hs)
    as (_ & _ & _ & _ & _ & Hex).
  destruct (Hex eq_refl eq_refl eq_refl) as (M & Hall).
  split; [exact M|].
  apply (Hall (Bench.override [1%R; 0%R; 0%R]) e0). apply stepped_run.
Defined.

(** ** Truncation *)

Lemma lookup_map_Some {A B} (f : A -> B) (l : list A) (i : nat) (y : B) :
  map f l !! i = Some y <-> exists x, l !! i = Some x /\ y = f x.
Proof.
  revert i. induction l as [|a l IH]; intros [|i]; simpl.
  - split; [discriminate | intros (x & H & _); discriminate].
  - split; [discriminate | intros (x & H & _); discriminate].
  - split; [intros [= <-]; eauto | intros (x & [= <-] & ->); reflexivity].
  - apply IH.
Qed.

Section Truncation.

Context {W : World}.

Lemma balance_lost_true (e : Env W) (com : list R) :
  balance_lost e com = true <-> com_outside_box (params e) com.
Proof.
  unfold balance_lost, com_outside_box.
  rewrite orb_true_iff, !any_zip_with. split.
  - intros [(i & c & lo & Hc & Hl & H)|(i & c & up & Hc & Hu & H)].
    + apply Rltb_true in H. exists i, c. eauto 6.
    + apply Rgtb_true in H. exists i, c. eauto 6.
  - intros (i & c & Hc & [(lo & Hl & H)|(up & Hu & H)]).
    + left. exists i, c, lo. rewrite Rltb_true. auto.
    + right. exists i, c, up. rewrite Rgtb_true. auto.
Qed.

Lemma position_exceeded_true (e : Env W) (x : list R) :
  position_exceeded e x = true <->
  joint_position_exceeded (params e) (rmodel e) x.
Proof.
  unfold position_exceeded, joint_position_exceeded.
  rewrite orb_true_iff, !any_zip_with. split.
  - intros [(i & q & y & Hq & Hy & H)|(i & q & y & Hq & Hy & H)];
      apply lookup_map_Some in Hy as (lim & Hl & ->).
    + apply Rgtb_true in H. exists i, q. eauto 6.
    + apply Rltb_true in H. exists i, q. eauto 6.
  - intros (i & q & Hq & [(up & Hu & H)|(lo & Hl & H)]).
    + left. exists i, q, (limitPosScale (params e) * up)%R.
      rewrite Rgtb_true, lookup_map_Some. eauto.
    + right. exists i, q, (limitPosScale (params e) * lo)%R.
      rewrite Rltb_true, lookup_map_Some. eauto.
Qed.

Lemma speed_exceeded_true (e : Env W) (x : list R) :
  speed_exceeded e x = true <->
  joint_velocity_exceeded (params e) (rmodel e) x.
Proof.
  unfold speed_exceeded, joint_velocity_exceeded.
  rewrite any_zip_with. split.
  - intros (i & a & y & Ha & Hy & H).
    apply lookup_map_Some in Ha as (w & Hw & ->).
    apply lookup_map_Some in Hy as (lim & Hl & ->).
    apply Rgtb_true in H. eauto 6.
  - intros (i & w & lim & Hw & Hl & H).
    exists i, (Rabs w), (limitVelScale (params e) * lim)%R.
    rewrite Rgtb_true, !lookup_map_Some.
    split; [eauto|]. split; [eauto|]. exact H.
Qed.

(** The flag of a returning [step] is the value of [_checkTruncation] on
    what the collaborators report after the step. *)
Lemma step_truncated (action : list R) (e e' : Env W) (res : StepResult) :
  step action e = (e', Ok res) ->
  same_setup e e' /\
  rCoM e' = Some (get_CoM W (pinWrapper e')) /\
  _checkTruncation e' (getRobotState W (simulator e')) = Ok (truncated res).
Proof.
  intros H.
  apply step_Ok in H as (torques & o & tr & r & i & _ & He & Hf).
  apply finish_infos in Hf as (-> & _ & _ & -> & _).
  destruct (after_physics_frame torques e) as (S & _ & _ & _ & C & _).
  set (e1 := after_physics torques e) in *. clearbody e1.
  apply evaluate_Ok in He as (_ & Htr & _).
  split; [exact S|]. split; [exact C|]. exact Htr.
Qed.

End Truncation.

(** C4.  A step returns [truncated = true] exactly when the centre of mass
    is outside the balance box on some axis, or a controlled joint position
    is beyond [limitPosScale] times the position limits of the model, or a
    joint velocity is, in magnitude, beyond [limitVelScale] times the
    velocity limit; a centre of mass outside the box alone is enough. *)
Theorem truncation_rule {W : World} (e e' : Env W) (action : list R)
  (res : StepResult) :
  shaped_setup e ->
  step action e = (e', Ok res) ->
  let x_measured := getRobotState W (simulator e') in
  let com := get_CoM W (pinWrapper e') in
  (truncated res = true <->
   com_outside_box (params e) com \/
   joint_position_exceeded (params e) (rmodel e) x_measured \/
   joint_velocity_exceeded (params e) (rmodel e) x_measured) /\
  (com_outside_box (params e) com -> truncated res = true).
Proof.
  intros S H x_measured com.
  destruct (step_truncated _ _ _ _ H) as (F & C & T).
  pose proof (shaped_setup_same _ _ F S) as S'.
  rewrite (_checkTruncation_same e' _ com S') in T.
  2:{ apply (sw_state _ _ (ss_world _ S')). }
  2:{ exact C. }
  2:{ apply (sw_com _ _ (ss_world _ S')). }
  injection T as T. fold x_measured in T.
  destruct F as (P & _ & M & _).
  assert (E : truncated res = true <->
              com_outside_box (params e) com \/
              joint_position_exceeded (params e) (rmodel e) x_measured \/
              joint_velocity_exceeded (params e) (rmodel e) x_measured).
  { rewrite <- T, !orb_true_iff, balance_lost_true, position_exceeded_true,
      speed_exceeded_true, P, M. tauto. }
  split; [exact E|]. intros Hc. apply E. now left.
Qed.

Lemma truncation_rule_witness :
  exists (e e' : Env (Bench.world 1)) (res : StepResult),
    step [0%R] e = (e', Ok res) /\
    (truncated res = true <->
     com_outside_box (params e) [0%R; 0%R; 1%R] \/
     joint_position_exceeded (params e) (rmodel e) [0%R; 0%R] \/
     joint_velocity_exceeded (params e) (rmodel e) [0%R; 0%R]).
Proof.
  destruct (bench_init 1 "dense" Dense 1 100 eq_refl (bench_budget _ _))
    as (e & He & B & _).
  destruct (bench_step 1 Rlt_0_1 _ _ _ _ 0%R _ B) as (e' & res & c & Hs & _).
  exists e, e', res. split; [exact Hs|].
  exact (proj1 (truncation_rule e e' [0%R] res
                  (bench_state_shaped 1 _ _ _ _ e B) Hs)).
Defined.

(** ** Reset *)

Section Reset.

Context {W : World}.

(** Both counters are zero after [reset], whatever its options and
    whether it returns or raises. *)
Lemma reset_counters (options : option (gmap string (list R))) (e : Env W) :
  timer (fst (reset options e)) = 0%Z /\
  on_target (fst (reset options e)) = 0%Z.
Proof.
  rewrite reset_unfold. cbn [fst].
  destruct (after_reset_frame options e) as (_ & T & O & _). auto.
Qed.

Lemma reset_target (options : option (gmap string (list R))) (e : Env W) :
  target (fst (reset options e)) = resolved options (target e).
Proof.
  rewrite reset_unfold. cbn [fst].
  now destruct (after_reset_frame options e) as (_ & _ & _ & T & _).
Qed.

(** Without options the target is a fresh sample. *)
Lemma reset_samples (e : Env W) :
  target (fst (reset None e)) = create_target W (target e).
Proof. apply reset_target. Qed.

(** With a [target] key the target is the one supplied. *)
Lemma reset_overrides (opts : gmap string (list R)) (t : list R) (e : Env W) :
  opts !! "target" = Some t ->
  position_target (target (fst (reset (Some opts) e))) = t.
Proof. intros H. rewrite reset_target. unfold resolved. now rewrite H. Qed.

(** The calls that [reset] makes to the simulator. *)
Lemma reset_sim_log (options : option (gmap string (list R))) (e : Env W) :
  sim_log (fst (reset options e))
  = sim_log e
    ++ [CallReset (position_target (target (fst (reset options e))));
        CallGetRobotState; CallGetRobotPos].
Proof.
  rewrite reset_target, reset_unfold. cbn [fst].
  now destruct (after_reset_frame options e) as (_ & _ & _ & _ & _ & L).
Qed.

(** The calls that a returning [step] makes to the simulator. *)
Lemma step_sim_log (action : list R) (e e' : Env W) (res : StepResult) :
  step action e = (e', Ok res) ->
  exists torques,
    _scaleAction e action = Ok torques /\
    sim_log e'
    = sim_log e
      ++ replicate (Z.to_nat (numSimulationSteps (params e)))
           (CallStep torques)
      ++ [CallGetRobotState; CallGetRobotPos].
Proof.
  intros H.
  apply step_Ok in H as (torques & o & tr & r & i & Hs & _ & Hf).
  apply finish_infos in Hf as (-> & _).
  exists torques. split; [exact Hs|].
  now destruct (after_physics_frame torques e) as (_ & _ & _ & _ & _ & L).
Qed.

End Reset.

(** C5, where the code departs from the claim: options that are given but
    hold no [target] key.  [reset] zeroes both counters, but the target
    stays the one of the episode before: neither an override nor a fresh
    sample.  On the bench the first target is at the origin and a fresh
    sample would have been one metre away. *)
Theorem reset_options_without_target :
  (forall (W : World) (e : Env W),
      let e' := fst (reset (Some ∅) e) in
      timer e' = 0%Z /\ on_target e' = 0%Z /\ target e' = target e) /\
  (exists e : Env (Bench.world 1),
      __init__ (Bench.config "dense" false 1) = Ok e /\
      position_target (target (fst (reset (Some ∅) e)))
      = [0%R; 0%R; 0%R] /\
      position_target (create_target (Bench.world 1) (target e))
      = [1%R; 0%R; 0%R]).
Proof.
  split.
  - intros W e e'. destruct (reset_counters (Some ∅) e) as (T & O).
    repeat split; try assumption. unfold e'. now rewrite reset_target.
  - destruct (bench_init 1 "dense" Dense 1 100 eq_refl (bench_budget _ _))
      as (e & He & _).
    exists e. split; [exact He|].
    apply init_Ok in He as (_ & _ & _ & _ & _ & G & _).
    rewrite reset_target, G. split; reflexivity.
Qed.

(** C6, the claim as stated fails: on the bench, [step] on an environment
    that was constructed and never reset returns normally, after ten calls
    of the simulator; and a target override of dimension two reaches
    [simulator.reset] before the [ValueError] of the first array
    operation on it. *)
Lemma step_before_reset_returns :
  exists (e e' : Env (Bench.world 1)) (res : StepResult),
    __init__ (Bench.config "dense" false 1) = Ok e /\
    step [0%R] e = (e', Ok res) /\
    sim_log e'
    = sim_log e ++ replicate 10 (CallStep [(1 * 1 * 0)%R])
      ++ [CallGetRobotState; CallGetRobotPos] /\
    exists e'',
      reset (Bench.override [1%R; 2%R]) e = (e'', Raise ValueError) /\
      sim_log e''
      = sim_log e ++ [CallReset [1%R; 2%R]; CallGetRobotState;
                      CallGetRobotPos].
Proof.
  destruct (bench_init 1 "dense" Dense 1 100 eq_refl (bench_budget _ _))
    as (e & He & B & _).
  destruct (bench_step 1 Rlt_0_1 _ _ _ _ 0%R _ B) as (e' & res & c & Hs & _).
  exists e, e', res. split; [exact He|]. split; [exact Hs|].
  destruct B as (P & _ & _ & T & _).
  split.
  - destruct (step_sim_log _ _ _ _ Hs) as (torques & Ht & L).
    unfold _scaleAction in Ht. rewrite T in Ht. injection Ht as <-.
    rewrite L, P. reflexivity.
  - exists (fst (reset (Bench.override [1%R; 2%R]) e)).
    split.
    + rewrite reset_unfold. reflexivity.
    + rewrite reset_sim_log, reset_target. reflexivity.
Qed.

(** C6 (as amended).  Neither [step] nor [reset] checks how it is used.
    [step] on an environment that was constructed and never reset returns
    normally for an action of the dimension of the action space, after
    [numSimulationSteps] calls of the simulator with the scaled action; and
    [reset] passes the target of its options to [simulator.reset] as it is,
    whatever its dimension. *)
Theorem no_usage_checks {W : World} (p : Config) (e : Env W)
  (action : list R) (opts : gmap string (list R)) (t : list R) :
  __init__ p = Ok e ->
  shaped_setup e ->
  length (position_target (target e)) = 3%nat ->
  length action = nq (rmodel e) ->
  opts !! "target" = Some t ->
  (exists e' res torques,
      step action e = (e', Ok res) /\
      _scaleAction e action = Ok torques /\
      sim_log e'
      = sim_log e
        ++ replicate (Z.to_nat (numSimulationSteps p)) (CallStep torques)
        ++ [CallGetRobotState; CallGetRobotPos]) /\
  (forall e0 : Env W,
      let e' := fst (reset (Some opts) e0) in
      position_target (target e') = t /\
      sim_log e'
      = sim_log e0 ++ [CallReset t; CallGetRobotState; CallGetRobotPos]).
Proof.
  intros Hi S Lt La Ho. split.
  - destruct (step_ok action e S Lt La) as (e' & res & Hs).
    destruct (step_sim_log _ _ _ _ Hs) as (torques & Ht & L).
    apply init_Ok in Hi as (P & _). rewrite P in L. eauto 6.
  - intros e0 e'. unfold e'.
    rewrite reset_sim_log, (reset_overrides opts t e0 Ho). auto.
Qed.

Lemma no_usage_checks_witness :
  exists (e e' : Env (Bench.world 1)) (res : StepResult),
    __init__ (Bench.config "dense" false 1) = Ok e /\
    step [0%R] e = (e', Ok res).
Proof.
  destruct (bench_init 1 "dense" Dense 1 100 eq_refl (bench_budget _ _))
    as (e & He & B & _).
  pose proof (bench_state_shaped 1 _ _ _ _ e B) as S.
  destruct B as (_ & M & _ & _ & _ & G).
  destruct (no_usage_checks (Bench.config "dense" false 1) e [0%R]
              {[ "target"%string := [1%R; 2%R] ]} [1%R; 2%R] He S)
    as ((e' & res & torques & Hs & _) & _).
  - now rewrite G.
  - now rewrite M.
  - reflexivity.
  - exists e, e', res. auto.
Defined.

(** ** The observation normaliser *)

Lemma div_Fin_nonzero (c d : R) :
  d <> 0%R -> Np.div (Fin c) (Fin d) = Fin (c / d).
Proof. intros H. simpl. now destruct (Req_dec_T d 0). Qed.

Lemma div_Fin_zero (c : R) : Np.is_finite (Np.div (Fin c) (Fin 0)) = false.
Proof.
  simpl. destruct (Req_dec_T 0 0) as [_|N]; [|now destruct N].
  unfold Np.inf_of_sign. destruct (Rltb 0 c), (Rltb c 0); reflexivity.
Qed.

Section Normalizer.

Context {W : World}.

Lemma init_deterministic (p : Config) (e1 e2 : Env W) :
  __init__ p = Ok e1 -> __init__ p = Ok e2 -> e1 = e2.
Proof. congruence. Qed.

Lemma reachable_obs_limits (p : Config) (e e' : Env W) :
  __init__ p = Ok e -> reachable p e' -> obs_limits e' = obs_limits e.
Proof.
  intros H R. apply reachable_setup in R as (e0 & H0 & S).
  rewrite (init_deterministic _ _ _ H H0). apply S.
Qed.

(** A call of the normaliser on an array of the length of its limits: no
    exception, and a component is finite exactly when its range is not
    zero. *)
Lemma _obsNormalizer_components (e : Env W) (l : Limits) (x : list R) :
  obs_limits e = Some l ->
  length (avg l) = length (diff l) ->
  length x = length (diff l) ->
  exists y,
    _obsNormalizer e x = Ok y /\
    forall i xi a d,
      x !! i = Some xi -> avg l !! i = Some a -> diff l !! i = Some d ->
      exists z, y !! i = Some z /\
                (d <> 0%R -> z = Fin ((xi - a) / d)) /\
                (d = 0%R -> Np.is_finite z = false).
Proof.
  intros Hl La Lx. unfold _obsNormalizer. rewrite Hl. cbn [getattr res_bind].
  rewrite normalize_same by congruence.
  eexists. split; [reflexivity|].
  intros i xi a d Hx Ha Hd.
  exists (Np.div (Fin (xi - a)) (Fin d)). split.
  - apply lookup_zip_with_Some. exists (xi - a)%R, d.
    split; [reflexivity|]. split; [|exact Hd].
    apply lookup_zip_with_Some. exists xi, a. auto.
  - split.
    + apply div_Fin_nonzero.
    + intros ->. apply div_Fin_zero.
Qed.

End Normalizer.

(** C7, the claim as stated fails: on a bench whose velocity limit is zero,
    so that the second component of the range is zero, construction with
    normalisation enabled succeeds; the later call of the normaliser does
    not raise either, it returns a NaN for that component. *)
Lemma zero_range_construction_succeeds :
  exists (e : Env (Bench.world 0)) (l : Limits) (y : ndarray),
    __init__ (Bench.config "dense" true 1) = Ok e /\
    obs_limits e = Some l /\
    diff l = [(1 - -1)%R; (0 - - 0)%R] /\
    (0 - - 0 = 0)%R /\
    _obsNormalizer e [0%R; 0%R] = Ok y /\
    y !! 1%nat = Some NaN.
Proof.
  destruct (init_ok (W := Bench.world 0) (Bench.config "dense" true 1)
              [0%R] 100)
    as (e & He).
  { reflexivity. }
  { vm_compute. reflexivity. }
  { reflexivity. }
  pose proof (init_Ok _ _ He) as (_ & _ & M & _).
  destruct (init_obs_limits _ _ He eq_refl) as (Ho & _).
  { now rewrite M. }
  rewrite M in Ho.
  exists e, (limits_of (obs_bounds (Bench.model 0))). eexists.
  split; [exact He|]. split; [exact Ho|]. split; [reflexivity|].
  split; [lra|].
  unfold _obsNormalizer. rewrite Ho. cbn [getattr res_bind].
  rewrite normalize_same by reflexivity.
  split; [reflexivity|].
  cbn. destruct (Req_dec_T (0 - - 0) 0) as [_|N]; [|exfalso; apply N; lra].
  unfold Np.inf_of_sign.
  rewrite (proj2 (Rltb_false 0 (0 - (0 + - 0) / 2))) by lra.
  rewrite (proj2 (Rltb_false (0 - (0 + - 0) / 2) 0)) by lra.
  reflexivity.
Qed.

(** C7 (as amended).  The range of the normaliser is not validated.
    Construction with normalisation enabled succeeds whether or not a
    component of the range [upper - lower] is zero, and stores that range;
    no later call of the normaliser on an array of the length of the limits
    raises: a component whose range is not zero is [(x - mid) / range], a
    component whose range is zero is an infinity or a NaN. *)
Theorem normalizer_range_not_validated {W : World} (p : Config)
  (weights : list R) (n : Z) :
  normalizeObs p = true ->
  @initial_weights W p = Ok weights ->
  step_budget p = Ok n ->
  length (lowerPositionLimit (designer_rmodel W (designer_new W)))
  = length (upperPositionLimit (designer_rmodel W (designer_new W))) ->
  exists (e : Env W) (l : Limits),
    __init__ p = Ok e /\
    obs_limits e = Some l /\
    diff l = zip_with Rminus (snd (obs_bounds (rmodel e)))
               (fst (obs_bounds (rmodel e))) /\
    forall (e' : Env W) (x : list R),
      reachable p e' -> length x = length (diff l) ->
      exists y,
        _obsNormalizer e' x = Ok y /\
        forall i xi a d,
          x !! i = Some xi -> avg l !! i = Some a -> diff l !! i = Some d ->
          exists z, y !! i = Some z /\
                    (d <> 0%R -> z = Fin ((xi - a) / d)) /\
                    (d = 0%R -> Np.is_finite z = false).
Proof.
  intros N Hw Hp Hl.
  destruct (init_ok p weights n Hw Hp (fun _ => Hl)) as (e & He).
  pose proof (init_Ok _ _ He) as (_ & _ & M & _).
  destruct (init_obs_limits _ _ He N) as (Ho & _).
  { now rewrite M. }
  exists e, (limits_of (obs_bounds (rmodel e))).
  split; [exact He|]. split; [exact Ho|]. split; [reflexivity|].
  intros e' x R Lx.
  apply _obsNormalizer_components.
  - now rewrite (reachable_obs_limits _ _ _ He R).
  - unfold limits_of. cbn [avg diff]. rewrite length_map.
    rewrite !length_zip_with. reflexivity.
  - exact Lx.
Qed.

Lemma normalizer_range_not_validated_witness :
  exists (e : Env (Bench.world 1)) (l : Limits),
    __init__ (Bench.config "dense" true 1) = Ok e /\
    obs_limits e = Some l.
Proof.
  destruct (normalizer_range_not_validated (W := Bench.world 1)
              (Bench.config "dense" true 1) [0%R] 100 eq_refl eq_refl)
    as (e & l & He & Ho & _).
  - vm_compute. reflexivity.
  - reflexivity.
  - exists e, l. auto.
Defined.

(** ** The on-target counter *)

Section Counter.

Context {W : World}.

Lemma _reward_on_target (e : Env W) (torques : list R) (o : Obs) (tr : bool)
  (r : npfloat) (i : Info) :
  _reward e torques o tr = Ok (r, i) ->
  info_on_target i = Np.lt (dst i) (Fin (threshold_success (params e))).
Proof.
  intros H. unfold _reward in H.
  apply res_bind_Ok in H as (v & _ & H).
  apply res_bind_Ok in H as (c & _ & H).
  apply res_bind_Ok in H as (delta & _ & H).
  apply res_bind_Ok in H as (ach & _ & H).
  apply res_bind_Ok in H as (des & _ & H).
  apply res_bind_Ok in H as (m & _ & H).
  apply res_bind_Ok in H as (x & _ & H).
  now injection H as _ <-.
Qed.

(** The counter after a returning [step]: one more on a hit, that is when
    the goal distance of the step is below the threshold, the same
    otherwise. *)
Lemma step_on_target (action : list R) (e e' : Env W) (res : StepResult) :
  step action e = (e', Ok res) ->
  info_on_target (infos res)
  = Np.lt (dst (infos res)) (Fin (threshold_success (params e))) /\
  on_target e'
  = (on_target e + (if info_on_target (infos res) then 1 else 0))%Z.
Proof.
  intros H.
  apply step_Ok in H as (torques & o & tr & r & i & _ & He & Hf).
  apply finish_infos in Hf as (-> & _ & _ & _ & _ & _ & _ & Hd & Hon & _).
  destruct (after_physics_frame torques e) as ((P & _) & _ & O & _).
  set (e1 := after_physics torques e) in *. clearbody e1.
  apply evaluate_Ok in He as (_ & _ & Hri).
  apply _reward_on_target in Hri.
  rewrite Hd, Hon, Hri, P. split; [reflexivity|].
  cbn [on_target set_on_target]. now rewrite O.
Qed.

End Counter.

(** C8, the claim as stated fails: on the bench with a time budget of one
    control period ([maxStep = 1]) and the target at the tool, two calls of
    [step] after a [reset] both return, both are hits, and the counter
    stands at 2, above [maxStep]. *)
Lemma on_target_exceeds_maxStep :
  exists (e0 e1 e2 : Env (Bench.world 1)) (r1 r2 : StepResult),
    __init__ (Bench.config "dense" false 0.01) = Ok e0 /\
    step [0%R] (fst (reset (Bench.override [0%R; 0%R; 0%R]) e0))
    = (e1, Ok r1) /\
    step [0%R] e1 = (e2, Ok r2) /\
    maxStep e2 = 1%Z /\ on_target e2 = 2%Z /\
    ~ (0 <= on_target e2 <= maxStep e2)%Z.
Proof.
  destruct (bench_init 1 "dense" Dense 0.01 1 eq_refl (bench_budget_short _ _))
    as (e0 & He0 & B0 & _ & _ & M0).
  destruct (bench_reset 1 _ _ _ _ 0%R e0 B0) as (B & _ & O & M).
  set (e := fst (reset (Bench.override [0%R; 0%R; 0%R]) e0)) in *.
  destruct (bench_step 1 Rlt_0_1 _ _ _ _ 0%R e B)
    as (e1 & r1 & c1 & Hs1 & B1 & _ & O1 & M1 & _).
  destruct (bench_step 1 Rlt_0_1 _ _ _ _ 0%R e1 B1)
    as (e2 & r2 & c2 & Hs2 & _ & _ & O2 & M2 & _).
  assert (On : Rltb (Rabs 0) 0.05 = true)
    by (rewrite Rabs_R0; apply Rltb_true; lra).
  rewrite On in O1, O2.
  assert (X : maxStep e2 = 1%Z).
  { rewrite M2, M1, M, M0. reflexivity. }
  exists e0, e1, e2, r1, r2.
  repeat split; try assumption; lia.
Qed.

(** C8 (as amended).  Between one [reset] and the next, a returning [step]
    adds 1 to [on_target] when the goal distance of the step is below the
    threshold and leaves it unchanged otherwise, so the counter never
    decreases; it lies between 0 and [timer], the number of calls of [step]
    since the reset, hence within [[0, maxStep]] as long as no more than
    [maxStep] calls were made. *)
Theorem on_target_counts_hits {W : World} (e0 e e' : Env W)
  (options : option (gmap string (list R))) (n : nat) (action : list R)
  (res : StepResult) :
  stepped (fst (reset options e0)) n e ->
  step action e = (e', Ok res) ->
  let hit := info_on_target (infos res) in
  hit = Np.lt (dst (infos res)) (Fin (threshold_success (params e))) /\
  on_target e' = (on_target e + (if hit then 1 else 0))%Z /\
  (on_target e <= on_target e')%Z /\
  (0 <= on_target e' <= timer e')%Z /\
  timer e' = (Z.of_nat n + 1)%Z /\
  ((Z.of_nat n + 1 <= maxStep e')%Z -> (0 <= on_target e' <= maxStep e')%Z).
Proof.
  intros Hst H hit.
  destruct (step_on_target _ _ _ _ H) as (Hhit & Ho).
  destruct (step_frame action e) as (_ & Ht & _). cbv zeta in Ht.
  rewrite H in Ht. cbn [fst] in Ht.
  apply stepped_frame in Hst as (_ & _ & Tn & On).
  destruct (reset_counters options e0) as (T0 & O0).
  rewrite T0 in Tn. rewrite O0 in On. fold hit in Ho.
  split; [exact Hhit|]. split; [exact Ho|].
  destruct hit; repeat split; lia.
Qed.

Lemma on_target_counts_hits_witness :
  exists (e e' : Env (Bench.world 1)) (res : StepResult),
    step [0%R] e = (e', Ok res) /\
    on_target e' = (on_target e + 1)%Z.
Proof.
  destruct (bench_init 1 "dense" Dense 1 100 eq_refl (bench_budget _ _))
    as (e0 & He0 & B0 & _).
  destruct (bench_reset 1 _ _ _ _ 0%R e0 B0) as (B & _).
  set (e := fst (reset (Bench.override [0%R; 0%R; 0%R]) e0)) in *.
  destruct (bench_step 1 Rlt_0_1 _ _ _ _ 0%R e B)
    as (e' & res & c & Hs & _ & _ & _ & _ & _ & _ & _ & _ & _ & _ & _ & _
        & Hon & _).
  exists e, e', res. split; [exact Hs|].
  destruct (on_target_counts_hits e0 e e' (Bench.override [0%R; 0%R; 0%R])
              0 [0%R] res (stepped_O _) Hs) as (_ & Ho & _).
  rewrite Ho, Hon, Rabs_R0, (proj2 (Rltb_true 0 0.05)) by lra. reflexivity.
Defined.

(** ** Action scaling *)

Section Scaling.

Context {W : World}.

(** The torque scale is the one set at construction. *)
Lemma reachable_torqueScale (p : Config) (e : Env W) :
  reachable p e ->
  torqueScale e = map (Rmult (torqueScaleCoeff p)) (effortLimit (rmodel e)).
Proof.
  intros H. apply reachable_setup in H as (e0 & H0 & S).
  destruct S as (_ & _ & M & _ & _ & _ & _ & T).
  apply init_Ok in H0 as (_ & _ & _ & _ & _ & _ & _ & _ & T0 & _).
  now rewrite T, M, T0.
Qed.

End Scaling.

(** C9.  For an action whose components all lie in [[-1, 1]], each scaled
    torque is bounded in magnitude by the scale of its joint, which is
    [torqueScaleCoeff] times the effort limit of the joint in the model:
    [|torque_i| <= torqueScaleCoeff * effortLimit_i], for a scale that is
    not negative (in general the bound is the magnitude of the scale). *)
Theorem scaled_torque_bound {W : World} (p : Config) (e : Env W)
  (action : list R) :
  reachable p e ->
  length action = length (effortLimit (rmodel e)) ->
  Forall (fun a => -1 <= a <= 1)%R action ->
  exists torques,
    _scaleAction e action = Ok torques /\
    length torques = length action /\
    forall i t,
      torques !! i = Some t ->
      exists lim a,
        effortLimit (rmodel e) !! i = Some lim /\
        action !! i = Some a /\
        t = (torqueScaleCoeff p * lim * a)%R /\
        (Rabs t <= Rabs (torqueScaleCoeff p * lim))%R /\
        ((0 <= torqueScaleCoeff p * lim)%R ->
         (Rabs t <= torqueScaleCoeff p * lim)%R).
Proof.
  intros Hr La Ha.
  unfold _scaleAction. rewrite (reachable_torqueScale p e Hr).
  rewrite broadcast_same by (now rewrite length_map).
  eexists. split; [reflexivity|].
  split; [rewrite length_zip_with_r_eq; [reflexivity | now rewrite length_map]|].
  intros i t Ht.
  apply lookup_zip_with_Some in Ht as (s & a & -> & Hs & Hai).
  apply lookup_map_Some in Hs as (lim & Hlim & ->).
  exists lim, a.
  assert (Ha1 : (-1 <= a <= 1)%R).
  { rewrite Forall_forall in Ha. apply Ha.
    apply list_elem_of_lookup. eauto. }
  assert (Hb : (Rabs (torqueScaleCoeff p * lim * a)
                <= Rabs (torqueScaleCoeff p * lim))%R).
  { rewrite Rabs_mult.
    assert (Rabs a <= 1)%R by (apply Rabs_le; lra).
    pose proof (Rabs_pos (torqueScaleCoeff p * lim)). nra. }
  repeat split; try assumption.
  intros Hs0. now rewrite (Rabs_pos_eq _ Hs0) in Hb.
Qed.

Lemma scaled_torque_bound_witness :
  exists (e : Env (Bench.world 1)) (torques : list R),
    _scaleAction e [0.5%R] = Ok torques /\
    forall i t, torques !! i = Some t -> (Rabs t <= 1 * 1)%R.
Proof.
  destruct (bench_init 1 "dense" Dense 1 100 eq_refl (bench_budget _ _))
    as (e & He & B & _).
  destruct B as (_ & M & _).
  destruct (scaled_torque_bound (Bench.config "dense" false 1) e [0.5%R]
              (reach_init _ _ He))
    as (torques & Hs & _ & Hb).
  - now rewrite M.
  - repeat constructor; lra.
  - exists e, torques. split; [exact Hs|].
    intros i t Ht. destruct (Hb i t Ht) as (lim & a & Hl & _ & _ & _ & Hle).
    rewrite M in Hl. destruct i as [|i]; [|discriminate].
    injection Hl as <-. apply Hle. cbn. lra.
Defined.

(** ** Termination is absorbing *)

(** C10.  Once a call of [step] has returned [terminated = true], every
    later call that returns, with any calls of [step] but none of [reset]
    in between, returns [terminated = true]: [step] adds one to [timer],
    never lowers [on_target] and leaves [maxStep] alone. *)
Theorem termination_is_absorbing {W : World} (e e1 e2 e3 : Env W)
  (a a' : list R) (r1 r3 : StepResult) (n : nat) :
  step a e = (e1, Ok r1) ->
  terminated r1 = true ->
  stepped e1 n e2 ->
  step a' e2 = (e3, Ok r3) ->
  terminated r3 = true /\
  timer e3 = (timer e2 + 1)%Z /\
  (on_target e2 <= on_target e3)%Z /\
  maxStep e3 = maxStep e1.
Proof.
  intros H1 T1 Hst H3.
  destruct (step_terminated _ _ _ _ H1) as (E1 & _).
  destruct (step_terminated _ _ _ _ H3) as (E3 & He3).
  rewrite E1 in T1. apply _checkTermination_true in T1.
  rewrite E3, _checkTermination_true.
  apply stepped_frame in Hst as ((_ & _ & _ & _ & X2 & _) & _ & T2 & O2).
  destruct (step_frame a' e2) as ((_ & _ & _ & _ & X3 & _) & T3 & _ & O3).
  cbv zeta in X3, T3, O3. rewrite <- He3 in X3, T3, O3.
  repeat split; lia.
Qed.

Lemma termination_is_absorbing_witness :
  exists (e1 e3 : Env (Bench.world 1)) (r1 r3 : StepResult),
    step [0%R] e1 = (e3, Ok r3) /\
    terminated r1 = true /\ terminated r3 = true.
Proof.
  destruct (bench_init 1 "dense" Dense 0.01 1 eq_refl (bench_budget_short _ _))
    as (e0 & He0 & B0 & T0 & _ & M0).
  destruct (bench_step 1 Rlt_0_1 _ _ _ _ 0%R e0 B0)
    as (e1 & r1 & c1 & Hs1 & B1 & T1 & _ & M1 & Ht1 & _).
  destruct (bench_step 1 Rlt_0_1 _ _ _ _ 0%R e1 B1)
    as (e3 & r3 & c3 & Hs3 & _).
  assert (X : terminated r1 = true).
  { rewrite Ht1. apply _checkTermination_true. left.
    rewrite T1, T0, M1, M0. lia. }
  exists e1, e3, r1, r3. split; [exact Hs3|]. split; [exact X|].
  exact (proj1 (termination_is_absorbing e0 e1 e1 e3 [0%R] [0%R] r1 r3 0
                  Hs1 X (stepped_O _) Hs3)).
Defined.

(** * Further properties of the environment *)

(** ** The success flag *)

Section Success.

Context {W : World}.

Lemma _reward_is_success (e : Env W) (torques : list R) (o : Obs) (tr : bool)
  (r : npfloat) (i : Info) :
  _reward e torques o tr = Ok (r, i) -> is_success i = None.
Proof.
  intros H. unfold _reward in H.
  apply res_bind_Ok in H as (v & _ & H).
  apply res_bind_Ok in H as (c & _ & H).
  apply res_bind_Ok in H as (delta & _ & H).
  apply res_bind_Ok in H as (ach & _ & H).
  apply res_bind_Ok in H as (des & _ & H).
  apply res_bind_Ok in H as (m & _ & H).
  apply res_bind_Ok in H as (x & _ & H).
  now injection H as _ <-.
Qed.

Lemma _reward_policy (e : Env W) (torques : list R) (o : Obs) (tr : bool)
  (r : npfloat) (i : Info) :
  _reward e torques o tr = Ok (r, i) -> compute_reward e <> None.
Proof.
  intros H. unfold _reward in H.
  apply res_bind_Ok in H as (v & _ & H).
  apply res_bind_Ok in H as (c & _ & H).
  apply res_bind_Ok in H as (delta & _ & H).
  apply res_bind_Ok in H as (ach & _ & H).
  apply res_bind_Ok in H as (des & _ & H).
  apply res_bind_Ok in H as (m & Hm & H).
  unfold call_compute_reward in Hm.
  destruct (compute_reward e); [discriminate | discriminate Hm].
Qed.

End Success.

(** X1. [infos["is_success"]] is set exactly on the steps that end the
    episode, to whether [on_target] exceeds 30; when it is [True] the step
    is reported as terminated. *)
Theorem is_success_on_final_steps {W : World} (e e' : Env W)
  (action : list R) (res : StepResult) :
  step action e = (e', Ok res) ->
  is_success (infos res)
  = (if terminated res || truncated res
     then Some (on_target e' >? 30)%Z else None) /\
  (is_success (infos res) = Some true -> terminated res = true).
Proof.
  intros H.
  apply step_Ok in H as (torques & o & tr & r & i & _ & He & Hf).
  apply evaluate_Ok in He as (_ & _ & Hri).
  apply _reward_is_success in Hri.
  unfold finish in Hf. set (e1 := set_on_target _ _) in Hf.
  injection Hf as <- <-. clearbody e1.
  cbn [infos terminated truncated].
  assert (E : is_success
                (if _checkTermination e1 || tr
                 then set_is_success (_checkSuccess e1) i else i)
              = if _checkTermination e1 || tr
                then Some (on_target e1 >? 30)%Z else None).
  { destruct (_checkTermination e1 || tr); [reflexivity | exact Hri]. }
  split; [exact E|].
  rewrite E. unfold _checkTermination.
  destruct ((timer e1 >? maxStep e1 - 1)%Z || (on_target e1 >? 30)%Z || tr) eqn:D;
    [|discriminate].
  intros [= ->]. apply orb_true_r.
Qed.

Lemma _scaleAction_misshapen {W : World} (e : Env W) (action : list R) :
  length action <> length (torqueScale e) ->
  length action <> 1%nat ->
  length (torqueScale e) <> 1%nat ->
  _scaleAction e action = Raise ValueError.
Proof.
  intros H1 H2 H3. unfold _scaleAction, broadcast.
  destruct (Nat.eqb_spec (length (torqueScale e)) (length action)) as [E|_];
    [congruence|].
  destruct (torqueScale e) as [|s [|s' ts]], action as [|a [|a' acts]];
    try reflexivity; cbn in *; congruence.
Qed.

(** X2. An action whose length differs from that of [torqueScale], neither
    of them being 1, makes [step] raise [ValueError]: the counter [timer]
    is already incremented, the simulator has received no call. *)
Theorem step_rejects_misshapen_action {W : World} (e : Env W)
  (action : list R) :
  length action <> length (torqueScale e) ->
  length action <> 1%nat ->
  length (torqueScale e) <> 1%nat ->
  step action e = (set_timer (timer e + 1) e, Raise ValueError) /\
  sim_log (fst (step action e)) = sim_log e /\
  timer (fst (step action e)) = (timer e + 1)%Z.
Proof.
  intros H1 H2 H3.
  assert (E : step action e = (set_timer (timer e + 1) e, Raise ValueError)).
  { rewrite step_unfold.
    now rewrite (_scaleAction_misshapen e action H1 H2 H3). }
  rewrite E. auto.
Qed.

(** ** An unknown [rewardType] *)

Lemma bind_compute_reward_None (p : Config) :
  reward_type p <> "dense"%string -> reward_type p <> "sparse"%string ->
  bind_compute_reward p = None.
Proof.
  intros H1 H2. unfold bind_compute_reward.
  destruct (String.eqb_spec (reward_type p) "dense"); [contradiction|].
  destruct (String.eqb_spec (reward_type p) "sparse"); [contradiction|].
  reflexivity.
Qed.

Lemma reachable_compute_reward {W : World} (p : Config) (e : Env W) :
  reachable p e -> compute_reward e = bind_compute_reward p.
Proof.
  intros H. apply reachable_setup in H as (e0 & H0 & S).
  destruct S as (_ & C & _).
  apply init_Ok in H0 as (_ & C0 & _). congruence.
Qed.

(** X3. With a [rewardType] other than "dense" and "sparse",
    [compute_reward] is never bound, and no call of [step] returns. *)
Theorem unknown_rewardType_breaks_step {W : World} (p : Config) (e : Env W)
  (action : list R) :
  reward_type p <> "dense"%string ->
  reward_type p <> "sparse"%string ->
  reachable p e ->
  compute_reward e = None /\
  exists x, snd (step action e) = Raise x.
Proof.
  intros H1 H2 Hr.
  assert (C : compute_reward e = None).
  { rewrite (reachable_compute_reward p e Hr).
    now apply bind_compute_reward_None. }
  split; [exact C|].
  destruct (step action e) as [e' [res|x]] eqn:H; [|eauto].
  exfalso.
  apply step_Ok in H as (torques & o & tr & r & i & _ & He & _).
  apply evaluate_Ok in He as (_ & _ & Hri).
  apply _reward_policy in Hri. apply Hri.
  destruct (after_physics_frame torques e) as ((_ & C' & _) & _).
  congruence.
Qed.

Lemma unknown_rewardType_breaks_step_witness :
  exists (e : Env (Bench.world 1)) (e' : Env (Bench.world 1)),
    __init__ (Bench.config "Dense" false 1) = Ok e /\
    step [0%R] e = (e', Raise AttributeError) /\
    sim_log e' = sim_log e ++ replicate 10 (CallStep [(1 * 1 * 0)%R])
                 ++ [CallGetRobotState; CallGetRobotPos].
Proof.
  destruct (init_ok (W := Bench.world 1) (Bench.config "Dense" false 1)
              [0%R] 100)
    as (e & He).
  { reflexivity. }
  { vm_compute. reflexivity. }
  { discriminate. }
  destruct (unknown_rewardType_breaks_step (Bench.config "Dense" false 1) e
              [0%R]) as (C & x & Hx).
  { discriminate. }
  { discriminate. }
  { now apply reach_init. }
  pose proof (init_Ok _ _ He)
    as (P & _ & M & _ & _ & G & _ & _ & T & (w & Hw & D) & _).
  injection Hw as <-.
  exists e, (after_physics [(1 * 1 * 0)%R] e).
  split; [exact He|].
  assert (S : step [0%R] e
              = (after_physics [(1 * 1 * 0)%R] e, Raise AttributeError)).
  { assert (Hs : _scaleAction e [0%R] = Ok [(1 * 1 * 0)%R])
      by (unfold _scaleAction; rewrite T, M; reflexivity).
    rewrite step_unfold, Hs.
    cbv zeta.
    set (torques := [(1 * 1 * 0)%R]).
    destruct (after_physics_frame torques e)
      as ((P' & C' & M' & D' & _) & _ & _ & G' & Co & _).
    unfold evaluate, _getObservation. rewrite P', P, G', G.
    cbn [normalizeObs Bench.config res_bind].
    unfold _checkTruncation. rewrite Co, P', P, M', M.
    cbn. unfold Rgtb. rewrite Rabs_R0.
    repeat match goal with
    | |- context [Rltb ?a ?b] =>
        first [ rewrite (proj2 (Rltb_true a b)) by lra
              | rewrite (proj2 (Rltb_false a b)) by lra ]
    end.
    cbn. unfold _reward, call_compute_reward.
    rewrite M', M, D', D, C', C. cbn. reflexivity. }
  split; [exact S|].
  destruct (after_physics_frame [(1 * 1 * 0)%R] e) as (_ & _ & _ & _ & _ & L).
  rewrite L, P. reflexivity.
Defined.

Lemma is_success_on_final_steps_witness :
  exists (e e' : Env (Bench.world 1)) (res : StepResult),
    step [0%R] e = (e', Ok res) /\
    is_success (infos res)
    = (if terminated res || truncated res
       then Some (on_target e' >? 30)%Z else None).
Proof.
  destruct (bench_init 1 "dense" Dense 1 100 eq_refl (bench_budget _ _))
    as (e & _ & B & _).
  destruct (bench_step 1 Rlt_0_1 _ _ _ _ 0%R e B) as (e' & res & c & Hs & _).
  exists e, e', res. split; [exact Hs|].
  exact (proj1 (is_success_on_final_steps e e' [0%R] res Hs)).
Defined.

Lemma step_rejects_misshapen_action_witness :
  let e : Env (Bench.world 1) :=
    set_torqueScale [1%R; 1%R] (blank (Bench.config "dense" false 1) [0%R]) in
  step [0%R; 0%R; 0%R] e = (set_timer (timer e + 1) e, Raise ValueError).
Proof.
  intros e.
  refine (proj1 (step_rejects_misshapen_action e [0%R; 0%R; 0%R] _ _ _));
    cbn; lia.
Defined.

(** ** Goals under normalisation *)



Section NormalisedGoals.

Context {W : World}.




End NormalisedGoals.



(** ** What [reset] returns *)

Section ResetFacts.

Context {W : World}.

Lemma after_reset_shaped (options : option (gmap string (list R)))
  (e : Env W) :
  shaped_setup e -> shaped_setup (after_reset options e).
Proof.
  intros S. apply (shaped_setup_same e); [|exact S].
  apply after_reset_frame.
Qed.

End ResetFacts.

Lemma reset_ok {W : World}
  (options : option (gmap string (list R))) (e : Env W) :
  shaped_setup e ->
  length (position_target (resolved options (target e))) = 3%nat ->
  exists o,
    reset options e
    = (after_reset options e,
       Ok (o, {| reset_dst :=
                   Rnorm (zip_with Rminus
                            (get_end_effector_pos W
                               (pinWrapper (after_reset options e)))
                            (position_target (resolved options (target e))));
                 reset_tor := 0; reset_init := 0 |})) /\
    length (observation o) = (nq (rmodel e) + nv (rmodel e))%nat /\
    length (achieved_goal o) = 3%nat /\
    length (desired_goal o) = 3%nat.
Proof.
  intros S Lt. rewrite reset_unfold. unfold reset_output.
  pose proof (after_reset_shaped options e S) as S'.
  destruct (after_reset_frame options e)
    as ((_ & _ & M & _) & _ & _ & T & _).
  set (e1 := after_reset options e) in *. clearbody e1.
  rewrite broadcast_same
    by (rewrite T, Lt; apply (sw_ee _ _ (ss_world _ S'))).
  cbn [res_bind].
  destruct (_getObservation_ok e1 (getRobotState W (simulator e1)) S')
    as (o & Ho & L1 & L2 & L3).
  { apply (sw_state _ _ (ss_world _ S')). }
  { now rewrite T. }
  rewrite Ho. cbn [res_bind]. exists o. rewrite T, <- M. auto.
Qed.

(** X5. On well-shaped data [reset] returns; its info holds the metric
    distance between the tool and the new target, whether or not the
    observations are normalised, and zeros for [tor] and [init]. *)
Theorem reset_reports_metric_distance {W : World}
  (options : option (gmap string (list R))) (e : Env W) :
  shaped_setup e ->
  length (position_target (resolved options (target e))) = 3%nat ->
  exists o i,
    snd (reset options e) = Ok (o, i) /\
    reset_dst i
    = Rnorm (zip_with Rminus
               (get_end_effector_pos W (pinWrapper (fst (reset options e))))
               (position_target (target (fst (reset options e))))) /\
    reset_tor i = 0%R /\ reset_init i = 0%R.
Proof.
  intros S Lt. destruct (reset_ok options e S Lt) as (o & Ho & _).
  destruct (after_reset_frame options e) as (_ & _ & _ & T & _).
  rewrite Ho. cbn [fst snd]. rewrite T. eauto 6.
Qed.

Lemma reset_reports_metric_distance_witness :
  exists (e : Env (Bench.world 1)) (o : Obs) (i : ResetInfo),
    snd (reset (Bench.override [3%R; 0%R; 0%R]) e) = Ok (o, i) /\
    reset_dst i
    = Rnorm (zip_with Rminus [0%R; 0%R; 0%R] [3%R; 0%R; 0%R]).
Proof.
  destruct (bench_init 1 "dense" Dense 1 100 eq_refl (bench_budget _ _))
    as (e & _ & B & _).
  destruct (reset_reports_metric_distance (Bench.override [3%R; 0%R; 0%R]) e)
    as (o & i & Ho & Hd & _).
  - exact (bench_state_shaped 1 _ _ _ _ e B).
  - reflexivity.
  - exists e, o, i. split; [exact Ho|]. rewrite Hd.
    unfold Bench.override.
    rewrite (reset_overrides {[ "target"%string := [3%R; 0%R; 0%R] ]}
               [3%R; 0%R; 0%R] e) by reflexivity.
    reflexivity.
Defined.

(** X6. On well-shaped data, [reset] followed by [step] with an action of
    [nq] entries does not raise; [timer] is then 1 and [on_target] is 0
    or 1. *)
Theorem reset_then_step_returns {W : World}
  (options : option (gmap string (list R))) (e : Env W) (action : list R) :
  shaped_setup e ->
  length (position_target (resolved options (target e))) = 3%nat ->
  length action = nq (rmodel e) ->
  exists e1 o i e2 res,
    reset options e = (e1, Ok (o, i)) /\ step action e1 = (e2, Ok res) /\
    timer e2 = 1%Z /\
    (on_target e2 = 0 \/ on_target e2 = 1)%Z.
Proof.
  intros S Lt La.
  destruct (reset_ok options e S Lt) as (o & Ho & _).
  pose proof (after_reset_shaped options e S) as S'.
  destruct (after_reset_frame options e)
    as ((_ & _ & M & _) & Ti & On & T & _).
  destruct (step_ok action (after_reset options e) S') as (e2 & res & Hs).
  { now rewrite T. }
  { now rewrite M. }
  eexists _, o, _, e2, res. split; [exact Ho|]. split; [exact Hs|].
  destruct (step_frame action (after_reset options e)) as (_ & F).
  rewrite Hs in F. cbn [fst] in F.
  destruct (step_on_target _ _ _ _ Hs) as (_ & O2).
  split; [lia|]. rewrite O2, On.
  destruct (info_on_target (infos res)); lia.
Qed.

Lemma reset_then_step_returns_witness :
  exists (e e1 e2 : Env (Bench.world 1)) o i res,
    reset None e = (e1, Ok (o, i)) /\ step [0%R] e1 = (e2, Ok res).
Proof.
  destruct (bench_init 1 "dense" Dense 1 100 eq_refl (bench_budget _ _))
    as (e & _ & B & _).
  destruct (reset_then_step_returns None e [0%R])
    as (e1 & o & i & e2 & res & H1 & H2 & _).
  - exact (bench_state_shaped 1 _ _ _ _ e B).
  - reflexivity.
  - destruct B as (_ & M & _). now rewrite M.
  - now exists e, e1, e2, o, i, res.
Defined.

(** ** The range of the normalisers *)



(** ** The rest-pose cost *)

Lemma np_diag_cons (x : R) (d : list R) :
  np_diag (x :: d)
  = (x :: map (fun _ => 0%R) d) :: map (cons 0%R) (np_diag d).
Proof.
  unfold np_diag.
  change (imap (fun i _ => imap (fun j y => if (i =? j)%nat then y else 0%R)
                             (x :: d)) (x :: d))
    with ((x :: imap (const (fun _ : R => 0%R)) d)
          :: imap (fun i (_ : R) =>
                     0%R :: imap (fun j y => if (i =? j)%nat then y else 0%R) d)
               d).
  rewrite imap_const. f_equal.
  change (map (cons 0%R)
            (imap (fun i (_ : R) =>
                     imap (fun j y => if (i =? j)%nat then y else 0%R) d) d))
    with (cons 0%R <$>
            (imap (fun i (_ : R) =>
                     imap (fun j y => if (i =? j)%nat then y else 0%R) d) d)).
  rewrite fmap_imap. reflexivity.
Qed.

Lemma sum_app (a b : list R) :
  fold_right Rplus 0%R (a ++ b)
  = (fold_right Rplus 0%R a + fold_right Rplus 0%R b)%R.
Proof. induction a as [|x a IH]; simpl; [lra | rewrite IH; lra]. Qed.

Lemma sum_zero_row (u : list R) (d : list R) :
  fold_right Rplus 0%R
    (zip_with Rmult (zip_with Rmult u (map (fun _ => 0%R) d)) u) = 0%R.
Proof.
  revert d. induction u as [|a u IH]; intros [|y d]; simpl; try reflexivity.
  rewrite IH. lra.
Qed.

Lemma sum_diag_rows (a : R) (u : list R) (rows : list (list R)) :
  fold_right Rplus 0%R
    (concat (map (fun row => zip_with Rmult (zip_with Rmult (a :: u) row)
                               (a :: u))
               (map (cons 0%R) rows)))
  = fold_right Rplus 0%R
      (concat (map (fun row => zip_with Rmult (zip_with Rmult u row) u) rows)).
Proof.
  induction rows as [|row rows IH]; [reflexivity|].
  cbn [map concat zip_with]. rewrite !sum_app.
  cbn [map concat zip_with] in IH. rewrite IH. simpl. lra.
Qed.

Lemma sum_np_diag (weights u : list R) :
  length weights = length u ->
  fold_right Rplus 0%R
    (concat (map (fun row => zip_with Rmult (zip_with Rmult u row) u)
               (np_diag weights)))
  = weighted_squares weights u.
Proof.
  revert u. induction weights as [|w weights IH]; intros [|a u] E;
    try discriminate; [reflexivity|].
  rewrite np_diag_cons. cbn [map concat]. rewrite sum_app, sum_diag_rows.
  rewrite IH by (simpl in E; lia).
  unfold weighted_squares. cbn [zip_with fold_right].
  rewrite sum_zero_row. lra.
Qed.

Lemma quadratic_form_np_diag (weights u : list R) :
  length weights = length u ->
  quadratic_form (map Fin u) (np_diag weights)
  = Ok (Fin (weighted_squares weights u)).
Proof.
  intros E. rewrite quadratic_form_Fin.
  - now rewrite sum_np_diag.
  - rewrite <- E. apply np_diag_rows.
Qed.

Lemma reachable_mat_dt_init {W : World} (p : Config) (e : Env W)
  (weights : list R) :
  reachable p e -> @initial_weights W p = Ok weights ->
  mat_dt_init e = np_diag weights.
Proof.
  intros H Hw. apply reachable_setup in H as (e0 & H0 & S).
  destruct S as (_ & _ & _ & D & _).
  apply init_Ok in H0 as (_ & _ & _ & _ & _ & _ & _ & _ & _ & (w & Hw' & D0) & _).
  congruence.
Qed.

(** X8. Without normalisation, [infos["init"]] is the sum over the joints
    of the weight of the joint times the squared deviation of its position
    from the rest posture [qC0]. *)
Theorem step_rest_pose_cost {W : World} (p : Config) (e e' : Env W)
  (action : list R) (res : StepResult) (weights : list R) :
  reachable p e ->
  normalizeObs p = false ->
  @initial_weights W p = Ok weights ->
  step action e = (e', Ok res) ->
  let q0 := qC0 W (simulator e') in
  let q := firstn (nq (rmodel e)) (getRobotState W (simulator e')) in
  length q0 = length weights ->
  length q = length weights ->
  init (infos res)
  = Fin (weighted_squares weights (zip_with Rminus q0 q)).
Proof.
  intros Hr N Hw H q0 q L0 L.
  pose proof (reachable_mat_dt_init p e weights Hr Hw) as D.
  assert (P : params e = p).
  { apply reachable_setup in Hr as (e0 & H0 & S).
    destruct S as (P & _). apply init_Ok in H0 as (P0 & _). congruence. }
  apply step_Ok in H as (torques & o & tr & r & i & _ & He & Hf).
  apply finish_infos in Hf as (-> & _ & _ & _ & _ & _ & Hinit & _).
  destruct (after_physics_frame torques e)
    as ((P' & _ & M' & D' & _) & _).
  cbn [simulator set_on_target] in q0, q, L0, L.
  set (e1 := after_physics torques e) in *. clearbody e1.
  apply evaluate_Ok in He as (Ho & _ & Hri).
  unfold _getObservation in Ho. rewrite P', P, N in Ho.
  injection Ho as <-.
  apply _reward_init in Hri as (v & Hv & Hq).
  cbn [observation] in Hv. unfold slice_to in Hv.
  rewrite M', firstn_map in Hv. fold q in Hv. fold q0 in Hv.
  rewrite broadcast_same in Hv by (rewrite !length_map; congruence).
  injection Hv as <-. rewrite zip_with_sub_Fin in Hq.
  rewrite D', D, quadratic_form_np_diag in Hq.
  - rewrite Hinit. now injection Hq as <-.
  - rewrite length_zip_with_l_eq; congruence.
Qed.

Lemma step_rest_pose_cost_witness :
  exists (e e' : Env (Bench.world 1)) (res : StepResult),
    step [0%R] e = (e', Ok res) /\
    init (infos res)
    = Fin (weighted_squares [0%R] (zip_with Rminus [0%R] [0%R])).
Proof.
  destruct (bench_init 1 "dense" Dense 1 100 eq_refl (bench_budget _ _))
    as (e & He & B & _).
  destruct (bench_step 1 Rlt_0_1 _ _ _ _ 0%R e B) as (e' & res & c & Hs & _).
  exists e, e', res. split; [exact Hs|].
  destruct B as (_ & M & _).
  pose proof (step_rest_pose_cost (Bench.config "dense" false 1) e e' [0%R]
                res [0%R] (reach_init _ _ He) eq_refl eq_refl Hs) as H.
  cbv zeta in H. rewrite M in H. apply H; reflexivity.
Defined.

(** ** The reward of a batch *)

Section Batches.

Context {W : World}.

Lemma length_np_empty (r c : nat) : length (np_empty W r c) = r.
Proof. unfold np_empty. now rewrite length_map, length_seq. Qed.

Lemma fill_info_matrix_rows (info : list Info) :
  Forall (fun inf => length (param_rew inf) = 3%nat) info ->
  forall (i : nat) (m : list ndarray),
    (i + length info <= length m)%nat ->
    fill_info_matrix i info m
    = Ok (take i m ++ map param_rew info ++ drop (i + length info) m).
Proof.
  induction 1 as [|inf info Hi _ IH]; intros i m L.
  - cbn. rewrite Nat.add_0_r, take_drop. reflexivity.
  - cbn [fill_info_matrix length] in *.
    destruct (Nat.ltb_spec i (length m)) as [Lt|]; [|lia].
    rewrite assign_row_same by exact Hi. cbn [res_bind].
    rewrite IH by (rewrite length_insert; lia).
    rewrite (take_S_r _ _ (param_rew inf))
      by (apply list_lookup_insert_eq; exact Lt).
    rewrite take_insert_ge by lia.
    rewrite drop_insert_lt by lia.
    rewrite <- app_assoc. cbn. repeat f_equal. lia.
Qed.

Lemma fill_info_matrix_overflow (info : list Info) :
  Forall (fun inf => length (param_rew inf) = 3%nat) info ->
  forall (i : nat) (m : list ndarray),
    (i <= length m < i + length info)%nat ->
    fill_info_matrix i info m = Raise IndexError.
Proof.
  induction 1 as [|inf info Hi _ IH]; intros i m L.
  - cbn in L. lia.
  - cbn [fill_info_matrix length] in *.
    destruct (Nat.ltb_spec i (length m)) as [Lt|]; [|reflexivity].
    rewrite assign_row_same by exact Hi. cbn [res_bind].
    apply IH. rewrite length_insert. lia.
Qed.

Lemma goal_distances_batch (achieved desired : list ndarray) :
  Forall2 (fun a d => length a = length d) achieved desired ->
  goal_distances achieved desired
  = Ok (zip_with (fun a d => Np.norm (zip_with Np.sub a d)) achieved desired).
Proof.
  intros H. unfold goal_distances, broadcast2.
  rewrite broadcast_same by (eapply Forall2_length; exact H).
  cbn [res_bind].
  assert (E : res_sequence (zip_with (broadcast Np.sub) achieved desired)
              = Ok (zip_with (zip_with Np.sub) achieved desired)).
  { induction H as [|a d achieved desired Had _ IH]; [reflexivity|].
    cbn [zip_with res_sequence]. rewrite broadcast_same by exact Had.
    now rewrite IH. }
  rewrite E. cbn [res_bind]. f_equal. clear.
  revert desired. induction achieved as [|a achieved IH]; intros [|d desired];
    cbn; try reflexivity.
  now rewrite IH.
Qed.

Lemma matmul_col_rows (rows : list ndarray) (coeff : ndarray) :
  Forall (fun row => length row = length coeff) rows ->
  matmul_col rows coeff
  = Ok (map (fun row => [Np.sum (zip_with Np.mul row coeff)]) rows).
Proof.
  intros H. unfold matmul_col. apply res_sequence_map_Ok.
  eapply Forall_impl; [exact H|]. intros row E. cbv beta.
  unfold dot. now rewrite E, Nat.eqb_refl.
Qed.

Lemma zip_with_app_map {A B C} (f : A -> list C) (g : B -> list C)
  (a : list A) (b : list B) :
  zip_with (@app C) (map f a) (map g b)
  = zip_with (fun x y => f x ++ g y) a b.
Proof.
  revert b. induction a as [|x a IH]; intros [|y b]; cbn; try reflexivity.
  now rewrite IH.
Qed.

Lemma np_empty_rows (r c : nat) :
  Forall (fun row => length row = c) (np_empty W r c).
Proof.
  apply Forall_forall. intros row Hin. unfold np_empty in Hin.
  apply list_elem_of_In, in_map_iff in Hin as (i & <- & _).
  now rewrite length_map, length_seq.
Qed.

Lemma filled_info_matrix_rows (n : nat) (info : list Info) :
  Forall (fun inf => length (param_rew inf) = 3%nat) info ->
  Forall (fun row => length row = 3%nat) (filled_info_matrix W n info).
Proof.
  intros Hp. apply Forall_app. split.
  - apply Forall_forall. intros row Hin.
    apply list_elem_of_In, in_map_iff in Hin as (inf & <- & Hin).
    rewrite Forall_forall in Hp. apply Hp. now apply list_elem_of_In.
  - apply Forall_drop, np_empty_rows.
Qed.

Lemma length_filled_info_matrix (n : nat) (info : list Info) :
  (length info <= n)%nat -> length (filled_info_matrix W n info) = n.
Proof.
  intros L. unfold filled_info_matrix.
  rewrite length_app, length_map, length_drop, length_np_empty. lia.
Qed.

Lemma zip_with_app_singleton {A B} (g : B -> A) (a : list (list A))
  (b : list B) :
  zip_with (@app A) a (map (fun y => [g y]) b)
  = zip_with (fun x y => x ++ [g y]) a b.
Proof.
  revert b. induction a as [|x a IH]; intros [|y b]; cbn; try reflexivity.
  now rewrite IH.
Qed.

Lemma policy_batch (feature : npfloat -> npfloat) (coeff : ndarray)
  (achieved desired : list ndarray) (info : list Info) :
  length coeff = 4%nat ->
  (length info <= length achieved)%nat ->
  Forall2 (fun a d => length a = length d) achieved desired ->
  Forall (fun inf => length (param_rew inf) = 3%nat) info ->
  (let* dst := goal_distances achieved desired in
   let* info_matrix :=
     fill_info_matrix 0 info (np_empty W (length achieved) 3) in
   let* info_matrix :=
     concatenate_axis1 info_matrix (map (fun d => [feature d]) dst) in
   matmul_col info_matrix coeff)%res
  = Ok (batch_rows feature coeff achieved desired
          (filled_info_matrix W (length achieved) info)).
Proof.
  intros Lc Li Hg Hp. rewrite goal_distances_batch by exact Hg.
  cbn [res_bind].
  rewrite (fill_info_matrix_rows info Hp)
    by (rewrite length_np_empty; lia).
  rewrite take_0. cbn [app res_bind plus].
  change (map param_rew info
          ++ drop (length info) (np_empty W (length achieved) 3))
    with (filled_info_matrix W (length achieved) info).
  pose proof (Forall2_length _ _ _ Hg) as Ld.
  unfold concatenate_axis1.
  rewrite length_filled_info_matrix, length_map, length_zip_with_l_eq,
    Nat.eqb_refl by assumption.
  cbn [res_bind].
  rewrite (zip_with_app_singleton (A := npfloat) feature).
  apply matmul_col_rows.
  apply Forall_forall. intros row Hin.
  apply list_elem_of_lookup in Hin as (k & Hk).
  apply lookup_zip_with_Some in Hk as (r & d & -> & Hr & _).
  rewrite length_app, Lc. cbn.
  pose proof (filled_info_matrix_rows (length achieved) info Hp) as F.
  rewrite Forall_forall in F.
  rewrite (F r) by (eapply list_elem_of_lookup_2; exact Hr). reflexivity.
Qed.

Lemma call_compute_reward_batch (e : Env W) (pol : RewardPolicy)
  (achieved desired : list ndarray) (info : list Info) :
  compute_reward e = Some pol ->
  (length info <= length achieved)%nat ->
  Forall2 (fun a d => length a = length d) achieved desired ->
  Forall (fun inf => length (param_rew inf) = 3%nat) info ->
  call_compute_reward e achieved desired info
  = Ok (batch_rows (policy_feature e pol) (policy_coeff e pol)
          achieved desired (filled_info_matrix W (length achieved) info)).
Proof.
  intros C Li Hg Hp. unfold call_compute_reward. rewrite C.
  cbn [getattr res_bind]. destruct pol.
  - apply (policy_batch (fun d => d) (dense_coeff e)); auto.
  - apply (policy_batch (reached_feature e) (sparse_coeff e)); auto.
Qed.

Lemma length_batch_rows (feature : npfloat -> npfloat) (coeff : ndarray)
  (achieved desired : list ndarray) (rows : list ndarray) :
  length rows = length achieved -> length achieved = length desired ->
  length (batch_rows feature coeff achieved desired rows) = length achieved.
Proof.
  intros Lr Ld. unfold batch_rows.
  rewrite length_map, length_zip_with_l_eq; [exact Lr|].
  rewrite length_zip_with_l_eq; [exact Lr | exact Ld].
Qed.

Lemma lookup_batch_rows (feature : npfloat -> npfloat) (coeff : ndarray)
  (achieved desired : list ndarray) (rows : list ndarray) (k : nat)
  (a d row : ndarray) :
  achieved !! k = Some a -> desired !! k = Some d -> rows !! k = Some row ->
  batch_rows feature coeff achieved desired rows !! k
  = Some [Np.sum (zip_with Np.mul
                    (row ++ [feature (Np.norm (zip_with Np.sub a d))])
                    coeff)].
Proof.
  intros Ha Hd Hr. unfold batch_rows.
  apply lookup_map_Some. eexists. split; [|reflexivity].
  apply lookup_zip_with_Some. eexists row, _. split; [reflexivity|].
  split; [exact Hr|].
  apply lookup_zip_with_Some. exists a, d. auto.
Qed.

End Batches.

(** X9. On a batch with one info per transition, [compute_reward] returns
    one reward per transition, each equal to the reward computed for that
    transition alone. *)
Theorem batched_reward_is_rowwise {W : World} (e : Env W)
  (achieved desired : list ndarray) (info : list Info) :
  compute_reward e <> None ->
  length info = length achieved ->
  Forall2 (fun a d => length a = length d) achieved desired ->
  Forall (fun inf => length (param_rew inf) = 3%nat) info ->
  exists rs,
    call_compute_reward e achieved desired info = Ok rs /\
    length rs = length achieved /\
    forall k a d inf,
      achieved !! k = Some a -> desired !! k = Some d ->
      info !! k = Some inf ->
      exists r, rs !! k = Some [r] /\
                call_compute_reward e [a] [d] [inf] = Ok [[r]].
Proof.
  intros C Li Hg Hp. destruct (compute_reward e) as [pol|] eqn:Hc;
    [clear C | contradiction].
  rewrite (call_compute_reward_batch e pol) by (assumption || lia).
  pose proof (Forall2_length _ _ _ Hg) as Ld.
  eexists. split; [reflexivity|]. split.
  { apply length_batch_rows; [|exact Ld].
    apply length_filled_info_matrix. lia. }
  intros k a d inf Ha Hd Hinf. eexists. split.
  - apply (lookup_batch_rows _ _ _ _ _ k a d (param_rew inf) Ha Hd).
    unfold filled_info_matrix. rewrite lookup_app_l.
    + apply lookup_map_Some. now exists inf.
    + rewrite length_map. eapply lookup_lt_Some. exact Hinf.
  - rewrite (call_compute_reward_batch e pol); try assumption.
    + reflexivity.
    + cbn. lia.
    + constructor; [|constructor].
      exact (Forall2_lookup_lr _ _ _ k a d Hg Ha Hd).
    + constructor; [|constructor].
      rewrite Forall_forall in Hp. apply Hp.
      eapply list_elem_of_lookup_2; exact Hinf.
Qed.

(** X10. With fewer infos than transitions, the rewards of the transitions
    without info are computed from the uninitialised rows of
    [np.empty]. *)
Theorem missing_info_reads_uninitialised {W : World} (e : Env W)
  (pol : RewardPolicy) (achieved desired : list ndarray) (info : list Info) :
  compute_reward e = Some pol ->
  (length info <= length achieved)%nat ->
  Forall2 (fun a d => length a = length d) achieved desired ->
  Forall (fun inf => length (param_rew inf) = 3%nat) info ->
  exists rs,
    call_compute_reward e achieved desired info = Ok rs /\
    forall k a d,
      (length info <= k)%nat ->
      achieved !! k = Some a -> desired !! k = Some d ->
      rs !! k
      = Some [Np.sum
                (zip_with Np.mul
                   [uninitialised W k 0; uninitialised W k 1;
                    uninitialised W k 2;
                    policy_feature e pol (Np.norm (zip_with Np.sub a d))]
                   (policy_coeff e pol))].
Proof.
  intros C Li Hg Hp.
  rewrite (call_compute_reward_batch e pol) by assumption.
  eexists. split; [reflexivity|].
  intros k a d Lk Ha Hd.
  apply (lookup_batch_rows _ _ _ _ _ k a d
           [uninitialised W k 0; uninitialised W k 1; uninitialised W k 2]
           Ha Hd).
  unfold filled_info_matrix.
  rewrite lookup_app_r; rewrite length_map; [|exact Lk].
  rewrite lookup_drop.
  replace (length info + (k - length info))%nat with k by lia.
  unfold np_empty. apply lookup_map_Some. exists k. split; [|reflexivity].
  apply lookup_seq. split; [reflexivity|].
  eapply lookup_lt_Some. exact Ha.
Qed.

(** X11. With more infos than transitions, [compute_reward] raises
    [IndexError]. *)
Theorem surplus_info_raises_IndexError {W : World} (e : Env W)
  (achieved desired : list ndarray) (info : list Info) :
  compute_reward e <> None ->
  (length achieved < length info)%nat ->
  Forall2 (fun a d => length a = length d) achieved desired ->
  Forall (fun inf => length (param_rew inf) = 3%nat) info ->
  call_compute_reward e achieved desired info = Raise IndexError.
Proof.
  intros C Li Hg Hp. unfold call_compute_reward.
  destruct (compute_reward e) as [pol|]; [clear C | contradiction].
  cbn [getattr res_bind].
  destruct pol; unfold compute_reward_dense, compute_reward_sparse;
    rewrite goal_distances_batch by exact Hg; cbn [res_bind];
    rewrite (fill_info_matrix_overflow info Hp)
      by (rewrite length_np_empty; lia);
    reflexivity.
Qed.

Lemma batched_reward_is_rowwise_witness :
  let e : Env (Bench.world 1) := blank (Bench.config "dense" false 1) [0%R] in
  let i0 := {| param_rew := [Fin 0; Fin 0; Fin 1]; tor := 0; init := Fin 0;
               dst := Fin 0; info_on_target := true; is_success := None |} in
  let i1 := {| param_rew := [Fin 2; Fin 0; Fin 1]; tor := 2; init := Fin 0;
               dst := Fin 1; info_on_target := false; is_success := None |} in
  exists rs,
    call_compute_reward e
      [[Fin 0; Fin 0; Fin 0]; [Fin 1; Fin 0; Fin 0]]
      [[Fin 0; Fin 0; Fin 0]; [Fin 0; Fin 0; Fin 0]] [i0; i1] = Ok rs /\
    length rs = 2%nat.
Proof.
  intros e i0 i1.
  destruct (batched_reward_is_rowwise e
              [[Fin 0; Fin 0; Fin 0]; [Fin 1; Fin 0; Fin 0]]
              [[Fin 0; Fin 0; Fin 0]; [Fin 0; Fin 0; Fin 0]] [i0; i1])
    as (rs & H & L & _).
  - discriminate.
  - reflexivity.
  - repeat constructor.
  - repeat constructor.
  - now exists rs.
Defined.

Lemma missing_info_reads_uninitialised_witness :
  let e : Env (Bench.world 1) := blank (Bench.config "dense" false 1) [0%R] in
  exists rs,
    call_compute_reward e [[Fin 0; Fin 0; Fin 0]] [[Fin 0; Fin 0; Fin 0]] []
    = Ok rs /\
    exists r, rs !! 0%nat = Some [r] /\ Np.is_finite r = false.
Proof.
  intros e.
  destruct (missing_info_reads_uninitialised e Dense
              [[Fin 0; Fin 0; Fin 0]] [[Fin 0; Fin 0; Fin 0]] [])
    as (rs & H & R).
  - reflexivity.
  - cbn. lia.
  - repeat constructor.
  - constructor.
  - exists rs. split; [exact H|]. eexists. split.
    + apply (R 0%nat); [cbn; lia | reflexivity | reflexivity].
    + reflexivity.
Defined.

Lemma surplus_info_raises_IndexError_witness :
  let e : Env (Bench.world 1) := blank (Bench.config "dense" false 1) [0%R] in
  let i0 := {| param_rew := [Fin 0; Fin 0; Fin 1]; tor := 0; init := Fin 0;
               dst := Fin 0; info_on_target := true; is_success := None |} in
  call_compute_reward e [] [] [i0] = Raise IndexError.
Proof.
  intros e i0. apply surplus_info_raises_IndexError.
  - discriminate.
  - cbn. lia.
  - constructor.
  - repeat constructor.
Defined.

(** ** The weights of the rest posture *)

Lemma set_joint_weights_placed (positions : gmap string nat)
  (items : list (string * R)) :
  NoDup (map fst items) ->
  (forall k1 v1 k2 v2 i,
     (k1, v1) ∈ items -> (k2, v2) ∈ items ->
     positions !! k1 = Some i -> positions !! k2 = Some i -> k1 = k2) ->
  forall mat mat',
    set_joint_weights items positions mat = Ok mat' ->
    (forall key value,
       (key, value) ∈ items ->
       exists i, positions !! key = Some i /\ mat' !! i = Some value) /\
    (forall j,
       (forall key value, (key, value) ∈ items -> positions !! key <> Some j) ->
       mat' !! j = mat !! j).
Proof.
  induction items as [|[k v] items IH]; intros Hnd Hinj mat mat' H.
  - cbn in H. injection H as <-. split.
    + intros key value Hin. inversion Hin.
    + reflexivity.
  - cbn [set_joint_weights] in H.
    destruct (positions !! k) as [i|] eqn:Hk; [|discriminate].
    destruct (Nat.ltb_spec i (length mat)) as [Lt|]; [|discriminate].
    cbn [map fst] in Hnd. apply NoDup_cons in Hnd as (Hk' & Hnd).
    assert (Hinj' : forall k1 v1 k2 v2 j,
               (k1, v1) ∈ items -> (k2, v2) ∈ items ->
               positions !! k1 = Some j -> positions !! k2 = Some j ->
               k1 = k2).
    { intros k1 v1 k2 v2 j H1 H2.
      apply (Hinj k1 v1 k2 v2 j); now apply list_elem_of_further. }
    destruct (IH Hnd Hinj' _ _ H) as (Hset & Hframe).
    split.
    + intros key value Hin. apply elem_of_cons in Hin as [[= -> ->]|Hin].
      * exists i. split; [exact Hk|]. rewrite Hframe.
        { now apply list_lookup_insert_eq. }
        intros k2 v2 Hin2 Hp. apply Hk'.
        assert (k = k2) as ->.
        { apply (Hinj k v k2 v2 i); [apply list_elem_of_here| |assumption..].
          now apply list_elem_of_further. }
        apply list_elem_of_In, in_map_iff. exists (k2, v2).
        split; [reflexivity|]. now apply list_elem_of_In.
      * exact (Hset key value Hin).
    + intros j Hj. rewrite Hframe.
      * apply list_lookup_insert_ne. intros ->.
        apply (Hj k v); [apply list_elem_of_here | exact Hk].
      * intros key value Hin. apply (Hj key value).
        now apply list_elem_of_further.
Qed.

Lemma set_joint_weights_KeyError (positions : gmap string nat)
  (items : list (string * R)) :
  (exists key value, (key, value) ∈ items /\ positions !! key = None) ->
  forall mat,
    (forall key i, positions !! key = Some i -> (i < length mat)%nat) ->
    set_joint_weights items positions mat = Raise KeyError.
Proof.
  induction items as [|[k v] items IH]; intros (key & value & Hin & Hn) mat Hr.
  - inversion Hin.
  - cbn [set_joint_weights].
    destruct (positions !! k) as [i|] eqn:Hk; [|reflexivity].
    destruct (Nat.ltb_spec i (length mat)) as [Lt|Ge].
    2:{ apply Hr in Hk. lia. }
    apply IH.
    + apply elem_of_cons in Hin as [[= -> ->]|Hin]; [congruence|eauto].
    + intros key' i'. rewrite length_insert. apply Hr.
Qed.

(** X12. After construction [mat_dt_init] is diagonal; the joints named in
    [w_joints_to_init] carry their weight at their position, the others
    carry 0. *)
Theorem joint_weights_on_diagonal {W : World} (p : Config) (e : Env W)
  (items : list (string * R)) :
  __init__ p = Ok e ->
  weight_joints_to_init p = Some items ->
  NoDup (map fst items) ->
  (forall k1 v1 k2 v2 i,
     (k1, v1) ∈ items -> (k2, v2) ∈ items ->
     dict_pos W (simulator_new W) !! k1 = Some i ->
     dict_pos W (simulator_new W) !! k2 = Some i -> k1 = k2) ->
  exists weights,
    mat_dt_init e = np_diag weights /\
    length weights = nq (rmodel e) /\
    (forall key value,
       (key, value) ∈ items ->
       exists i, dict_pos W (simulator_new W) !! key = Some i /\
                 weights !! i = Some value) /\
    (forall j,
       (j < nq (rmodel e))%nat ->
       (forall key value,
          (key, value) ∈ items ->
          dict_pos W (simulator_new W) !! key <> Some j) ->
       weights !! j = Some 0%R).
Proof.
  intros H Hi Hnd Hinj.
  apply init_Ok in H
    as (_ & _ & M & _ & _ & _ & _ & _ & _ & (weights & Hw & D) & _).
  exists weights. split; [exact D|].
  pose proof (initial_weights_length _ _ Hw) as L. rewrite M.
  split; [exact L|].
  unfold initial_weights in Hw. rewrite Hi in Hw.
  destruct (set_joint_weights_placed _ items Hnd Hinj _ _ Hw)
    as (Hset & Hframe).
  split; [exact Hset|].
  intros j Lt Hj. rewrite (Hframe j Hj).
  now apply lookup_replicate_2.
Qed.

(** X13. A joint name in [w_joints_to_init] that the simulator does not
    know makes the construction raise [KeyError]. *)
Theorem unknown_joint_weight_breaks_construction {W : World} (p : Config)
  (items : list (string * R)) :
  weight_joints_to_init p = Some items ->
  (forall key i,
     dict_pos W (simulator_new W) !! key = Some i ->
     (i < nq (designer_rmodel W (designer_new W)))%nat) ->
  (exists key value,
      (key, value) ∈ items /\ dict_pos W (simulator_new W) !! key = None) ->
  @__init__ W p = Raise KeyError.
Proof.
  intros Hi Hr Hex. rewrite init_unfold.
  unfold initial_weights. rewrite Hi.
  rewrite set_joint_weights_KeyError; [reflexivity | exact Hex |].
  intros key i. rewrite length_replicate. apply Hr.
Qed.

Lemma joint_weights_on_diagonal_witness :
  exists (e : Env (named_world {[ "torso_1_joint"%string := 0%nat ]}))
         (weights : list R),
    mat_dt_init e = np_diag weights /\ weights !! 0%nat = Some 7%R.
Proof.
  set (p := with_joint_weights [("torso_1_joint"%string, 7%R)]
              (Bench.config "dense" false 1)).
  destruct (init_ok (W := named_world {[ "torso_1_joint"%string := 0%nat ]})
              p [7%R] 100) as (e & He).
  { reflexivity. }
  { vm_compute. reflexivity. }
  { discriminate. }
  destruct (joint_weights_on_diagonal p e [("torso_1_joint"%string, 7%R)] He)
    as (weights & D & _ & Hset & _).
  - reflexivity.
  - cbn. repeat constructor. intros Hin. inversion Hin.
  - intros k1 v1 k2 v2 i H1 H2 _ _.
    apply list_elem_of_singleton in H1, H2. congruence.
  - exists e, weights. split; [exact D|].
    destruct (Hset "torso_1_joint"%string 7%R) as (i & Hi & Hw).
    { apply list_elem_of_here. }
    cbn in Hi. injection Hi as <-. exact Hw.
Defined.

Lemma unknown_joint_weight_breaks_construction_witness :
  @__init__ (Bench.world 1)
    (with_joint_weights [("no_such_joint"%string, 1%R)]
       (Bench.config "dense" false 1))
  = Raise KeyError.
Proof.
  apply (unknown_joint_weight_breaks_construction _
           [("no_such_joint"%string, 1%R)]).
  - reflexivity.
  - intros key i H. cbn in H. rewrite lookup_empty in H. discriminate.
  - exists "no_such_joint"%string, 1%R. split; [apply list_elem_of_here|].
    cbn. apply lookup_empty.
Defined.

(** ** The display script *)

Section DisplayFacts.

Context {W : World}.

Lemma sim_steps_set_maxTime (t : pynum) (n : nat) (torques : list R)
  (e : Env W) :
  sim_steps n torques (set_maxTime t e)
  = set_maxTime t (sim_steps n torques e).
Proof.
  revert e. induction n as [|n IH]; intros e; [reflexivity|].
  cbn [sim_steps]. rewrite <- IH. reflexivity.
Qed.

Lemma after_physics_set_maxTime (t : pynum) (torques : list R) (e : Env W) :
  after_physics torques (set_maxTime t e)
  = set_maxTime t (after_physics torques e).
Proof.
  unfold after_physics. cbv zeta.
  change (set_timer (timer (set_maxTime t e) + 1) (set_maxTime t e))
    with (set_maxTime t (set_timer (timer e + 1) e)).
  change (numSimulationSteps (params (set_maxTime t e)))
    with (numSimulationSteps (params e)).
  rewrite sim_steps_set_maxTime. reflexivity.
Qed.

Lemma evaluate_set_maxTime (t : pynum) (torques : list R) (e : Env W) :
  evaluate (set_maxTime t e) torques = evaluate e torques.
Proof.
  unfold evaluate.
  change (getRobotState W (simulator (set_maxTime t e)))
    with (getRobotState W (simulator e)).
  set (x := getRobotState W (simulator e)).
  assert (E1 : _getObservation (set_maxTime t e) x = _getObservation e x)
    by reflexivity.
  assert (E2 : _checkTruncation (set_maxTime t e) x = _checkTruncation e x)
    by reflexivity.
  assert (E3 : forall o tr,
             _reward (set_maxTime t e) torques o tr = _reward e torques o tr)
    by reflexivity.
  rewrite E1, E2.
  destruct (_getObservation e x) as [o|]; [|reflexivity].
  destruct (_checkTruncation e x) as [tr|]; [|reflexivity].
  cbn [res_bind]. now rewrite E3.
Qed.

Lemma finish_set_maxTime (t : pynum) (e : Env W) o tr r i :
  finish (set_maxTime t e) o tr r i
  = (set_maxTime t (fst (finish e o tr r i)), snd (finish e o tr r i)).
Proof. reflexivity. Qed.

Lemma step_set_maxTime (t : pynum) (action : list R) (e : Env W) :
  step action (set_maxTime t e)
  = (set_maxTime t (fst (step action e)), snd (step action e)).
Proof.
  rewrite !step_unfold.
  change (_scaleAction (set_maxTime t e) action) with (_scaleAction e action).
  destruct (_scaleAction e action) as [torques|x]; [|reflexivity].
  cbv zeta. rewrite after_physics_set_maxTime, evaluate_set_maxTime.
  set (e1 := after_physics torques e). clearbody e1.
  destruct (evaluate e1 torques) as [[[o tr] [r i]]|x]; [|reflexivity].
  rewrite finish_set_maxTime.
  destruct (finish e1 o tr r i) as [e' res]. reflexivity.
Qed.

Lemma reset_set_maxTime (t : pynum) (options : option (gmap string (list R)))
  (e : Env W) :
  reset options (set_maxTime t e)
  = (set_maxTime t (fst (reset options e)), snd (reset options e)).
Proof.
  rewrite !reset_unfold. cbn [fst snd]. reflexivity.
Qed.

Variable predict : Obs -> list R.

Lemma display_episode_spec (fuel : nat) :
  forall (i : Z) (obs : Obs) (e e' : Env W) (r : option Z),
    timer e = i -> (0 <= i)%Z ->
    display_episode predict fuel i obs e = (e', Ok r) ->
    match r with
    | Some k =>
        (i < k <= i + Z.of_nat fuel)%Z /\ (k <= Z.max 501 (i + 1))%Z /\
        (k <= Z.max (i + 1) (maxStep e))%Z /\ timer e' = k
    | None =>
        (0 < fuel)%nat ->
        (i + Z.of_nat fuel <= 500)%Z /\
        (i + Z.of_nat fuel <= maxStep e - 1)%Z
    end.
Proof.
  induction fuel as [|fuel IH]; intros i obs e e' r Ti Hi H.
  - cbn in H. injection H as _ <-. lia.
  - cbn [display_episode] in H. unfold bind at 1 in H.
    destruct (step_frame (predict obs) e) as ((_ & _ & _ & _ & Ms & _) & Ts & _).
    destruct (step (predict obs) e) as [e1 [res|x]] eqn:Hs; [|discriminate].
    cbn [fst] in Ms, Ts.
    assert (Ht : terminated res = _checkTermination e1).
    { apply step_Ok in Hs as (tq & o & tr & r0 & i0 & _ & _ & Hf).
      now apply finish_infos in Hf as (-> & _ & _ & _ & -> & _). }
    destruct (terminated res || truncated res || (i + 1 >? 500)%Z) eqn:D.
    + injection H as <- <-. repeat split; try lia.
    + apply orb_false_elim in D as (D & D3).
      apply orb_false_elim in D as (D1 & _).
      rewrite Ht in D1. unfold _checkTermination in D1.
      apply orb_false_elim in D1 as (D1 & _).
      rewrite Z.gtb_ltb in D1, D3. apply Z.ltb_ge in D1, D3.
      specialize (IH (i + 1)%Z (ob res) e1 e' r ltac:(lia) ltac:(lia) H).
      destruct r as [k|].
      * rewrite Ms in IH. lia.
      * intros _. destruct fuel as [|fuel]; [lia|].
        rewrite Ms in IH. lia.
Qed.

End DisplayFacts.

(** X14. [step], [reset] and the termination test do not read [maxTime]:
    assigning it after construction changes neither their results nor the
    other attributes. *)
Theorem maxTime_assignment_is_never_read {W : World} (t : pynum) (e : Env W)
  (action : list R) (options : option (gmap string (list R))) :
  step action (set_maxTime t e)
  = (set_maxTime t (fst (step action e)), snd (step action e)) /\
  reset options (set_maxTime t e)
  = (set_maxTime t (fst (reset options e)), snd (reset options e)) /\
  _checkTermination (set_maxTime t e) = _checkTermination e.
Proof.
  split; [apply step_set_maxTime|]. split; [apply reset_set_maxTime|].
  reflexivity.
Qed.

(** X15. A round of the display loop ends after at least one call of
    [step], after at most 501 calls, and after at most [max(1, maxStep)]
    calls for the [maxStep] that the object stores: the one that
    construction computed from the [maxTime] of the configuration file.
    The assignment of 500 to [maxTime] does not extend it. *)
Theorem display_round_length {W : World} (predict : Obs -> list R)
  (p : Config) (e0 e' : Env W) (r : option Z) :
  display_setup p = Ok e0 ->
  display_round predict 501 e0 = (e', Ok r) ->
  exists (e : Env W) (k : Z),
    __init__ p = Ok e /\
    e0 = set_maxTime (PyInt 500) e /\
    maxStep e0 = maxStep e /\
    step_budget p = Ok (maxStep e0) /\
    r = Some k /\
    (1 <= k <= Z.min 501 (Z.max 1 (maxStep e0)))%Z /\
    timer e' = k.
Proof.
  intros H0 H. unfold display_setup in H0.
  apply res_bind_Ok in H0 as (e & Hi & [= <-]).
  pose proof (init_Ok _ _ Hi)
    as (_ & _ & _ & _ & _ & _ & _ & _ & _ & _ & Hb).
  unfold display_round, bind at 1 in H.
  rewrite reset_set_maxTime in H.
  destruct (reset_counters None e) as (Ti & _).
  pose proof (reset_frame None e) as (_ & _ & _ & _ & Ms & _).
  destruct (reset None e) as [e1 [[o i]|x]]; [|discriminate].
  cbn [fst snd] in *.
  apply (display_episode_spec predict) in H; [|exact Ti|lia].
  change (maxStep (set_maxTime (PyInt 500) e)) with (maxStep e).
  destruct r as [k|].
  - exists e, k. split; [exact Hi|]. split; [reflexivity|].
    split; [reflexivity|]. split; [exact Hb|]. split; [reflexivity|].
    change (maxStep (set_maxTime (PyInt 500) e1)) with (maxStep e1) in H.
    rewrite Ms in H. lia.
  - exfalso. assert (0 < 501)%nat as L by lia. apply H in L. lia.
Qed.

Lemma bench_display_episode (fuel : nat) :
  forall (i : Z) (obs : Obs) policy pol max_time t (e : Env (Bench.world 1)),
    bench_state 1 policy pol max_time t e ->
    exists e' r,
      display_episode (fun _ => [0%R]) fuel i obs e = (e', Ok r).
Proof.
  induction fuel as [|fuel IH]; intros i obs policy pol max_time t e B.
  - now exists e, None.
  - cbn [display_episode]. unfold bind at 1.
    destruct (bench_step 1 Rlt_0_1 _ _ _ _ 0%R e B)
      as (e1 & res & c & Hs & B1 & _).
    rewrite Hs.
    destruct (terminated res || truncated res || (i + 1 >? 500)%Z).
    + now exists e1, (Some (i + 1)%Z).
    + apply (IH _ _ _ _ _ _ e1 B1).
Qed.

Lemma display_round_length_witness :
  exists (e0 e' : Env (Bench.world 1)) (k : Z),
    display_setup (Bench.config "dense" false 1) = Ok e0 /\
    display_round (fun _ => [0%R]) 501 e0 = (e', Ok (Some k)) /\
    maxStep e0 = 100%Z /\
    (1 <= k <= 100)%Z.
Proof.
  destruct (bench_init 1 "dense" Dense 1 100 eq_refl (bench_budget _ _))
    as (e & He & B & _ & _ & Ms).
  assert (H0 : display_setup (Bench.config "dense" false 1)
               = Ok (set_maxTime (PyInt 500) e)).
  { unfold display_setup. now rewrite He. }
  assert (B5 : bench_state 1 "dense" Dense (PyInt 500) 0
                 (set_maxTime (PyInt 500) e)).
  { destruct B as (P & M & D & T & C & G). repeat split; try assumption.
    cbn [params set_maxTime]. now rewrite P. }
  assert (B1 : bench_state 1 "dense" Dense (PyInt 500) (INR 1)
                 (fst (reset None (set_maxTime (PyInt 500) e)))).
  { destruct (reset_frame None (set_maxTime (PyInt 500) e))
      as (P' & C' & M' & D' & _ & _ & _ & T').
    pose proof (reset_samples (set_maxTime (PyInt 500) e)) as G'.
    destruct B5 as (P & M & D & T & C & G).
    repeat split; try congruence.
    rewrite G'. cbn [target set_maxTime].
    apply init_Ok in He as (_ & _ & _ & _ & _ & -> & _). reflexivity. }
  destruct (reset_ok None (set_maxTime (PyInt 500) e)) as (o & Ho & _).
  { exact (bench_state_shaped 1 _ _ _ _ _ B5). }
  { cbn [resolved target set_maxTime].
    apply init_Ok in He as (_ & _ & _ & _ & _ & -> & _). reflexivity. }
  rewrite Ho in B1. cbn [fst] in B1.
  destruct (bench_display_episode 501 0 o _ _ _ _ _ B1) as (e' & r & Hd).
  assert (Hr : display_round (fun _ => [0%R]) 501 (set_maxTime (PyInt 500) e)
               = (e', Ok r)).
  { unfold display_round, bind at 1. rewrite Ho. exact Hd. }
  destruct (display_round_length _ _ _ _ _ H0 Hr)
    as (e1 & k & _ & _ & _ & _ & -> & Hk & _).
  change (maxStep (set_maxTime (PyInt 500) e)) with (maxStep e) in Hk.
  rewrite Ms in Hk.
  exists (set_maxTime (PyInt 500) e), e', k.
  repeat split; try assumption; lia.
Defined.

(** ** The step budget *)

(** X27. [maxStep] is the truncation of a float quotient, not of the
    quotient of the real numbers: with a control period of
    [0.001 * 10] seconds, a [maxTime] of 2.3 seconds gives 229 steps
    ([2.3 / (0.001 * 10)] is [229.99999999999997]), one of 0.29 seconds
    gives 28, and the integer 500 gives 50000. *)
Theorem maxStep_truncates_the_float_quotient {W : World} (p : Config)
  (e : Env W) :
  __init__ p = Ok e ->
  timeStepSimulation p = 0.001%float ->
  numSimulationSteps p = 10%Z ->
  (maxTime p = PyFloat 2.3 -> maxStep e = 229%Z) /\
  (maxTime p = PyFloat 0.29 -> maxStep e = 28%Z) /\
  (maxTime p = PyInt 500 -> maxStep e = 50000%Z).
Proof.
  intros H E1 E2.
  apply init_Ok in H as (_ & _ & _ & _ & _ & _ & _ & _ & _ & _ & Hb).
  assert (B : forall (t : pynum) (n : Z),
             step_budget (Bench.config "dense" false t) = Ok n ->
             maxTime p = t -> maxStep e = n).
  { intros t n Hn E3.
    assert (Hb' : step_budget p = Ok n)
      by (rewrite <- Hn; unfold step_budget; rewrite E1, E2, E3; reflexivity).
    congruence. }
  split; [|split]; apply B; vm_compute; reflexivity.
Qed.

Lemma maxStep_truncates_the_float_quotient_witness :
  exists e : Env (Bench.world 1),
    __init__ (Bench.config "dense" false 2.3) = Ok e /\ maxStep e = 229%Z.
Proof.
  destruct (bench_init 1 "dense" Dense 2.3 229 eq_refl
              (proj1 (budget_truncates_the_float_quotient _ _)))
    as (e & He & _).
  exists e. split; [exact He|].
  exact (proj1 (maxStep_truncates_the_float_quotient
                  (Bench.config "dense" false 2.3) e He eq_refl eq_refl)
           eq_refl).
Defined.

(** ** The rest posture under normalisation *)

Lemma zip_with_div_Fin (c d : list R) :
  Forall (fun x => x <> 0%R) d ->
  zip_with (fun a b => Np.div (Fin a) (Fin b)) c d
  = map Fin (zip_with Rdiv c d).
Proof.
  intros H. revert c. induction H as [|y d Hy _ IH]; intros [|x c];
    cbn [zip_with map]; try reflexivity.
  now rewrite div_Fin_nonzero, IH.
Qed.

Lemma take_obs_limits (rm : RModel) :
  length (lowerPositionLimit rm) = nq rm ->
  length (upperPositionLimit rm) = nq rm ->
  take (nq rm) (avg (limits_of (obs_bounds rm)))
  = map (fun s => s / 2)%R
      (zip_with Rplus (upperPositionLimit rm) (lowerPositionLimit rm)) /\
  take (nq rm) (diff (limits_of (obs_bounds rm)))
  = zip_with Rminus (upperPositionLimit rm) (lowerPositionLimit rm).
Proof.
  intros Ll Lu. unfold limits_of, obs_bounds. cbn [avg diff fst snd].
  rewrite firstn_map, !zip_with_take.
  rewrite !take_app_length' by congruence. auto.
Qed.

Lemma take_normalised (rm : RModel) (x : list R) :
  length (lowerPositionLimit rm) = nq rm ->
  length (upperPositionLimit rm) = nq rm ->
  Forall2 (fun lo up => lo <> up)
    (lowerPositionLimit rm) (upperPositionLimit rm) ->
  take (nq rm)
    (zip_with (fun a b => Np.div (Fin a) (Fin b))
       (zip_with Rminus x (avg (limits_of (obs_bounds rm))))
       (diff (limits_of (obs_bounds rm))))
  = map Fin
      (normalised_positions (take (nq rm) x)
         (lowerPositionLimit rm) (upperPositionLimit rm)).
Proof.
  intros Ll Lu Hne. rewrite !zip_with_take.
  destruct (take_obs_limits rm Ll Lu) as (-> & ->).
  rewrite zip_with_div_Fin; [reflexivity|].
  clear -Hne. induction Hne as [|lo up ls us Hn _ IH]; cbn;
    constructor; [lra | exact IH].
Qed.

Lemma reachable_normalised (W : World) (p : Config) (e : Env W) :
  reachable p e -> normalizeObs p = true ->
  length (lowerPositionLimit (rmodel e))
  = length (upperPositionLimit (rmodel e)) ->
  params e = p /\
  obs_limits e = Some (limits_of (obs_bounds (rmodel e))).
Proof.
  intros Hr N L. destruct (reachable_setup p e Hr) as (e0 & H0 & S).
  destruct S as (P & _ & M & _ & _ & O & _).
  pose proof (init_Ok _ _ H0) as (P0 & _).
  split; [congruence|].
  rewrite O, M. apply (init_obs_limits p e0 H0 N). now rewrite <- M.
Qed.

(** X25. With [normalizeObs], [infos["init"]] compares the rest posture
    [qC0] as it is with the normalised joint positions: it is the weighted
    sum of the squares of
    [qC0 - (q - (upper + lower) / 2) / (upper - lower)]. *)
Theorem step_rest_pose_cost_normalised {W : World} (p : Config)
  (e e' : Env W) (action : list R) (res : StepResult) (weights : list R) :
  reachable p e ->
  shaped_setup e ->
  normalizeObs p = true ->
  @initial_weights W p = Ok weights ->
  Forall2 (fun lo up => lo <> up)
    (lowerPositionLimit (rmodel e)) (upperPositionLimit (rmodel e)) ->
  step action e = (e', Ok res) ->
  init (infos res)
  = Fin (weighted_squares weights
           (zip_with Rminus (qC0 W (simulator e'))
              (normalised_positions
                 (take (nq (rmodel e)) (getRobotState W (simulator e')))
                 (lowerPositionLimit (rmodel e))
                 (upperPositionLimit (rmodel e))))).
Proof.
  intros Hr Sh N Hw Hne H.
  pose proof (reachable_mat_dt_init p e weights Hr Hw) as D.
  pose proof (ss_lowerPosition _ Sh) as Ll.
  pose proof (ss_upperPosition _ Sh) as Lu.
  pose proof (ss_velocity _ Sh) as Lv.
  destruct (reachable_normalised W p e Hr N) as (P & O); [congruence|].
  assert (Lw : length weights = nq (rmodel e)).
  { pose proof (np_diag_rows weights) as Rw. rewrite <- D in Rw.
    pose proof (ss_mat _ Sh) as Rm.
    destruct (mat_dt_init e) as [|row rows] eqn:E.
    - symmetry in D. destruct weights; [|discriminate D].
      apply initial_weights_length in Hw. cbn in Hw.
      destruct (reachable_setup p e Hr) as (e0 & H0 & S).
      destruct S as (_ & _ & M & _).
      apply init_Ok in H0 as (_ & _ & M0 & _). cbn. congruence.
    - inversion Rw; inversion Rm; congruence. }
  apply step_Ok in H as (torques & o & tr & r & i & _ & He & Hf).
  apply finish_infos in Hf as (-> & _ & _ & _ & _ & _ & Hinit & _).
  destruct (after_physics_frame torques e)
    as ((P' & _ & M' & D' & _ & O' & _) & _).
  cbn [simulator set_on_target].
  pose proof (shaped_setup_same e _ (proj1 (after_physics_frame torques e)) Sh)
    as Sh1.
  set (e1 := after_physics torques e) in *. clearbody e1.
  pose proof (sw_state _ _ (ss_world _ Sh1) (simulator e1)) as Lx.
  pose proof (sw_qC0 _ _ (ss_world _ Sh1) (simulator e1)) as Lq.
  rewrite M' in Lx, Lq.
  set (x := getRobotState W (simulator e1)) in *.
  apply evaluate_Ok in He as (Ho & _ & Hri). fold x in Ho.
  unfold _getObservation in Ho. rewrite P', P, N in Ho.
  apply res_bind_Ok in Ho as (y & Hy & Ho).
  apply res_bind_Ok in Ho as (a & _ & Ho).
  apply res_bind_Ok in Ho as (d & _ & Ho).
  injection Ho as <-.
  unfold _obsNormalizer in Hy. rewrite O', O in Hy.
  cbn [getattr res_bind] in Hy.
  assert (La : length (avg (limits_of (obs_bounds (rmodel e))))
               = (nq (rmodel e) + nv (rmodel e))%nat).
  { unfold limits_of, obs_bounds. cbn [avg fst snd].
    rewrite length_map, length_zip_with_l_eq;
      rewrite !length_app, ?length_map; lia. }
  assert (Ld : length (diff (limits_of (obs_bounds (rmodel e))))
               = (nq (rmodel e) + nv (rmodel e))%nat).
  { unfold limits_of, obs_bounds. cbn [diff fst snd].
    rewrite length_zip_with_l_eq; rewrite !length_app, ?length_map; lia. }
  rewrite normalize_same in Hy by congruence. injection Hy as Ey.
  apply _reward_init in Hri as (v & Hv & Hq).
  change (observation _) with y in Hv. unfold slice_to in Hv.
  rewrite M', <- Ey, take_normalised in Hv by assumption.
  assert (Ln : length (normalised_positions (take (nq (rmodel e)) x)
                 (lowerPositionLimit (rmodel e))
                 (upperPositionLimit (rmodel e))) = nq (rmodel e)).
  { unfold normalised_positions.
    rewrite !length_zip_with, length_map, length_zip_with, length_take.
    lia. }
  rewrite broadcast_same in Hv by (rewrite !length_map; congruence).
  injection Hv as <-. rewrite zip_with_sub_Fin in Hq.
  rewrite D', D, quadratic_form_np_diag in Hq.
  - rewrite Hinit. now injection Hq as <-.
  - rewrite length_zip_with_l_eq; congruence.
Qed.

Lemma step_rest_pose_cost_normalised_witness :
  exists (e e' : Env (Bench.world 1)) (res : StepResult),
    step [0%R] e = (e', Ok res) /\
    init (infos res)
    = Fin (weighted_squares [0%R]
             (zip_with Rminus [0%R]
                (normalised_positions [0%R] [(-1)%R] [1%R]))).
Proof.
  destruct (init_ok (W := Bench.world 1) (Bench.config "dense" true 1)
              [0%R] 100)
    as (e & He).
  { reflexivity. }
  { vm_compute. reflexivity. }
  { reflexivity. }
  assert (Sh : shaped_setup e).
  { apply (init_shaped _ _ He); try reflexivity.
    - exact (bench_shaped 1).
    - cbn. lia.
    - discriminate. }
  pose proof (init_Ok _ _ He) as (_ & _ & M & _ & _ & G & _).
  destruct (step_ok [0%R] e Sh) as (e' & res & Hs).
  { now rewrite G. }
  { now rewrite M. }
  exists e, e', res. split; [exact Hs|].
  pose proof (step_rest_pose_cost_normalised (Bench.config "dense" true 1)
                e e' [0%R] res [0%R] (reach_init _ _ He) Sh eq_refl eq_refl)
    as H.
  rewrite M in H. apply H; [|exact Hs].
  cbn. constructor; [lra | constructor].
Defined.

(** * Properties of the reduced model *)

Import TalosDesigner.

Lemma py_in_true (x : string) (l : list string) :
  py_in x l = true <-> x ∈ l.
Proof.
  unfold py_in. rewrite existsb_exists. split.
  - intros (y & Hy & E). apply String.eqb_eq in E as ->.
    now apply list_elem_of_In.
  - intros H. exists x. split; [now apply list_elem_of_In|].
    apply String.eqb_refl.
Qed.

Lemma py_in_false (x : string) (l : list string) :
  py_in x l = false <-> x ∉ l.
Proof.
  rewrite <- py_in_true. destruct (py_in x l); split; congruence.
Qed.

Lemma lookup_enumerate {A} (l : list A) (i : nat) :
  enumerate l !! i = (fun x => (i, x)) <$> l !! i.
Proof. unfold enumerate. apply list_lookup_imap. Qed.

Lemma elem_of_enumerate {A} (l : list A) (i : nat) (x : A) :
  (i, x) ∈ enumerate l <-> l !! i = Some x.
Proof.
  rewrite list_elem_of_lookup. split.
  - intros (j & Hj). rewrite lookup_enumerate in Hj.
    destruct (l !! j) as [y|] eqn:E; [|discriminate].
    cbn in Hj. now injection Hj as -> ->.
  - intros H. exists i. rewrite lookup_enumerate, H. reflexivity.
Qed.

Lemma elem_of_controlledJointsID (names controlled : list string) (i : nat) :
  i ∈ controlledJointsID (_buildReducedModel names controlled)
  <-> exists n, names !! i = Some n /\ n ∈ controlled.
Proof.
  cbn [controlledJointsID _buildReducedModel].
  rewrite list_elem_of_In, in_map_iff. split.
  - intros ([j n] & <- & Hin). apply filter_In in Hin as (Hin & Hc).
    apply list_elem_of_In, elem_of_enumerate in Hin.
    exists n. split; [exact Hin|]. now apply py_in_true.
  - intros (n & Hn & Hc). exists (i, n). split; [reflexivity|].
    apply filter_In. split.
    + now apply list_elem_of_In, elem_of_enumerate.
    + now apply py_in_true.
Qed.

Lemma getJointId_lookup (names : list string) (name : string) :
  name ∈ names ->
  names !! getJointId names name = Some name /\
  forall j, (j < getJointId names name)%nat -> names !! j <> Some name.
Proof.
  induction names as [|n names IH]; intros Hin; [inversion Hin|].
  cbn [getJointId]. destruct (String.eqb_spec n name) as [->|Hne].
  - split; [reflexivity|]. intros j Hj. lia.
  - apply elem_of_cons in Hin as [->|Hin]; [contradiction|].
    destruct (IH Hin) as (H1 & H2). split; [exact H1|].
    intros [|j] Hj; cbn; [congruence|]. apply H2. lia.
Qed.

Lemma getJointId_NoDup (names : list string) (i : nat) (name : string) :
  NoDup names -> names !! i = Some name -> getJointId names name = i.
Proof.
  intros Hnd Hi.
  destruct (getJointId_lookup names name) as (H1 & _).
  { eapply list_elem_of_lookup_2. exact Hi. }
  eapply NoDup_lookup; eassumption.
Qed.

Lemma elem_of_lockedJointsID (names controlled : list string) (i : nat) :
  i ∈ lockedJointsID (_buildReducedModel names controlled)
  <-> exists n, n ∈ tail names /\ (n ∉ controlled) /\ getJointId names n = i.
Proof.
  cbn [lockedJointsID _buildReducedModel].
  rewrite list_elem_of_In, in_map_iff. split.
  - intros (n & <- & Hin). apply filter_In in Hin as (Hin & Hc).
    exists n. split; [now apply list_elem_of_In|].
    split; [|reflexivity]. apply py_in_false. now apply negb_true_iff.
  - intros (n & Hn & Hc & <-). exists n. split; [reflexivity|].
    apply filter_In. split; [now apply list_elem_of_In|].
    apply negb_true_iff. now apply py_in_false.
Qed.

(** X16. [controlledJointsID] lists, in increasing order, exactly the
    indices of the joints of the complete model whose name is among the
    controlled ones. *)
Theorem controlled_ids_select_the_named_joints
  (names controlled : list string) :
  let ids := controlledJointsID (_buildReducedModel names controlled) in
  (forall i, i ∈ ids <-> exists n, names !! i = Some n /\ n ∈ controlled) /\
  StronglySorted lt ids.
Proof.
  split; [apply elem_of_controlledJointsID|].
  cbn [controlledJointsID _buildReducedModel]. unfold enumerate.
  assert (G : forall (f : nat -> nat) (l : list string),
             (forall a b, (a < b)%nat -> (f a < f b)%nat) ->
             StronglySorted lt
               (map fst
                  (List.filter (fun '(i, n) => py_in n controlled)
                     (imap (fun i x => (f i, x)) l)))).
  { intros f l. revert f. induction l as [|x l IH]; intros f Hf.
    - constructor.
    - cbn [imap List.filter].
      assert (S' : StronglySorted lt
                     (map fst
                        (List.filter (fun '(i, n) => py_in n controlled)
                           (imap (fun i x => (f (S i), x)) l)))).
      { apply (IH (fun i => f (S i))). intros a b Hab. apply Hf. lia. }
      destruct (py_in x controlled); [|exact S'].
      cbn [map fst]. constructor; [exact S'|].
      apply Forall_forall. intros j Hj.
      apply list_elem_of_In, in_map_iff in Hj as ([j' n] & <- & Hin).
      apply filter_In in Hin as (Hin & _).
      apply list_elem_of_In, list_elem_of_lookup in Hin as (k & Hk).
      rewrite list_lookup_imap in Hk.
      destruct (l !! k); [|discriminate]. cbn in Hk.
      injection Hk as <- _. cbn. apply Hf. lia. }
  apply (G (fun i => i)). auto.
Qed.

(** X17. When the names of the complete model are distinct, the locked
    joints are exactly the joints from index 1 on that are not
    controlled. *)
Theorem locked_ids_complement_controlled_ids (names controlled : list string) :
  NoDup names ->
  let r := _buildReducedModel names controlled in
  forall i,
    i ∈ lockedJointsID r
    <-> (1 <= i < length names)%nat /\ (i ∉ controlledJointsID r).
Proof.
  intros Hnd r i. unfold r.
  rewrite elem_of_lockedJointsID, elem_of_controlledJointsID. split.
  - intros (n & Hn & Hc & <-).
    destruct names as [|n0 names]; [inversion Hn|]. cbn [tail] in Hn.
    apply list_elem_of_lookup in Hn as (j & Hj).
    rewrite (getJointId_NoDup (n0 :: names) (S j) n Hnd Hj).
    split.
    + apply lookup_lt_Some in Hj. cbn. lia.
    + intros (n' & Hn' & Hc'). change (names !! j = Some n') in Hn'.
      rewrite Hj in Hn'. injection Hn' as <-. contradiction.
  - intros ((L1 & L2) & Hnot).
    destruct (lookup_lt_is_Some_2 names i L2) as (n & Hn).
    exists n. split; [|split].
    + destruct names as [|n0 names]; [discriminate|].
      destruct i as [|i]; [lia|]. cbn in Hn. cbn [tail].
      eapply list_elem_of_lookup_2. exact Hn.
    + intros Hc. apply Hnot. eauto.
    + now apply getJointId_NoDup.
Qed.

(** X18. The two lists of joints depend on the controlled names only
    through the names that the model has; each other name only adds a line
    [ERROR] to the output. *)
Theorem unknown_controlled_names_only_print
  (names controlled controlled' : list string) :
  (forall n, n ∈ names -> (n ∈ controlled <-> n ∈ controlled')) ->
  controlledJointsID (_buildReducedModel names controlled)
  = controlledJointsID (_buildReducedModel names controlled') /\
  lockedJointsID (_buildReducedModel names controlled)
  = lockedJointsID (_buildReducedModel names controlled') /\
  printed (_buildReducedModel names controlled)
  = replicate
      (length (List.filter (fun joint => negb (py_in joint names)) controlled))
      "ERROR"%string.
Proof.
  intros H.
  assert (E : forall n, n ∈ names -> py_in n controlled = py_in n controlled').
  { intros n Hn. specialize (H n Hn).
    destruct (py_in n controlled) eqn:E1, (py_in n controlled') eqn:E2;
      try reflexivity.
    - apply py_in_true in E1. apply py_in_false in E2. tauto.
    - apply py_in_false in E1. apply py_in_true in E2. tauto. }
  cbn [controlledJointsID lockedJointsID printed _buildReducedModel].
  split; [|split].
  - f_equal. apply filter_ext_in. intros [i n] Hin.
    apply E. apply list_elem_of_In, elem_of_enumerate in Hin.
    eapply list_elem_of_lookup_2. exact Hin.
  - f_equal. apply filter_ext_in. intros n Hin. f_equal. apply E.
    apply list_elem_of_In in Hin.
    destruct names; [inversion Hin|]. now apply list_elem_of_further.
  - generalize (List.filter (fun joint => negb (py_in joint names)) controlled).
    intros l. induction l as [|x l IH]; [reflexivity|]. cbn. now rewrite IH.
Qed.

Lemma locked_ids_complement_controlled_ids_witness :
  let names := ["universe"; "root_joint"; "torso_1_joint";
                "arm_left_1_joint"]%string in
  2%nat ∈ lockedJointsID (_buildReducedModel names ["arm_left_1_joint"%string]).
Proof.
  intros names.
  apply (locked_ids_complement_controlled_ids names
           ["arm_left_1_joint"%string]).
  - apply (bool_decide_unpack _). vm_compute. reflexivity.
  - split; [cbn; lia|].
    apply (bool_decide_unpack _). vm_compute. reflexivity.
Defined.

Lemma unknown_controlled_names_only_print_witness :
  let names := ["universe"; "root_joint"; "torso_1_joint"]%string in
  controlledJointsID
    (_buildReducedModel names ["torso_1_joint"; "no_such_joint"]%string)
  = controlledJointsID (_buildReducedModel names ["torso_1_joint"%string]).
Proof.
  intros names.
  refine (proj1 (unknown_controlled_names_only_print names
                   ["torso_1_joint"; "no_such_joint"]%string
                   ["torso_1_joint"%string] _)).
  intros n Hn. rewrite <- !py_in_true.
  apply list_elem_of_In in Hn. cbn in Hn.
  destruct Hn as [<-|[<-|[<-|[]]]]; reflexivity.
Defined.

(** ** The ZMP *)

Lemma deque_append_window {A} (maxlen : nat) (x : A) (l : list A) :
  deque_append maxlen x (drop (length l - maxlen) l)
  = drop (length (l ++ [x]) - maxlen) (l ++ [x]).
Proof.
  unfold deque_append. rewrite !length_app, length_drop. cbn [length].
  destruct (le_lt_dec maxlen (length l)) as [Hle|Hlt].
  - replace (length l - (length l - maxlen) + 1 - maxlen)%nat with 1%nat by lia.
    destruct maxlen as [|m].
    + rewrite Nat.sub_0_r, drop_all. cbn.
      rewrite drop_ge; [reflexivity|]. rewrite length_app. cbn. lia.
    + rewrite (drop_app_le l [x]) by lia.
      rewrite (drop_app_le (drop _ l) [x]) by (rewrite length_drop; lia).
      rewrite drop_drop. do 2 f_equal. lia.
  - replace (length l - maxlen)%nat with 0%nat by lia.
    replace (length l - 0 + 1 - maxlen)%nat with 0%nat by lia.
    replace (length l + 1 - maxlen)%nat with 0%nat by lia. reflexivity.
Qed.

Lemma update_ZMP_buffer (com : ndarray) (d : ZmpState) :
  _buffer_CoM (fst (update_ZMP com d))
  = deque_append 3 (take 2 com) (_buffer_CoM d) /\
  dt (fst (update_ZMP com d)) = dt d /\
  z_c (fst (update_ZMP com d)) = z_c d /\
  g (fst (update_ZMP com d)) = g d.
Proof.
  unfold update_ZMP. cbv zeta.
  cbn [_buffer_CoM set_buffer_CoM dt z_c g].
  destruct (deque_append 3 (take 2 com) (_buffer_CoM d))
    as [|b0 [|b1 [|b2 [|b3 l]]]]; try (cbn; auto; fail).
  destruct (acceleration (dt d) b0 b1 b2); cbn; auto.
Qed.

Lemma updated_snoc (coms : list ndarray) (com : ndarray) (d : ZmpState) :
  updated (coms ++ [com]) d = fst (update_ZMP com (updated coms d)).
Proof. unfold updated. now rewrite fold_left_app. Qed.

Lemma updated_buffer (coms : list ndarray) (dt0 zc0 g0 : R) :
  let d := updated coms (zmp_new dt0 zc0 g0) in
  _buffer_CoM d = drop (length coms - 3) (map (take 2) coms) /\
  dt d = dt0 /\ z_c d = zc0 /\ g d = g0.
Proof.
  induction coms as [|com coms IH] using rev_ind.
  - cbn. auto.
  - cbv zeta in *. rewrite updated_snoc.
    destruct IH as (B & D & Z & G).
    destruct (update_ZMP_buffer com (updated coms (zmp_new dt0 zc0 g0)))
      as (B' & D' & Z' & G').
    rewrite B', D', Z', G', B. repeat split; try assumption.
    replace (length coms) with (length (map (take 2) coms))
      by apply length_map.
    rewrite deque_append_window.
    rewrite map_app, !length_app, !length_map. reflexivity.
Qed.

Lemma ZMP_of_the_last_three_samples (coms : list ndarray)
  (c0 c1 c2 : ndarray) (dt0 zc0 g0 : R) :
  let d := updated (coms ++ [c0; c1; c2]) (zmp_new dt0 zc0 g0) in
  length (take 2 c0) = length (take 2 c1) ->
  length (take 2 c1) = length (take 2 c2) ->
  _buffer_CoM d = [take 2 c0; take 2 c1; take 2 c2] /\
  get_ZMP d
  = Ok (map (fun x =>
               Np.mul (Np.div (Fin zc0) (Fin g0))
                 (Np.div (Np.mul (Fin 0.01) x) (Fin (dt0 * dt0))))
          (zip_with Np.sub (zip_with Np.add (take 2 c2) (take 2 c0))
             (map (Np.mul (Fin 2)) (take 2 c1)))).
Proof.
  intros d L01 L12. subst d.
  change (coms ++ [c0; c1; c2]) with (coms ++ [c0; c1] ++ [c2]).
  rewrite app_assoc, updated_snoc.
  destruct (updated_buffer (coms ++ [c0; c1]) dt0 zc0 g0) as (B & D & Z & G).
  set (d := updated (coms ++ [c0; c1]) (zmp_new dt0 zc0 g0)) in *.
  clearbody d.
  assert (B' : deque_append 3 (take 2 c2) (_buffer_CoM d)
               = [take 2 c0; take 2 c1; take 2 c2]).
  { rewrite B.
    replace (length (coms ++ [c0; c1]))
      with (length (map (take 2) (coms ++ [c0; c1]))) by apply length_map.
    rewrite deque_append_window.
    rewrite map_app, <- app_assoc, !length_app, length_map. cbn [map app length].
    rewrite drop_app_length'; [reflexivity|]. rewrite length_map. lia. }
  unfold update_ZMP. cbv zeta. cbn [_buffer_CoM set_buffer_CoM dt z_c g].
  rewrite B', D, Z, G. unfold acceleration.
  rewrite broadcast_same by congruence. cbn [res_bind].
  rewrite broadcast_same.
  2:{ rewrite length_map, length_zip_with_l_eq; congruence. }
  cbn [res_bind fst _buffer_CoM set_ZMP set_buffer_CoM get_ZMP _ZMP getattr].
  split; [reflexivity|]. rewrite map_map. reflexivity.
Qed.

(** X19. For the first two updates [get_ZMP] returns the first two
    coordinates of the first centre of mass; from the third update on it
    returns [z_c / g * 0.01 * (c2 + c0 - 2 * c1) / dt**2] for the last three
    centres of mass [c0], [c1], [c2]. *)
Theorem ZMP_is_a_scaled_second_difference (coms : list ndarray)
  (x0 y0 z0 x1 y1 z1 x2 y2 z2 : R) (dt0 zc0 g0 : R) :
  dt0 <> 0%R -> g0 <> 0%R ->
  let s0 := map Fin [x0; y0; z0] in
  let s1 := map Fin [x1; y1; z1] in
  let s2 := map Fin [x2; y2; z2] in
  let new := zmp_new dt0 zc0 g0 in
  get_ZMP (updated [s0] new) = Ok [Fin x0; Fin y0] /\
  get_ZMP (updated [s0; s1] new) = Ok [Fin x0; Fin y0] /\
  get_ZMP (updated (coms ++ [s0; s1; s2]) new)
  = Ok [Fin (zc0 / g0 * (0.01 * (x2 + x0 - 2 * x1) / (dt0 * dt0)));
        Fin (zc0 / g0 * (0.01 * (y2 + y0 - 2 * y1) / (dt0 * dt0)))].
Proof.
  intros Hdt Hg s0 s1 s2 new.
  split; [reflexivity|]. split; [reflexivity|].
  destruct (ZMP_of_the_last_three_samples coms s0 s1 s2 dt0 zc0 g0)
    as (_ & H); [reflexivity | reflexivity |].
  etransitivity; [exact H|].
  assert (Hd : (dt0 * dt0)%R <> 0%R) by nra.
  cbn. destruct (Req_dec_T g0 0); [contradiction|].
  destruct (Req_dec_T (dt0 * dt0) 0); [contradiction|]. cbn.
  repeat f_equal; lra.
Qed.

Lemma ZMP_is_a_scaled_second_difference_witness :
  get_ZMP
    (updated [map Fin [0; 0; 1]; map Fin [0; 0; 1]; map Fin [0; 0; 1]]%R
       (zmp_new 0.01 1 (-9.81)))
  = Ok [Fin (1 / -9.81 * (0.01 * (0 + 0 - 2 * 0) / (0.01 * 0.01)));
        Fin (1 / -9.81 * (0.01 * (0 + 0 - 2 * 0) / (0.01 * 0.01)))].
Proof.
  refine (proj2 (proj2 (ZMP_is_a_scaled_second_difference []
                          0 0 1 0 0 1 0 0 1 0.01 1 (-9.81) _ _))); lra.
Defined.

(** * Properties of the callbacks *)

Import Callbacks.

Lemma Np_lt_irrefl (x : npfloat) : Np.lt x x = false.
Proof.
  destruct x; try reflexivity. cbn. apply Rltb_false. lra.
Qed.

Lemma py_min_le (m d : npfloat) : Np.lt d (py_min m d) = false.
Proof.
  unfold py_min. destruct (Np.lt d m) eqn:E; [apply Np_lt_irrefl | exact E].
Qed.

Lemma length_deque_append {A} (n : nat) (x : A) (l : list A) :
  (length l <= n)%nat -> (length (deque_append n x l) <= n)%nat.
Proof.
  intros L. unfold deque_append. rewrite length_drop, length_app. cbn. lia.
Qed.

Lemma Forall2_deque_append {A B} (P : A -> B -> Prop) (n : nat)
  (x : A) (y : B) (l : list A) (k : list B) :
  Forall2 P l k -> P x y ->
  Forall2 P (deque_append n x l) (deque_append n y k).
Proof.
  intros H Hxy. unfold deque_append.
  rewrite !length_app, (Forall2_length _ _ _ H). cbn.
  apply Forall2_drop, Forall2_app; [exact H|]. now constructor.
Qed.

Lemma deque_new_maxlen {A} (n : option Z) (d : Deque A) :
  deque_new n = Ok d -> items d = [] /\ maxlen d = Z.to_nat <$> n.
Proof.
  unfold deque_new. destruct n as [k|].
  - destruct (k <? 0)%Z; [discriminate|]. now intros [= <-].
  - now intros [= <-].
Qed.

Lemma logged_refl (s : AllCallbacks) : logged s s.
Proof. repeat split. Qed.

Lemma logged_record (key : string) (x : npfloat) (s s' : AllCallbacks) :
  logged s s' -> logged s (logger_record key x s').
Proof. intros H. exact H. Qed.

Lemma _dump_logs_tensor_frame (s : AllCallbacks) :
  logged s (fst (_dump_logs_tensor s)).
Proof.
  unfold _dump_logs_tensor.
  destruct (deque_items (_custom_info_buffer s)) as [c|];
    [|repeat split].
  destruct (0 <? length c)%nat; [|repeat split]. cbv zeta.
  cbn [_ep_end_buffer _ep_dst_min_buffer logger_record].
  destruct (deque_items (_ep_end_buffer s)) as [e|]; [|repeat split].
  destruct (deque_items (_ep_dst_min_buffer s)) as [m|]; repeat split.
Qed.

Lemma log_and_evaluate_frame (ev : Res npfloat) (l : Locals)
  (s : AllCallbacks) :
  logged s (fst (log_and_evaluate ev l s)).
Proof.
  unfold log_and_evaluate.
  assert (F : forall r : AllCallbacks * Res unit,
             logged s (fst r) ->
             logged s
               (fst (match r with
                     | (s1, Raise x) => (s1, Raise x)
                     | (s1, Ok _) =>
                         match py_mod (_episode_num s1) (check_freq s1) with
                         | Raise x => (s1, Raise x)
                         | Ok r =>
                             if (r =? 0)%Z then
                               match ev with
                               | Raise x => (s1, Raise x)
                               | Ok eval_reward =>
                                   (logger_record "z_custom/eval_reward"
                                      eval_reward s1, Ok tt)
                               end
                             else (s1, Ok tt)
                         end
                     end))).
  { intros [s1 [[]|x]] H; cbn [fst] in *; [|exact H].
    destruct (py_mod _ _) as [r|]; [|exact H].
    destruct (r =? 0)%Z; [|exact H]. destruct ev; exact H. }
  apply F. destruct (log_interval l) as [k|]; [|repeat split].
  destruct (py_mod (_episode_num s) k) as [r|]; [|repeat split].
  destruct (r =? 0)%Z; [|repeat split]. apply _dump_logs_tensor_frame.
Qed.

Lemma _update_info_buffer_tensor_spec (l : Locals) (s : AllCallbacks) :
  paired_buffers s ->
  let s' := fst (_update_info_buffer_tensor l s) in
  paired_buffers s' /\
  (check_freq s' = check_freq s /\
   _stats_window_size s' = _stats_window_size s /\
   best_mean_reward s' = best_mean_reward s /\
   _ep_info_buffer s' = _ep_info_buffer s /\
   _episode_num s' = _episode_num s /\
   _dst_min s' = _dst_min s /\
   saved s' = saved s) /\
  (snd (_update_info_buffer_tensor l s) = Ok tt ->
   _ep_end_buffer s' <> None /\ _ep_dst_min_buffer s' <> None).
Proof.
  intros P. unfold _update_info_buffer_tensor.
  destruct (match _custom_info_buffer s with
            | Some d => Ok d
            | None => deque_new (Some (_stats_window_size s))
            end) as [c|x].
  2:{ cbn. split; [exact P|]. split; [auto 8 | discriminate]. }
  cbv zeta. cbn [_ep_end_buffer _ep_dst_min_buffer set_custom_info_buffer
                 set_ep_end_buffer].
  unfold paired_buffers in P.
  destruct (_ep_end_buffer s) as [e|] eqn:He,
           (_ep_dst_min_buffer s) as [m|] eqn:Hm; try contradiction.
  - cbn. unfold paired_buffers. cbn.
    split; [exact P|]. split; [auto 8|]. intros _. split; discriminate.
  - destruct (deque_new (log_interval l)) as [d|x] eqn:Hd.
    + cbn. unfold paired_buffers. cbn.
      apply deque_new_maxlen in Hd as (I & _). rewrite I.
      split; [|split; [auto 8 | intros _; split; discriminate]].
      split; [reflexivity|]. split; [constructor|]. intros n _. cbn. lia.
    + cbn. unfold paired_buffers. cbn. rewrite ?He, ?Hm.
      split; [exact I|]. split; [auto 8 | discriminate].
Qed.

Lemma _on_step_tensor_spec (ev : Res npfloat) (l : Locals)
  (s : AllCallbacks) :
  paired_buffers s ->
  let s' := fst (_on_step_tensor ev l s) in
  paired_buffers s' /\
  check_freq s' = check_freq s /\
  _stats_window_size s' = _stats_window_size s /\
  best_mean_reward s' = best_mean_reward s /\
  _ep_info_buffer s' = _ep_info_buffer s /\
  saved s' = saved s.
Proof.
  intros P. unfold _on_step_tensor.
  destruct (_update_info_buffer_tensor_spec l s P)
    as (P1 & (F1 & F2 & F3 & F4 & F5 & F6 & F7) & N).
  destruct (_update_info_buffer_tensor l s) as [s1 [[]|x]];
    cbn [fst snd] in *; [|auto 8].
  cbv zeta. destruct (dones0 l); [|cbn; unfold paired_buffers; cbn; auto 8].
  cbn [_ep_end_buffer _ep_dst_min_buffer set_episode_num set_dst_min
       set_ep_end_buffer].
  destruct (N eq_refl) as (Ne & Nm).
  unfold paired_buffers in P1.
  destruct (_ep_end_buffer s1) as [e|] eqn:He; [|contradiction].
  destruct (_ep_dst_min_buffer s1) as [m|] eqn:Hm; [|contradiction].
  destruct P1 as (M & Q & B).
  match goal with
  | |- context [log_and_evaluate ev l ?t] =>
      destruct (log_and_evaluate_frame ev l t)
        as (G1 & G0 & G2 & G3 & G4 & G5 & G6 & G7);
      set (s6 := t) in *
  end.
  cbv zeta in *.
  split.
  - unfold paired_buffers. rewrite G4, G5. unfold s6. cbn.
    split; [exact M|]. rewrite <- M.
    destruct (maxlen e) as [n|]; cbn.
    + split.
      * apply Forall2_deque_append; [exact Q|].
        destruct (_dst_min s1); [apply py_min_le | apply Np_lt_irrefl].
      * intros n' [= <-]. apply length_deque_append. now apply B.
    + split; [|discriminate].
      apply Forall2_app; [exact Q|]. constructor; [|constructor].
      destruct (_dst_min s1); [apply py_min_le | apply Np_lt_irrefl].
  - rewrite G1, G0, G2, G3, G7. unfold s6. cbn. auto 8.
Qed.

Lemma safe_mean_Fin (x : R) (l : list R) :
  safe_mean (map Fin (x :: l))
  = Fin (fold_right Rplus 0%R (x :: l) / INR (length (x :: l))).
Proof.
  unfold safe_mean. cbn [map]. change (Fin x :: map Fin l) with (map Fin (x :: l)).
  rewrite Np_sum_Fin, length_map. apply div_Fin_nonzero.
  apply not_0_INR. discriminate.
Qed.

Lemma last_snoc {A} (l : list A) (x d : A) : List.last (l ++ [x]) d = x.
Proof. apply last_last. Qed.

Lemma _update_info_buffer_save_frame (r : R) (s : AllCallbacks) :
  let s' := fst (_update_info_buffer_save r s) in
  check_freq s' = check_freq s /\
  _stats_window_size s' = _stats_window_size s /\
  best_mean_reward s' = best_mean_reward s /\
  _ep_end_buffer s' = _ep_end_buffer s /\
  _ep_dst_min_buffer s' = _ep_dst_min_buffer s /\
  saved s' = saved s.
Proof.
  unfold _update_info_buffer_save.
  destruct (match _ep_info_buffer s with
            | Some d => Ok d
            | None => deque_new (Some (_stats_window_size s))
            end); cbn; auto 8.
Qed.

Lemma _on_step_save_spec (l : Locals) (s : AllCallbacks) :
  saves_ascend s ->
  let s' := fst (_on_step_save l s) in
  saves_ascend s' /\
  check_freq s' = check_freq s /\
  _stats_window_size s' = _stats_window_size s /\
  _ep_end_buffer s' = _ep_end_buffer s /\
  _ep_dst_min_buffer s' = _ep_dst_min_buffer s.
Proof.
  intros A. unfold _on_step_save.
  set (s1 := match episode_r l with
             | Some r => fst (_update_info_buffer_save r s)
             | None => s
             end).
  assert (F : check_freq s1 = check_freq s /\
              _stats_window_size s1 = _stats_window_size s /\
              best_mean_reward s1 = best_mean_reward s /\
              _ep_end_buffer s1 = _ep_end_buffer s /\
              _ep_dst_min_buffer s1 = _ep_dst_min_buffer s /\
              saved s1 = saved s).
  { unfold s1. destruct (episode_r l) as [r|]; [|auto 8].
    apply _update_info_buffer_save_frame. }
  destruct F as (F1 & F2 & F3 & F4 & F5 & F6).
  assert (A1 : saves_ascend s1).
  { unfold saves_ascend. now rewrite F3, F6. }
  clearbody s1. cbv zeta.
  destruct (py_mod (n_calls l) (check_freq s1)) as [m|]; [|cbn; auto].
  destruct (m =? 0)%Z; [|cbn; auto].
  destruct (_ep_info_buffer s1) as [d|]; [|cbn; auto].
  destruct (items d) as [|x rest] eqn:I; [cbn; auto|].
  cbn [length Nat.ltb Nat.leb]. rewrite safe_mean_Fin.
  set (mean := (fold_right Rplus 0%R (x :: rest)
                / INR (length (x :: rest)))%R).
  destruct (Np.lt (best_mean_reward s1) (Fin mean)) eqn:L1; [|cbn; auto].
  destruct (Np.lt (Fin 0) (Fin mean)) eqn:L2; [|cbn; auto].
  cbn [andb fst]. split; [|cbn; auto].
  destruct A1 as (B & Pos & Asc). unfold saves_ascend. cbn.
  split; [now rewrite last_snoc|]. split.
  - intros i a Hi. apply lookup_app_Some in Hi as [Hi|(_ & Hi)].
    + exact (Pos i a Hi).
    + apply list_lookup_singleton_Some in Hi as (_ & <-).
      exists mean. split; [reflexivity|]. now apply Rltb_true.
  - intros i a b Ha Hb.
    apply lookup_app_Some in Hb as [Hb|(Lb & Hb)].
    + rewrite lookup_app_l in Ha by (apply lookup_lt_Some in Hb; lia).
      exact (Asc i a b Ha Hb).
    + apply list_lookup_singleton_Some in Hb as (E & <-).
      assert (Ei : i = pred (length (saved s1))) by lia.
      rewrite lookup_app_l in Ha by lia.
      assert (La : List.last (saved s1) NInf = a).
      { rewrite Ei in Ha. clear -Ha.
        destruct (saved s1) as [|y t] using rev_ind; [discriminate|].
        rewrite length_app in Ha. cbn in Ha.
        rewrite lookup_app_r in Ha by lia.
        replace (pred (length t + 1) - length t)%nat with 0%nat in Ha by lia.
        injection Ha as ->. apply last_snoc. }
      rewrite <- La, <- B. exact L1.
Qed.

Lemma trained_invariants (w f : Z) (s : AllCallbacks) :
  trained w f s ->
  paired_buffers s /\ saves_ascend s /\
  check_freq s = f /\ _stats_window_size s = w.
Proof.
  induction 1 as [|ev l s _ (P & A & C & Wd)].
  - split; [exact I|]. split; [|split; reflexivity].
    split; [reflexivity|]. split.
    + intros i a Hi. cbn in Hi. rewrite lookup_nil in Hi. discriminate.
    + intros i a b Hi. cbn in Hi. rewrite lookup_nil in Hi. discriminate.
  - unfold _on_step.
    destruct (_on_step_tensor_spec ev l s P) as (P1 & C1 & W1 & B1 & _ & S1).
    assert (A1 : saves_ascend (fst (_on_step_tensor ev l s))).
    { unfold saves_ascend. now rewrite B1, S1. }
    destruct (_on_step_tensor ev l s) as [s1 [[]|x]]; cbn [fst] in *.
    2:{ split; [exact P1|]. split; [exact A1|]. split; congruence. }
    destruct (_on_step_save_spec l s1 A1) as (A2 & C2 & W2 & E2 & M2).
    assert (P2 : paired_buffers (fst (_on_step_save l s1))).
    { unfold paired_buffers. now rewrite E2, M2. }
    destruct (_on_step_save l s1) as [s2 [[]|x]]; cbn [fst] in *;
      (split; [exact P2|]; split; [exact A2|]; split; congruence).
Qed.

(** X20. During a training the buffers of final and of minimal distances
    hold one entry per recorded episode each, at most [maxlen] of them, and
    the final distance of an episode is never below its recorded
    minimum. *)
Theorem minimal_distance_not_above_final (w f : Z) (s : AllCallbacks)
  (e m : Deque npfloat) :
  trained w f s ->
  _ep_end_buffer s = Some e ->
  _ep_dst_min_buffer s = Some m ->
  length (items m) = length (items e) /\
  (forall n, maxlen e = Some n -> (length (items e) <= n)%nat) /\
  forall k dmin dend,
    items m !! k = Some dmin -> items e !! k = Some dend ->
    Np.lt dend dmin = false.
Proof.
  intros T He Hm. apply trained_invariants in T as (P & _).
  unfold paired_buffers in P. rewrite He, Hm in P.
  destruct P as (_ & Q & B).
  split; [eapply Forall2_length; exact Q|]. split; [exact B|].
  intros k dmin dend H1 H2. exact (Forall2_lookup_lr _ _ _ _ _ _ Q H1 H2).
Qed.

(** X21. [model.save] is only called with a positive mean reward that
    exceeds the mean of the save before; [best_mean_reward] is the mean of
    the last save, and minus infinity before the first. *)
Theorem saves_need_a_positive_improving_mean (w f : Z) (s : AllCallbacks) :
  trained w f s ->
  best_mean_reward s = List.last (saved s) NInf /\
  (forall i a, saved s !! i = Some a -> exists r, a = Fin r /\ (0 < r)%R) /\
  (forall i a b,
     saved s !! i = Some a -> saved s !! S i = Some b -> Np.lt a b = true).
Proof.
  intros T. now apply trained_invariants in T as (_ & A & _).
Qed.

(** X22. With [check_freq = 0] no call of [_on_step] returns. *)
Theorem zero_check_freq_stops_every_step (w : Z) (s : AllCallbacks)
  (ev : Res npfloat) (l : Locals) :
  trained w 0 s ->
  exists x, snd (_on_step ev l s) = Raise x.
Proof.
  intros T. apply trained_invariants in T as (P & _ & C & _).
  unfold _on_step.
  destruct (_on_step_tensor_spec ev l s P) as (_ & C1 & _).
  destruct (_on_step_tensor ev l s) as [s1 [[]|x]]; cbn [fst] in *;
    [|eauto].
  unfold _on_step_save.
  set (s2 := match episode_r l with
             | Some r => fst (_update_info_buffer_save r s1)
             | None => s1
             end).
  assert (C2 : check_freq s2 = 0%Z).
  { unfold s2. destruct (episode_r l) as [r|]; [|congruence].
    destruct (_update_info_buffer_save_frame r s1) as (-> & _). congruence. }
  cbv zeta. unfold py_mod. rewrite C2. cbn. eauto.
Qed.

Lemma minimal_distance_not_above_final_witness :
  exists (s : AllCallbacks) (e m : Deque npfloat),
    _ep_end_buffer s = Some e /\ _ep_dst_min_buffer s = Some m /\
    length (items m) = length (items e).
Proof.
  set (s := fst (_on_step (Ok (Fin 0)) (bench_locals true None 1)
                   (AllCallbacks_new 100 1))).
  exists s, {| maxlen := Some 4%nat; items := [Fin 1] |},
    {| maxlen := Some 4%nat; items := [Fin 1] |}.
  assert (He : _ep_end_buffer s
               = Some {| maxlen := Some 4%nat; items := [Fin 1] |})
    by reflexivity.
  assert (Hm : _ep_dst_min_buffer s
               = Some {| maxlen := Some 4%nat; items := [Fin 1] |})
    by reflexivity.
  split; [exact He|]. split; [exact Hm|].
  refine (proj1 (minimal_distance_not_above_final 100 1 s _ _ _ He Hm)).
  apply trained_step, trained_new.
Defined.

Lemma saves_need_a_positive_improving_mean_witness :
  let s := fst (_on_step (Ok (Fin 0)) (bench_locals true (Some 1%R) 1)
                  (AllCallbacks_new 100 1)) in
  best_mean_reward s = List.last (saved s) NInf.
Proof.
  intros s.
  refine (proj1 (saves_need_a_positive_improving_mean 100 1 s _)).
  apply trained_step, trained_new.
Defined.

Lemma zero_check_freq_stops_every_step_witness :
  exists x,
    snd (_on_step (Ok (Fin 0)) (bench_locals false None 1)
           (AllCallbacks_new 100 0))
    = Raise x.
Proof.
  apply (zero_check_freq_stops_every_step 100). apply trained_new.
Defined.

(** ** The window of episode rewards *)

Lemma _on_step_save_buffer (l : Locals) (s : AllCallbacks) :
  _ep_info_buffer (fst (_on_step_save l s))
  = match episode_r l with
    | Some r => _ep_info_buffer (fst (_update_info_buffer_save r s))
    | None => _ep_info_buffer s
    end /\
  _stats_window_size (fst (_on_step_save l s)) = _stats_window_size s.
Proof.
  unfold _on_step_save.
  set (s1 := match episode_r l with
             | Some r => fst (_update_info_buffer_save r s)
             | None => s
             end).
  assert (E : _ep_info_buffer s1
              = match episode_r l with
                | Some r => _ep_info_buffer (fst (_update_info_buffer_save r s))
                | None => _ep_info_buffer s
                end /\
              _stats_window_size s1 = _stats_window_size s).
  { unfold s1. destruct (episode_r l) as [r|]; [|auto].
    split; [reflexivity|]. apply _update_info_buffer_save_frame. }
  destruct E as (E1 & E2). rewrite <- E1, <- E2. clearbody s1. cbv zeta.
  destruct (py_mod (n_calls l) (check_freq s1)) as [m|]; [|now split].
  destruct (m =? 0)%Z; [|now split].
  destruct (_ep_info_buffer s1) as [d|] eqn:B; [|now split].
  destruct (0 <? length (items d))%nat; [|now split].
  destruct (_ && _); [|now split]. cbn. now split.
Qed.

Lemma saved_run_snoc (ls : list Locals) (l : Locals) (s : AllCallbacks) :
  saved_run (ls ++ [l]) s = fst (_on_step_save l (saved_run ls s)).
Proof. unfold saved_run. now rewrite fold_left_app. Qed.

(** X26. With a window [stats_window_size >= 0], [_ep_info_buffer] holds
    the rewards of the last [stats_window_size] episodes that ended, in
    order; it does not exist before the first one. *)
Theorem episode_rewards_window (w f : Z) (ls : list Locals) :
  (0 <= w)%Z ->
  let s := saved_run ls (AllCallbacks_new w f) in
  _ep_info_buffer s
  = match episode_rewards ls with
    | [] => None
    | rewards =>
        Some {| maxlen := Some (Z.to_nat w);
                items := drop (length rewards - Z.to_nat w) rewards |}
    end /\
  _stats_window_size s = w.
Proof.
  intros Hw. induction ls as [|l ls IH] using rev_ind; [now split|].
  cbv zeta in *. rewrite saved_run_snoc.
  destruct IH as (B & Ws).
  destruct (_on_step_save_buffer l (saved_run ls (AllCallbacks_new w f)))
    as (B' & Ws').
  split; [|congruence]. rewrite B'. clear B' Ws'.
  unfold episode_rewards in *. rewrite omap_app.
  change (omap episode_r [l])
    with (match episode_r l with Some y => [y] | None => [] end).
  destruct (episode_r l) as [r|].
  2:{ rewrite app_nil_r. exact B. }
  unfold _update_info_buffer_save. rewrite B, Ws.
  destruct (omap episode_r ls) as [|x rest] eqn:E.
  - unfold deque_new. destruct (Z.ltb_spec w 0); [lia|].
    reflexivity.
  - cbn [fst _ep_info_buffer set_ep_info_buffer]. unfold deque_extend.
    cbn [maxlen items]. f_equal.
    rewrite deque_append_window.
    destruct ((x :: rest) ++ [r]) eqn:E2; [destruct rest; discriminate|].
    rewrite <- E2. reflexivity.
Qed.

Lemma episode_rewards_window_witness :
  let s := saved_run [bench_locals true (Some 1%R) 1;
                      bench_locals true (Some 2%R) 2]
             (AllCallbacks_new 1 1) in
  _ep_info_buffer s = Some {| maxlen := Some 1%nat; items := [2%R] |}.
Proof.
  intros s.
  refine (proj1 (episode_rewards_window 1 1
                   [bench_locals true (Some 1%R) 1;
                    bench_locals true (Some 2%R) 2] _)). lia.
Defined.

(** * Properties of the evaluation *)

Import Evaluation.

Section EvaluationFacts.

Context {W : World}.

Variable predict : Obs -> list R.

Lemma step_sim_log_suffix (action : list R) (e : Env W) :
  exists suffix,
    sim_log (fst (step action e)) = sim_log e ++ suffix /\
    Forall no_reset suffix.
Proof.
  rewrite step_unfold.
  destruct (_scaleAction e action) as [torques|x].
  2:{ exists []. cbn. rewrite app_nil_r. split; [reflexivity | constructor]. }
  cbv zeta.
  destruct (after_physics_frame torques e) as (_ & _ & _ & _ & _ & L).
  exists (replicate (Z.to_nat (numSimulationSteps (params e)))
            (CallStep torques) ++ [CallGetRobotState; CallGetRobotPos]).
  split.
  - destruct (evaluate (after_physics torques e) torques)
      as [[[o tr] [r i]]|x]; [|exact L].
    unfold finish. cbn [fst sim_log set_on_target]. exact L.
  - apply Forall_app. split.
    + now apply Forall_replicate.
    + repeat constructor.
Qed.

Lemma eval_episode_spec (fuel : nat) :
  forall (obs : Obs) (acc : npfloat) (e e' : Env W) (r : option npfloat),
    (0 <= timer e)%Z ->
    eval_episode predict fuel obs acc e = (e', Ok r) ->
    maxStep e' = maxStep e /\
    match r with
    | Some _ =>
        (timer e < timer e' <= timer e + Z.of_nat fuel)%Z /\
        (timer e' <= Z.max (timer e + 1) (maxStep e))%Z
    | None =>
        (0 < fuel)%nat -> (timer e + Z.of_nat fuel <= maxStep e - 1)%Z
    end.
Proof.
  induction fuel as [|fuel IH]; intros obs acc e e' r Hi H.
  - cbn in H. injection H as <- <-. split; [reflexivity | lia].
  - cbn [eval_episode] in H. unfold bind at 1 in H.
    destruct (step_frame (predict obs) e)
      as ((_ & _ & _ & _ & Ms & _) & Ts & _).
    destruct (step (predict obs) e) as [e1 [res|x]] eqn:Hs; [|discriminate].
    cbn [fst] in Ms, Ts.
    assert (Ht : terminated res = _checkTermination e1).
    { apply step_Ok in Hs as (tq & o & tr & r0 & i0 & _ & _ & Hf).
      now apply finish_infos in Hf as (-> & _ & _ & _ & -> & _). }
    destruct (terminated res || truncated res) eqn:D.
    + injection H as <- <-. split; [exact Ms|]. lia.
    + apply orb_false_elim in D as (D1 & _).
      rewrite Ht in D1. unfold _checkTermination in D1.
      apply orb_false_elim in D1 as (D1 & _).
      rewrite Z.gtb_ltb in D1. apply Z.ltb_ge in D1.
      destruct (IH (ob res) _ e1 e' r ltac:(lia) H) as (Ms' & IH').
      split; [congruence|].
      destruct r as [x|].
      * rewrite Ms in IH'. lia.
      * intros _. destruct fuel as [|fuel]; [lia|].
        rewrite Ms in IH'. lia.
Qed.

Lemma eval_episode_sim_log (fuel : nat) :
  forall (obs : Obs) (acc : npfloat) (e : Env W),
  exists suffix,
    sim_log (fst (eval_episode predict fuel obs acc e))
    = sim_log e ++ suffix /\
    Forall no_reset suffix.
Proof.
  induction fuel as [|fuel IH]; intros obs acc e.
  - exists []. cbn. rewrite app_nil_r. split; [reflexivity | constructor].
  - cbn [eval_episode]. unfold bind at 1.
    destruct (step_sim_log_suffix (predict obs) e) as (s1 & L1 & F1).
    destruct (step (predict obs) e) as [e1 [res|x]]; cbn [fst] in L1.
    2:{ exists s1. now split. }
    destruct (terminated res || truncated res).
    + exists s1. now split.
    + destruct (IH (ob res) (Np.add acc (reward res)) e1) as (s2 & L2 & F2).
      exists (s1 ++ s2). rewrite L2, L1, app_assoc.
      split; [reflexivity|]. now apply Forall_app.
Qed.

Lemma reset_sim_log_target (t : list R) (e : Env W) :
  sim_log (fst (reset (Some {[ "target"%string := t ]}) e))
  = sim_log e ++ [CallReset t; CallGetRobotState; CallGetRobotPos].
Proof.
  rewrite reset_sim_log.
  rewrite (reset_overrides {[ "target"%string := t ]} t e) by reflexivity.
  reflexivity.
Qed.

Lemma no_reset_resets_to (t : list R) (suffix : list SimCall) :
  Forall no_reset suffix -> resets_to t suffix.
Proof.
  intros F. eapply Forall_impl; [exact F|].
  intros [t'| | |] H; cbn in *; [contradiction|exact I..].
Qed.

Lemma eval_episode_maxStep (fuel : nat) :
  forall (obs : Obs) (acc : npfloat) (e : Env W),
    maxStep (fst (eval_episode predict fuel obs acc e)) = maxStep e.
Proof.
  induction fuel as [|fuel IH]; intros obs acc e; [reflexivity|].
  cbn [eval_episode]. unfold bind at 1.
  destruct (step_frame (predict obs) e) as ((_ & _ & _ & _ & Ms & _) & _).
  destruct (step (predict obs) e) as [e1 [res|x]]; cbn [fst] in Ms;
    [|exact Ms].
  destruct (terminated res || truncated res); [exact Ms|].
  now rewrite IH.
Qed.

Lemma eval_one_unfold (fuel : nat) (ev : EvalOnTraining) (e : Env W) :
  eval_one predict fuel ev e
  = match targets ev with
    | [] => (e, Raise IndexError)
    | t :: _ =>
        match reset (Some {[ "target"%string := t ]}) e with
        | (e0, Ok oi) => eval_episode predict fuel (fst oi) (Fin 0) e0
        | (e0, Raise x) => (e0, Raise x)
        end
    end.
Proof.
  unfold eval_one, bind at 1, lift at 1.
  destruct (targets ev) as [|t ts]; reflexivity.
Qed.

Lemma eval_one_spec (fuel : nat) (ev : EvalOnTraining) (e : Env W) :
  let e' := fst (eval_one predict fuel ev e) in
  maxStep e' = maxStep e /\
  (exists suffix,
      sim_log e' = sim_log e ++ suffix /\
      forall t, targets ev !! 0%nat = Some t -> resets_to t suffix) /\
  forall r,
    snd (eval_one predict fuel ev e) = Ok r ->
    match r with
    | Some _ => (1 <= timer e' <= Z.max 1 (maxStep e))%Z
    | None => (Z.of_nat fuel < Z.max 1 (maxStep e))%Z
    end.
Proof.
  rewrite eval_one_unfold.
  destruct (targets ev) as [|t ts].
  { cbn. split; [reflexivity|]. split; [|discriminate].
    exists []. rewrite app_nil_r. split; [reflexivity|]. discriminate. }
  pose proof (reset_sim_log_target t e) as L0.
  destruct (reset_counters (Some {[ "target"%string := t ]}) e) as (T0 & _).
  pose proof (reset_frame (Some {[ "target"%string := t ]}) e)
    as (_ & _ & _ & _ & M0 & _).
  destruct (reset (Some {[ "target"%string := t ]}) e) as [e0 [[o i]|x]];
    cbn [fst snd] in *.
  2:{ split; [exact M0|]. split; [|discriminate].
      eexists. split; [exact L0|]. intros t' Ht'. cbn in Ht'.
      injection Ht' as <-. repeat constructor. }
  destruct (eval_episode_sim_log fuel o (Fin 0) e0) as (s1 & L1 & F1).
  split; [|split].
  - rewrite eval_episode_maxStep. exact M0.
  - exists ([CallReset t; CallGetRobotState; CallGetRobotPos] ++ s1).
    rewrite L1, L0, app_assoc. split; [reflexivity|].
    intros t' Ht'. cbn in Ht'. injection Ht' as <-.
    apply Forall_app. split.
    + repeat constructor.
    + now apply no_reset_resets_to.
  - intros r H.
    destruct (eval_episode predict fuel o (Fin 0) e0) as [e1 [r'|x]] eqn:H';
      cbn [fst snd] in *; [|discriminate].
    injection H as ->.
    apply eval_episode_spec in H' as (_ & Sp); [|lia].
    rewrite T0, M0 in Sp. destruct r as [x|].
    + lia.
    + destruct fuel as [|fuel]; [lia|].
      assert (0 < S fuel)%nat as P by lia. apply Sp in P. lia.
Qed.

Lemma eval_loop_S (fuel : nat) (ev : EvalOnTraining) (n : nat)
  (acc : list npfloat) (e : Env W) :
  eval_loop predict fuel ev (S n) acc e
  = match eval_one predict fuel ev e with
    | (e1, Ok (Some x)) => eval_loop predict fuel ev n (acc ++ [x]) e1
    | (e1, Ok None) => (e1, Ok None)
    | (e1, Raise y) => (e1, Raise y)
    end.
Proof.
  cbn [eval_loop]. unfold bind at 1.
  destruct (eval_one predict fuel ev e) as [e1 [[x|]|y]]; reflexivity.
Qed.

Lemma eval_loop_spec (fuel : nat) (ev : EvalOnTraining) (n : nat) :
  forall (acc : list npfloat) (e : Env W),
    let e' := fst (eval_loop predict fuel ev n acc e) in
    maxStep e' = maxStep e /\
    (exists suffix,
        sim_log e' = sim_log e ++ suffix /\
        forall t, targets ev !! 0%nat = Some t -> resets_to t suffix) /\
    ((Z.max 1 (maxStep e) <= Z.of_nat fuel)%Z ->
     forall r,
       snd (eval_loop predict fuel ev n acc e) = Ok r ->
       exists rs, r = Some rs /\ length rs = (length acc + n)%nat).
Proof.
  induction n as [|n IH]; intros acc e.
  - cbn. split; [reflexivity|]. split.
    + exists []. rewrite app_nil_r. split; [reflexivity|]. constructor.
    + intros _ r [= <-]. exists acc. split; [reflexivity | lia].
  - rewrite eval_loop_S.
    destruct (eval_one_spec fuel ev e) as (M1 & (s1 & L1 & R1) & E1).
    destruct (eval_one predict fuel ev e) as [e1 [[x|]|y]];
      cbn [fst snd] in *.
    + destruct (IH (acc ++ [x]) e1) as (M2 & (s2 & L2 & R2) & E2).
      cbv zeta in *. split; [congruence|]. split.
      * exists (s1 ++ s2). rewrite L2, L1, app_assoc.
        split; [reflexivity|]. intros t Ht. apply Forall_app.
        split; [now apply R1 | now apply R2].
      * intros Hf r Hr. rewrite M1 in E2.
        destruct (E2 Hf r Hr) as (rs & -> & Lrs).
        exists rs. split; [reflexivity|].
        rewrite length_app in Lrs. cbn in Lrs. lia.
    + split; [exact M1|]. split; [eauto|].
      intros Hf r _. specialize (E1 None eq_refl). cbn in E1. lia.
    + split; [exact M1|]. split; [eauto|]. intros _ r Hr. discriminate Hr.
Qed.

Lemma eval_on_train_unfold (fuel : nat) (ev : EvalOnTraining) (e : Env W) :
  eval_on_train predict fuel ev e
  = match eval_loop predict fuel ev (n_eval_episodes ev) [] e with
    | (e', Ok rs) => (e', Ok (option_map np_mean rs))
    | (e', Raise x) => (e', Raise x)
    end.
Proof. reflexivity. Qed.

Section EvaluationProgress.

Variable joints : nat.

Hypothesis predict_shape : forall o : Obs, length (predict o) = joints.




End EvaluationProgress.

End EvaluationFacts.

Lemma eval_on_train_leaves_its_loops {W : World} (predict : Obs -> list R)
  (fuel : nat) (ev : EvalOnTraining) (e e' : Env W) (r : option npfloat) :
  (Z.max 1 (maxStep e) <= Z.of_nat fuel)%Z ->
  eval_on_train predict fuel ev e = (e', Ok r) ->
  exists rewards,
    r = Some (np_mean rewards) /\
    length rewards = n_eval_episodes ev /\
    maxStep e' = maxStep e.
Proof.
  intros Hf H. rewrite eval_on_train_unfold in H.
  destruct (eval_loop_spec predict fuel ev (n_eval_episodes ev) [] e)
    as (M & _ & E).
  destruct (eval_loop predict fuel ev (n_eval_episodes ev) [] e)
    as [e1 [rs|x]]; [|discriminate].
  injection H as <- <-. cbn [fst snd] in *.
  destruct (E Hf rs eq_refl) as (rewards & -> & L).
  exists rewards. cbn. auto.
Qed.

(** X23. [EvalOnTraining] draws [n_eval_episodes] targets, and
    [eval_on_train] resets the environment to the first of them in every
    episode. *)
Theorem eval_on_train_resets_to_first_target {W : World}
  (predict : Obs -> list R) (fuel : nat) (n : nat) (e : Env W) :
  let ev := @EvalOnTraining_new W n in
  length (targets ev) = n /\
  exists suffix,
    sim_log (fst (eval_on_train predict fuel ev e)) = sim_log e ++ suffix /\
    forall t t',
      targets ev !! 0%nat = Some t -> CallReset t' ∈ suffix -> t' = t.
Proof.
  intros ev. split.
  - unfold ev, EvalOnTraining_new. cbn [targets].
    generalize (target_new W). induction n as [|n IH]; intros b; [reflexivity|].
    cbn [_define_targets]. specialize (IH (create_target W b)).
    destruct (_define_targets n (create_target W b)) as [b' ts].
    cbn in *. now rewrite IH.
  - rewrite eval_on_train_unfold.
    destruct (eval_loop_spec predict fuel ev (n_eval_episodes ev) [] e)
      as (_ & (suffix & L & R) & _).
    exists suffix. split.
    + destruct (eval_loop predict fuel ev (n_eval_episodes ev) [] e)
        as [e1 [rs|x]]; exact L.
    + intros t t' Ht Hin. specialize (R t Ht).
      unfold resets_to in R. rewrite Forall_forall in R.
      exact (R _ Hin).
Qed.


